(** * SimCtl: device sessions, lock files, guarded operations and discovery

    A shallow embedding of the parts of the SimCtl device control library
    that its specification makes claims about:

    - [lib/DeviceSession.js]   the in-process session objects and their store;
    - [lib/BaseDevice.js]      the lock file, the session guard,
                               [isAvailable] and the driver capability check;
    - [index.js]               the loading of drivers from the configuration;
    - [lib/iOS/index.js], [lib/Android/index.js]
                               the single-flight discovery walks;
    - [lib/Android/index.js], [lib/Android/Emulator.js], the iOS simulator
      class                    rotate, install, uninstall and boot;

    and, beyond those: starting and ending a session, purging the storage,
    the check of device objects and their constructors, [discover],
    [getAvailableDevices], the Android key events, ports and boot wait, the
    AVD walk and the boot wait of the iOS simulator.

    Asynchronous code is embedded as explicit state passing.  A function of
    the source that takes a completion callback becomes a function that
    takes the answers of the outside world (clock, file system, child
    processes) and returns how its promise settled together with the new
    state.  A promise that is never settled is a result of its own. *)

From Stdlib Require Import ZArith String Ascii List Bool Lia.
From stdpp Require Import base option gmap strings pretty list.

Local Open Scope string_scope.
Local Open Scope Z_scope.

(** ** JavaScript values *)

Module Js.

(** Object identity: two references are [===] exactly when they are equal. *)
Definition Ref := nat.

(** The values the modelled code inspects with [typeof], [instanceof],
    [&&], [||] and [!]. *)
Inductive Val :=
| VUndefined
| VNull
| VBool (b : bool)
| VNum (n : Z)
| VStr (s : string)
| VFunction
| VArray (l : list string)
| VSession (r : Ref)      (* an object built by [new DeviceSession()] *)
| VObject.

#[global] Instance Val_eq_dec : EqDecision Val.
Proof. solve_decision. Defined.

Definition truthy (v : Val) : bool :=
  match v with
  | VUndefined | VNull => false
  | VBool b => b
  | VNum n => negb (n =? 0)
  | VStr s => negb (String.eqb s "")
  | VFunction | VArray _ | VSession _ | VObject => true
  end.

Definition typeof (v : Val) : string :=
  match v with
  | VUndefined => "undefined"
  | VNull => "object"
  | VBool _ => "boolean"
  | VNum _ => "number"
  | VStr _ => "string"
  | VFunction => "function"
  | VArray _ | VSession _ | VObject => "object"
  end.

(** [a && b] and [a || b] return one of their operands. *)
Definition and (a b : Val) : Val := if truthy a then b else a.
Definition or (a b : Val) : Val := if truthy a then a else b.

(** [v instanceof Function], [v instanceof DeviceSession]. *)
Definition instanceofFunction (v : Val) : bool :=
  match v with VFunction => true | _ => false end.
Definition instanceofDeviceSession (v : Val) : bool :=
  match v with VSession _ => true | _ => false end.

(** How a promise (and the completion callback next to it) ended. *)
Inductive Settled (E A : Type) :=
| Resolved (a : A)
| Rejected (e : E)
| Pending                 (* neither resolved nor rejected, callback never run *)
| Uncaught (e : E).       (* an exception thrown inside a callback *)
Arguments Resolved {E A} a.
Arguments Rejected {E A} e.
Arguments Pending {E A}.
Arguments Uncaught {E A} e.

(** Error values.  The named constants are the [Error] objects the modules
    create once and pass around by reference. *)
Inductive Error :=
| INVALID_SESSION
| DEVICE_IS_LOCKED_ERROR
| DEVICE_NOT_BOOTED_ERROR
| DEVICE_NOT_READY_ERROR
| DEVICE_ALREADY_BOOTED_ERROR
| NewError (message : string)     (* [new Error(message)] *)
| TypeError (message : string)    (* thrown by the engine *)
| External (code : string)        (* an [err] handed back by fs or exec *)
| NotAnError (v : Val).           (* any other value given as the reason *)

#[global] Instance Error_eq_dec : EqDecision Error.
Proof. solve_decision. Defined.

(** What [child_process.exec] hands to its callback. *)
Record ExecResult := {
  err : option Error;
  stdout : string;
  stderr : string
}.

(** [err || stderr] and [err || stdout] as conditions, and the error
    [err || new Error(stderr)] built in both cases. *)
Definition errOrStderr (r : ExecResult) : bool :=
  bool_decide (is_Some (err r)) || truthy (VStr (stderr r)).
Definition errOrStdout (r : ExecResult) : bool :=
  bool_decide (is_Some (err r)) || truthy (VStr (stdout r)).
Definition errOrNewErrorStderr (r : ExecResult) : Error :=
  from_option id (NewError (stderr r)) (err r).

End Js.

(** ** lib/DeviceSession.js *)

Module DeviceSession.
Import Js.

(** The closure variables of one [DeviceSession] object. *)
Record t := {
  token : option string;      (* [null] after [destroy] *)
  lastUsed : Z;
  timeout : Z
}.

(** The module-level [sessions] object and the session objects alive in
    the process.  A property of [sessions] holds a session or [null]; its
    keys are tokens, or ["null"].  Properties inherited from
    [Object.prototype] are left out. *)
Record Store := {
  sessions : gmap string (option Ref);
  objects : gmap Ref t
}.

Definition empty : Store := {| sessions := ∅; objects := ∅ |}.

(** Property keys are strings: [sessions[null]] is [sessions["null"]]. *)
Definition key (tok : option string) : string := from_option id "null" tok.

Definition tokenVal (tok : option string) : Val :=
  match tok with Some s => VStr s | None => VNull end.

(** [sessions[k]] as a JavaScript value. *)
Definition lookupVal (m : gmap string (option Ref)) (k : string) : Val :=
  match m !! k with
  | Some (Some r) => VSession r
  | Some None => VNull
  | None => VUndefined
  end.

(** [1000 * 60 * 5], used when the configuration gives no integer;
    [cfg] is [parseInt(config.deviceSessionTimeout, 10)], [None] for NaN. *)
Definition DEFAULT_TIMEOUT : Z := 1000 * 60 * 5.
Definition configuredTimeout (cfg : option Z) : Z := from_option id DEFAULT_TIMEOUT cfg.

(** [new DeviceSession()]: [r] is the new object, [tok] the md5 of the
    high-resolution clock, [now] is [Date.now()]. *)
Definition new (r : Ref) (tok : string) (now : Z) (cfg : option Z) (st : Store) : Store :=
  {| sessions := <[tok := Some r]> (sessions st);
     objects := <[r := {| token := Some tok; lastUsed := now;
                          timeout := configuredTimeout cfg |}]> (objects st) |}.

(** [destroy]: [token = null; sessions[token] = null; delete sessions[token]]. *)
Definition destroy (r : Ref) (st : Store) : Store :=
  match objects st !! r with
  | None => st
  | Some s =>
      let tok' : option string := None in
      {| sessions := delete (key tok') (<[key tok' := None]> (sessions st));
         objects := <[r := {| token := tok'; lastUsed := lastUsed s;
                              timeout := timeout s |}]> (objects st) |}
  end.

Definition touch (r : Ref) (now : Z) (st : Store) : Store :=
  match objects st !! r with
  | None => st
  | Some s =>
      {| sessions := sessions st;
         objects := <[r := {| token := token s; lastUsed := now;
                              timeout := timeout s |}]> (objects st) |}
  end.

(** The value of [isValid] in [validate]. *)
Definition isValid (s : t) (now : Z) (st : Store) : Val :=
  and (and (VBool (bool_decide (now - lastUsed s < timeout s))) (tokenVal (token s)))
      (lookupVal (sessions st) (key (token s))).

(** [validate]: returns [isValid]; the same value goes to [done]. *)
Definition validate (r : Ref) (now : Z) (st : Store) : Val * Store :=
  match objects st !! r with
  | None => (VUndefined, st)
  | Some s =>
      let v := isValid s now st in
      if truthy v then (v, touch r now st) else (v, destroy r st)
  end.

(** [compare]: [session === this]. *)
Definition compare (r : Ref) (session : Val) : bool :=
  bool_decide (session = VSession r).

(** [compareAndValidate]: [self.compare(session) && self.validate(done)].
    The second component is the argument [done] was called with, [None]
    when [done] was not called at all. *)
Definition compareAndValidate (r : Ref) (session : Val) (now : Z) (st : Store)
  : Val * option Val * Store :=
  if compare r session
  then let '(v, st') := validate r now st in (v, Some v, st')
  else (VBool false, None, st).

Definition getToken (r : Ref) (st : Store) : Val :=
  match objects st !! r with
  | Some s => tokenVal (token s)
  | None => VUndefined
  end.

(** [DeviceSession.getSessionByToken]: [sessions[token] || null]. *)
Definition getSessionByToken (tok : string) (st : Store) : Val :=
  or (lookupVal (sessions st) tok) VNull.

(** A session is registered when the store maps its token to it. *)
Definition registered (st : Store) (r : Ref) : Prop :=
  ∃ s tok, objects st !! r = Some s ∧ token s = Some tok ∧
           sessions st !! tok = Some (Some r).

(** Tokens are non-empty md5 strings and no two live sessions share one. *)
Definition store_ok (st : Store) : Prop :=
  ∀ r s tok, objects st !! r = Some s → token s = Some tok →
    tok ≠ "" ∧ ∀ r', sessions st !! tok = Some (Some r') → r' = r.

End DeviceSession.

(** ** lib/BaseDevice.js *)

Module BaseDevice.
Import Js.

(** *** Reading the lock file: [trim], [split] and [parseInt] *)

Fixpoint ltrim (s : string) : string :=
  match s with
  | String c s' => if Ascii.is_space c then ltrim s' else s
  | EmptyString => EmptyString
  end.

Fixpoint rtrim (s : string) : string :=
  match s with
  | String c s' =>
      match rtrim s' with
      | EmptyString => if Ascii.is_space c then EmptyString else String c EmptyString
      | t => String c t
      end
  | EmptyString => EmptyString
  end.

Definition trim (s : string) : string := rtrim (ltrim s).

(** [s.split(sep)] for a one-character separator. *)
Fixpoint split (sep : ascii) (s : string) : list string :=
  match s with
  | EmptyString => [EmptyString]
  | String c s' =>
      if Ascii.eqb c sep then EmptyString :: split sep s'
      else match split sep s' with
           | x :: xs => String c x :: xs
           | [] => [String c EmptyString]
           end
  end.

(** The digits at the front of [s], read in base ten; [acc] is [None]
    until a digit has been seen. *)
Fixpoint read_digits (acc : option Z) (s : string) : option Z :=
  match s with
  | String c s' =>
      match Ascii.is_nat c with
      | Some d => read_digits (Some (10 * from_option id 0 acc + Z.of_nat d)) s'
      | None => acc
      end
  | EmptyString => acc
  end.

(** A string of decimal digits only, as [pid.toString()] gives. *)
Fixpoint digits (s : string) : bool :=
  match s with
  | String c s' => bool_decide (is_Some (Ascii.is_nat c)) && digits s'
  | EmptyString => true
  end.

(** [parseInt(s, 10)]; [None] is NaN.  [parseInt(undefined, 10)] is NaN. *)
Definition parseInt (s : option string) : option Z :=
  match s with
  | None => None
  | Some s =>
      match ltrim s with
      | String c s' =>
          if Ascii.eqb c "-" then Z.opp <$> read_digits None s'
          else if Ascii.eqb c "+" then read_digits None s'
          else read_digits None (String c s')
      | EmptyString => None
      end
  end.

(** *** The lock *)

(** What [readLock] resolves with: [{ locked, pid }]. *)
Record LockStatus := {
  locked : bool;
  pid : option Z                 (* [None] is NaN *)
}.

(** The lock file of one device on disk, the errors the file system
    answers with, and the closure variable [localLock]. *)
Record Lock := {
  lockFile : option string;      (* [None]: the file does not exist *)
  readError : option string;     (* an [err.code] other than ENOENT on read *)
  writeError : option string;    (* an [err] on write *)
  localLock : bool
}.

Definition set_lockFile (c : string) (l : Lock) : Lock :=
  {| lockFile := Some c; readError := readError l;
     writeError := writeError l; localLock := localLock l |}.

Definition set_localLock (b : bool) (l : Lock) : Lock :=
  {| lockFile := lockFile l; readError := readError l;
     writeError := writeError l; localLock := b |}.

(** What [readLock] passes to its callback: [(null, status)], or an error
    together with [null] or with nothing. *)
Inductive LockRead :=
| LockOk (status : LockStatus)
| LockErr (e : Error) (lock : Val).

Section Process.

(** [process.pid] of the running process. *)
Variable process_pid : N.

(** [utils.getProcessPathByPID] of jpc-utils (not part of this repository):
    whether it finds a process path for the pid, that is whether the pid
    denotes a live process. *)
Variable getProcessPathByPID : option Z → bool.

Definition self_pid : option Z := Some (Z.of_N process_pid).

(** The flag [localLock] is set only while the file names this process as
    the holder. *)
Definition lock_consistent (l : Lock) : Prop :=
  localLock l = true → lockFile l = Some ("1." +:+ pretty process_pid).

(** [status.locked && status.pid !== process.pid] *)
Definition lockedByOther (status : LockStatus) : bool :=
  locked status && negb (bool_decide (pid status = self_pid)).

(** [fs.writeFile(path.join(self.localStorage, '.lock'), contents, cb)] *)
Definition writeFile (contents : string) (l : Lock) : option Error * Lock :=
  match writeError l with
  | Some code => (Some (External code), l)
  | None => (None, set_lockFile contents l)
  end.

Definition parseStatus (contents : string) : LockStatus :=
  let parts := split "." (trim contents) in
  {| locked := if bool_decide (parseInt (parts !! 0%nat) = Some 0) then false else true;
     pid := parseInt (parts !! 1%nat) |}.

Definition readLock (l : Lock) : LockRead * Lock :=
  if localLock l then (LockOk {| locked := true; pid := self_pid |}, l)
  else
    match readError l with
    | Some code => (LockErr (External code) VNull, l)
    | None =>
        match lockFile l with
        | None =>
            match writeFile ("0." +:+ pretty process_pid) l with
            | (Some e, l') => (LockErr e VUndefined, l')
            | (None, l') => (LockOk {| locked := false; pid := self_pid |}, l')
            end
        | Some contents =>
            let status := parseStatus contents in
            if lockedByOther status then
              if getProcessPathByPID (pid status) then (LockOk status, l)
              else
                match writeFile ("0." +:+ pretty process_pid) l with
                | (Some e, l') => (LockErr e VUndefined, l')
                | (None, l') => (LockOk {| locked := false; pid := self_pid |}, l')
                end
            else (LockOk status, l)
        end
    end.

(** [writeLock(locked, done)]: the argument of [done], [None] for success. *)
Definition writeLock (lk : bool) (l : Lock) : option Error * Lock :=
  match readLock l with
  | (LockErr e _, l1) => (Some e, l1)
  | (LockOk status, l1) =>
      if lockedByOther status then
        (Some (NewError "Device is locked by another process, unable to write to lock file."), l1)
      else
        let contents := (if lk then "1" else "0") +:+ "." +:+ pretty process_pid in
        writeFile contents (set_localLock lk l1)
  end.

Definition settle (r : option Error * Lock) : Settled Error unit * Lock :=
  match r with
  | (Some e, l) => (Rejected e, l)
  | (None, l) => (Resolved tt, l)
  end.

(** [lock] acquires, [unlock] releases. *)
Definition lock (l : Lock) : Settled Error unit * Lock := settle (writeLock true l).
Definition unlock (l : Lock) : Settled Error unit * Lock := settle (writeLock false l).

(** [isLocked]: [typeof lock === 'object' && lock.locked].  When [readLock]
    calls back with [(err, null)] the test reads a property of [null] and
    throws inside the callback. *)
Definition isLocked (l : Lock) : Settled Error bool * Lock :=
  match readLock l with
  | (LockOk status, l') => (Resolved (locked status), l')
  | (LockErr _ VNull, l') =>
      (Uncaught (TypeError "Cannot read property 'locked' of null"), l')
  | (LockErr _ _, l') => (Resolved false, l')
  end.

(** *** The device *)

(** A device object: the closure variables of [BaseDevice] ([session] and,
    inside [lockState], [localLock]), the closure variable [orientation]
    of the subclass constructor ([AndroidDevice], [iOSSimulatorDevice]),
    the property [self.serial], the session store of the process, and the
    commands the methods of the device hand to [child_process]
    themselves, oldest first.  The listings [isBooted] asks for
    ([listRunningDevices], [getSimulatorDeviceStatuses]) are walks shared
    by all devices, with commands of their own ([adb devices;] and six
    more for each serial, [xcrun simctl list]); those are not part of
    [execLog], and what the walks answer is taken as given. *)
Record Dev := {
  session : option Ref;
  lockState : Lock;
  store : DeviceSession.Store;
  orientation : Z;
  serial : option string;
  execLog : list string
}.

Definition set_session (s : option Ref) (d : Dev) : Dev :=
  {| session := s; lockState := lockState d; store := store d;
     orientation := orientation d; serial := serial d; execLog := execLog d |}.
Definition set_lockState (l : Lock) (d : Dev) : Dev :=
  {| session := session d; lockState := l; store := store d;
     orientation := orientation d; serial := serial d; execLog := execLog d |}.
Definition set_store (st : DeviceSession.Store) (d : Dev) : Dev :=
  {| session := session d; lockState := lockState d; store := st;
     orientation := orientation d; serial := serial d; execLog := execLog d |}.
Definition set_orientation (o : Z) (d : Dev) : Dev :=
  {| session := session d; lockState := lockState d; store := store d;
     orientation := o; serial := serial d; execLog := execLog d |}.
Definition set_serial (s : option string) (d : Dev) : Dev :=
  {| session := session d; lockState := lockState d; store := store d;
     orientation := orientation d; serial := s; execLog := execLog d |}.
Definition exec (command : string) (d : Dev) : Dev :=
  {| session := session d; lockState := lockState d; store := store d;
     orientation := orientation d; serial := serial d;
     execLog := execLog d ++ [command] |}.

(** [isAvailable]: the test [session.started === true] reads a property of
    [session]; on [null] that throws inside the promise executor, which
    rejects the promise without calling [done].  A [DeviceSession] has no
    property [started], so with a session the test is false. *)
Definition isAvailable (d : Dev) : Settled Error bool * Dev :=
  match session d with
  | None => (Rejected (TypeError "Cannot read property 'started' of null"), d)
  | Some _ =>
      match isLocked (lockState d) with
      | (Resolved true, l') => (Resolved false, set_lockState l' d)
      | (Resolved false, l') => (Resolved true, set_lockState l' d)
      | (Rejected e, l') => (Rejected e, set_lockState l' d)
      | (Uncaught e, l') => (Uncaught e, set_lockState l' d)
      | (Pending, l') => (Pending, set_lockState l' d)
      end
  end.

(** [ifBootedAndAvailableDoWithSessionOrReject(userSession, done, action)].
    [isBooted] is the method of the subclass, answering [(err, booted)];
    [now] is [Date.now()]. *)
Definition ifBootedAndAvailableDoWithSessionOrReject {A : Type}
    (isBooted : Dev → option Error * bool * Dev)
    (userSession : Val) (now : Z)
    (action : Dev → Settled Error A * Dev) (d : Dev) : Settled Error A * Dev :=
  match instanceofDeviceSession userSession, session d with
  | true, Some r =>
      let '(_, called, st') := DeviceSession.compareAndValidate r userSession now (store d) in
      let d1 := set_store st' d in
      match called with
      | None => (Pending, d1)
      | Some isValid =>
          if negb (truthy isValid) then (Rejected INVALID_SESSION, d1)
          else
            match readLock (lockState d1) with
            | (LockErr e _, l') => (Rejected e, set_lockState l' d1)
            | (LockOk lk, l') =>
                let d2 := set_lockState l' d1 in
                if negb (locked lk) || bool_decide (pid lk = self_pid) then
                  match isBooted d2 with
                  | (Some e, _, d3) => (Rejected e, d3)
                  | (None, false, d3) => (Rejected DEVICE_NOT_BOOTED_ERROR, d3)
                  | (None, true, d3) => action d3
                  end
                else (Rejected DEVICE_IS_LOCKED_ERROR, d2)
            end
      end
  | _, _ => (Rejected INVALID_SESSION, d)
  end.

(** The guards let the action run: whatever the action, the guarded
    operation is the action on the device as the guards leave it. *)
Definition passes (isBooted : Dev → option Error * bool * Dev)
    (userSession : Val) (now : Z) (d d' : Dev) : Prop :=
  ∀ (A : Type) (action : Dev → Settled Error A * Dev),
    ifBootedAndAvailableDoWithSessionOrReject isBooted userSession now action d
    = action d'.

(** [startSession(done)].  [r] is the object [new DeviceSession()] creates,
    [tok] its token, [now] is [Date.now()] in its constructor.  [rotateTo]
    is [self.rotateTo] when the subclass defines one, called with the new
    session and [0]; its callback takes no notice of how the rotation
    went. *)
Definition startSession
    (rotateTo : option (Val → Val → Dev → Settled Error unit * Dev))
    (r : Ref) (tok : string) (now : Z) (cfg : option Z) (d : Dev)
  : Settled Error Ref * Dev :=
  match isLocked (lockState d) with
  | (Resolved true, l') => (Rejected DEVICE_IS_LOCKED_ERROR, set_lockState l' d)
  | (Resolved false, l') =>
      let d1 := set_lockState l' d in
      match session d1 with
      | Some _ =>
          (Rejected (NewError
             "Unable to start session, because another session is already started."),
           d1)
      | None =>
          let d2 := set_session (Some r)
                      (set_store (DeviceSession.new r tok now cfg (store d1)) d1) in
          match lock (lockState d2) with
          | (Resolved _, l2) =>
              let d3 := set_lockState l2 d2 in
              match rotateTo with
              | Some rotate =>
                  match rotate (VSession r) (VNum 0) d3 with
                  | (Resolved _, d4) => (Resolved r, d4)
                  | (Rejected _, d4) => (Resolved r, d4)
                  | (Pending, d4) => (Pending, d4)
                  | (Uncaught e, d4) => (Uncaught e, d4)
                  end
              | None => (Resolved r, d3)
              end
          | (Rejected e, l2) => (Rejected e, set_lockState l2 d2)
          | (Pending, l2) => (Pending, set_lockState l2 d2)
          | (Uncaught e, l2) => (Uncaught e, set_lockState l2 d2)
          end
      end
  | (Rejected e, l') => (Rejected e, set_lockState l' d)
  | (Pending, l') => (Pending, set_lockState l' d)
  | (Uncaught e, l') => (Uncaught e, set_lockState l' d)
  end.

(** [endSession(done)]: how the promise ends, the error [done] is called
    with ([None] for [null]), and the device.  With a session in the slot
    [session.validate()] runs in the first test, at time [now], and, when
    that is falsy, again in the second, at time [now']. *)
Definition endSession (now now' : Z) (d : Dev)
  : Settled Error unit * option Error * Dev :=
  match session d with
  | None => (Rejected (NotAnError VNull), Some INVALID_SESSION, d)
  | Some r =>
      let '(v1, st1) := DeviceSession.validate r now (store d) in
      let d1 := set_store st1 d in
      if truthy v1 then
        match unlock (lockState d1) with
        | (Resolved _, l') =>
            (Resolved tt, None,
             set_session None
               (set_store (DeviceSession.destroy r st1) (set_lockState l' d1)))
        | (Rejected e, l') => (Rejected e, Some e, set_lockState l' d1)
        | (Pending, l') => (Pending, None, set_lockState l' d1)
        | (Uncaught e, l') => (Uncaught e, None, set_lockState l' d1)
        end
      else
        let '(v2, st2) := DeviceSession.validate r now' st1 in
        let d2 := set_store st2 d in
        if negb (truthy v2) then
          let d3 := set_store (DeviceSession.destroy r st2) d2 in
          (Resolved tt, None,
           set_session None (set_lockState (unlock (lockState d3)).2 d3))
        else (Rejected (NotAnError (VSession r)), Some INVALID_SESSION, d2)
  end.

(** What the purges do to the file system. *)
Inductive FsOp :=
| Remove (path : string)      (* [fs.remove] *)
| Mkdirs (path : string).     (* [fs.mkdirs] *)

Definition clear_lockFile (l : Lock) : Lock :=
  {| lockFile := None; readError := readError l;
     writeError := writeError l; localLock := localLock l |}.

(** [self.localStorage] and [self.tempStorage]; the lock file lives in the
    former, and so does the latter. *)
Variable localStorage : string.
Variable tempStorage : string.

(** The common body of [purgeLocalStorage] and [purgeTempStorage].
    [removed] and [made] are the errors of [fs.remove] and [fs.mkdirs], if
    any.  [BaseDevice.DEVICE_BOOTED_ERROR] is defined nowhere, and [e] is
    never assigned: both rejections carry [undefined]. *)
Definition purge (target : string) (dropsLockFile : bool)
    (isBooted : Dev → option Error * bool * Dev)
    (removed made : option Error) (d : Dev)
  : Settled Error unit * list FsOp * Dev :=
  match isBooted d with
  | (Some _, _, d1) => (Rejected (NotAnError VUndefined), [], d1)
  | (None, true, d1) => (Rejected (NotAnError VUndefined), [], d1)
  | (None, false, d1) =>
      match isLocked (lockState d1) with
      | (Resolved true, l') =>
          (Rejected DEVICE_IS_LOCKED_ERROR, [], set_lockState l' d1)
      | (Resolved false, l') =>
          match removed with
          | Some e => (Rejected e, [Remove target], set_lockState l' d1)
          | None =>
              let l2 := if dropsLockFile then clear_lockFile l' else l' in
              match made with
              | Some e =>
                  (Rejected e, [Remove target; Mkdirs tempStorage], set_lockState l2 d1)
              | None =>
                  (Resolved tt, [Remove target; Mkdirs tempStorage], set_lockState l2 d1)
              end
          end
      | (Rejected e, l') => (Rejected e, [], set_lockState l' d1)
      | (Pending, l') => (Pending, [], set_lockState l' d1)
      | (Uncaught e, l') => (Uncaught e, [], set_lockState l' d1)
      end
  end.

Definition purgeLocalStorage := purge localStorage true.
Definition purgeTempStorage := purge tempStorage false.

End Process.

(** *** Driver classes *)

(** A module as [require] returns it: whether it is a function, its
    [name], and its own (static) properties. *)
Record Class := {
  isFunction : bool;
  className : option string;
  statics : gmap string Val
}.

(** [deviceClass[k]] *)
Definition get (c : Class) (k : string) : Val := from_option id VUndefined (statics c !! k).

Definition REQUIRED_STATIC_METHODS : list string :=
  ["getAllDevices"; "getAvailableDevices"; "getDevicesWithName"; "getDeviceWithId"].

Record Property := { type : string; name : string }.

Definition REQUIRED_STATIC_PROPERTIES : list Property :=
  [{| type := "string"; name := "PLATFORM" |}].

Definition missingMethod (c : Class) (m : string) : bool :=
  negb (truthy (get c m)) || negb (instanceofFunction (get c m)).

Definition missingProperty (c : Class) (p : Property) : bool :=
  bool_decide (get c (name p) = VUndefined)
  || negb (bool_decide (typeof (get c (name p)) ∈ split "|" (type p))).

(** [BaseDevice.deviceTypeIsValid]: [false] for a non-function, otherwise
    the array [missing]. *)
Definition deviceTypeIsValid (deviceClass : Class) : Val :=
  if negb (isFunction deviceClass) then VBool false
  else
    VArray
      (((λ m, "Method: " +:+ m) <$> filter (λ m, missingMethod deviceClass m = true)
                                      REQUIRED_STATIC_METHODS)
       ++ ((λ p, "Property: " +:+ name p) <$>
             filter (λ p, missingProperty deviceClass p = true)
               REQUIRED_STATIC_PROPERTIES)).

(** *** Device objects *)

(** A property of a device object: a function, the error object
    [BaseDevice.UNIMPLEMENTED_DEVICE_METHOD], or a plain value. *)
Inductive Member :=
| Method
| Unimplemented
| Field (v : Val).

#[global] Instance Member_eq_dec : EqDecision Member.
Proof. solve_decision. Defined.

Definition memberVal (m : option Member) : Val :=
  match m with
  | Some Method => VFunction
  | Some Unimplemented => VObject
  | Some (Field v) => v
  | None => VUndefined
  end.

(** An object: whether it is an [instanceof BaseDevice], and its own
    properties. *)
Record Device := {
  isBaseDevice : bool;
  members : gmap string Member
}.

Definition REQUIRED_METHODS : list string :=
  ["boot"; "shutdown"; "install"; "uninstall"; "getOrientation"; "isBooted";
   "isAvailable"; "isLocked"; "purgeLocalStorage"; "purgeTempStorage";
   "startSession"; "endSession"].

Definition REQUIRED_PROPERTIES : list Property :=
  [{| type := "string"; name := "os" |};
   {| type := "string"; name := "name" |};
   {| type := "string"; name := "id" |};
   {| type := "string"; name := "sdk" |};
   {| type := "string"; name := "type" |};
   {| type := "boolean"; name := "simulator" |};
   {| type := "number|string"; name := "density" |};
   {| type := "number|string"; name := "width" |};
   {| type := "number|string"; name := "height" |};
   {| type := "string"; name := "localStorage" |}].

Definition missingDeviceMethod (o : Device) (m : string) : bool :=
  negb (truthy (memberVal (members o !! m)))
  || negb (instanceofFunction (memberVal (members o !! m)))
  || bool_decide (members o !! m = Some Unimplemented).

Definition missingDeviceProperty (o : Device) (p : Property) : bool :=
  bool_decide (memberVal (members o !! name p) = VUndefined)
  || negb (bool_decide (typeof (memberVal (members o !! name p)) ∈ split "|" (type p))).

(** [BaseDevice.deviceIsValid]: [false] for an object that is no
    [BaseDevice], otherwise the array [missing]. *)
Definition deviceIsValid (device : Device) : Val :=
  if negb (isBaseDevice device) then VBool false
  else
    VArray
      (((λ m, "Method: " +:+ m) <$> filter (λ m, missingDeviceMethod device m = true)
                                      REQUIRED_METHODS)
       ++ ((λ p, "Property: " +:+ name p) <$>
             filter (λ p, missingDeviceProperty device p = true)
               REQUIRED_PROPERTIES)).

(** The constructor [BaseDevice(name, sdk, id, isSimulator, type)]: the
    properties it sets on [this], written over those already there.  [id]
    is a string here; with the empty string [self.id] is [null] and
    [self.id.md5] throws.  [storage] is [path.join(utils.USER_HOME,
    '.DeviceStorage', self.id.md5)]. *)
Definition construct (name sdk : Val) (id : string) (isSimulator type : Val)
    (storage : string) (this : gmap string Member) : Error + gmap string Member :=
  if negb (truthy (VStr id)) then inl (TypeError "Cannot read property 'md5' of null")
  else inr (
  <["isBooted" := Unimplemented]>
  (<["getOrientation" := Unimplemented]>
  (<["uninstall" := Unimplemented]>
  (<["install" := Unimplemented]>
  (<["shutdown" := Unimplemented]>
  (<["stopAutomationTesting" := Unimplemented]>
  (<["startAutomationTesting" := Unimplemented]>
  (<["boot" := Unimplemented]>
  (<["isAvailable" := Method]>
  (<["isLocked" := Method]>
  (<["ifBootedAndAvailableDoWithSessionOrReject" := Method]>
  (<["endSession" := Method]>
  (<["startSession" := Method]>
  (<["purgeTempStorage" := Method]>
  (<["purgeLocalStorage" := Method]>
  (<["toString" := Method]>
  (<["tempStorage" := Field (VStr (storage +:+ "/temp"))]>
  (<["localStorage" := Field (VStr storage)]>
  (<["height" := Field (VStr "Unknown")]>
  (<["width" := Field (VStr "Unknown")]>
  (<["density" := Field (VStr "Unknown")]>
  (<["type" := Field (or type (VStr "Unknown"))]>
  (<["simulator" := Field (or isSimulator VNull)]>
  (<["sdk" := Field (or sdk VNull)]>
  (<["id" := Field (or (VStr id) VNull)]>
  (<["name" := Field (or name VNull)]> this)))))))))))))))))))))))))).

End BaseDevice.

(** ** index.js *)

Module Index.
Import Js BaseDevice.

(** What [require(driverPath)] does: it throws, or it returns what the
    module exports, [null], [undefined] or any other value. *)
Inductive Required :=
| Throws (e : Error)
| ExportsNull
| ExportsUndefined
| Exports (c : Class).

(** What a driver does while its [getAvailableDevices] or [getAllDevices]
    is being called: the calls it makes to the callback before it
    returns, each with its [err] and, when [devices] is an array, that
    array, and the exception it throws, if any. *)
Record Call := {
  during : list (option Error * option (list Device));
  thrown : option Error
}.

(** The variables of one call of [discover]: [count], [deviceList], how
    the promise stands, and the array [done] was called with, if it was. *)
Record Progress := {
  count : nat;
  deviceList : list Device;
  promise : Settled Error (list (Device + string));
  calledBack : option (list (Device + string))
}.

Section Load.

(** [require(driverPath)] and [path.resolve(driverPath)]. *)
Variable require : string → Required.
Variable resolve : string → string.

(** The message of the TypeError the engine throws when what is called is
    no function. *)
Variable notAFunction : string.

(** [d.name ? 'Device class ' + d.name + ... : 'Device class at path ' +
    ...]: [className] is [d.name], a string, or [None] when [d] has no
    [name]; the empty string is not truthy. *)
Definition invalidDriver (driverPath : string) (d : Class) : Error :=
  NewError
    (match className d with
     | Some n =>
         if truthy (VStr n) then
           "Device class " +:+ n +:+ " (" +:+ resolve driverPath
           +:+ ") is invalid and missing required methods and/or properties."
         else
           "Device class at path " +:+ resolve driverPath
           +:+ " is invalid and missing required methods and/or properties."
     | None =>
         "Device class at path " +:+ resolve driverPath
         +:+ " is invalid and missing required methods and/or properties."
     end).

(** One round of [config.drivers.each]: register the driver or throw.
    [deviceTypeIsValid] of [null] or [undefined] is [false]; reading
    [d.name] for the message then throws. *)
Definition loadDriver (drivers : gmap string Class) (driverPath : string)
  : Error + gmap string Class :=
  match require driverPath with
  | Throws e => inl e
  | ExportsNull => inl (TypeError "Cannot read property 'name' of null")
  | ExportsUndefined => inl (TypeError "Cannot read property 'name' of undefined")
  | Exports d =>
      if truthy (deviceTypeIsValid d) then inr (<[driverPath := d]> drivers)
      else inl (invalidDriver driverPath d)
  end.

(** The loop over [config.drivers]; a throw ends it. *)
Fixpoint loadDrivers (drivers : gmap string Class) (paths : list string)
  : Error + gmap string Class :=
  match paths with
  | [] => inr drivers
  | p :: rest =>
      match loadDriver drivers p with
      | inl e => inl e
      | inr drivers' => loadDrivers drivers' rest
      end
  end.

(** [exports.discover(onlyReturnAvailable, getListOnly, done)]. *)

(** [deviceList.concat(devices || [])] under [!err && devices instanceof
    Array]. *)
Definition collect (deviceList : list Device)
    (answer : option Error * option (list Device)) : list Device :=
  match answer with
  | (None, Some devices) => deviceList ++ devices
  | _ => deviceList
  end.

Definition isValidDevice (d : Device) : bool :=
  bool_decide (deviceIsValid d = VArray []).

(** An argument that is no boolean gets its default. *)
Definition booleanOr (default : bool) (v : Val) : bool :=
  match v with VBool b => b | _ => default end.

(** [resolve] and [reject] change a pending promise only. *)
Definition settleWith (outcome : Settled Error (list (Device + string)))
    (s : Progress) : Progress :=
  {| count := count s; deviceList := deviceList s;
     promise := match promise s with Pending => outcome | settled => settled end;
     calledBack := calledBack s |}.

(** The callback handed to the drivers; [total] is [drivers.members()],
    [toString] is [d.toString()]. *)
Definition onAnswer (getListOnly : bool) (toString : Device → string) (total : nat)
    (s : Progress) (answer : option Error * option (list Device)) : Progress :=
  let deviceList' := collect (deviceList s) answer in
  if bool_decide (S (count s) = total) then
    let valid := (λ d, if getListOnly then inr (toString d) else inl d)
                   <$> filter (λ d, isValidDevice d = true) deviceList' in
    settleWith (Resolved valid)
      {| count := S (count s); deviceList := deviceList';
         promise := promise s; calledBack := Some valid |}
  else
    {| count := S (count s); deviceList := deviceList';
       promise := promise s; calledBack := calledBack s |}.

(** [drivers.each] inside the promise executor: [calls] are the registered
    drivers in the order they are visited, each with what its call does.
    A driver without the method makes the engine throw; an exception ends
    the loop and rejects the promise. *)
Fixpoint each (method : string) (getListOnly : bool) (toString : Device → string)
    (total : nat) (calls : list (Class * Call)) (s : Progress) : Progress :=
  match calls with
  | [] => s
  | (d, call) :: rest =>
      if instanceofFunction (get d method) then
        let s' := foldl (onAnswer getListOnly toString total) s (during call) in
        match thrown call with
        | Some e => settleWith (Rejected e) s'
        | None => each method getListOnly toString total rest s'
        end
      else settleWith (Rejected (TypeError notAFunction)) s
  end.

(** [discover]: [calls] are the registered drivers, so [total], the
    number of members of [drivers], is their number; [later] are the calls
    to the callback that come once the executor has returned, in the order
    they come.  The result is how the promise stands after them and what
    [done] was called with. *)
Definition discover (onlyReturnAvailable getListOnly : Val)
    (toString : Device → string)
    (calls : list (Class * Call))
    (later : list (option Error * option (list Device)))
  : Settled Error (list (Device + string)) * option (list (Device + string)) :=
  let total := length calls in
  let method := if booleanOr true onlyReturnAvailable then "getAvailableDevices"
                else "getAllDevices" in
  let getListOnly := booleanOr false getListOnly in
  let s := foldl (onAnswer getListOnly toString total)
             (each method getListOnly toString total calls
                {| count := 0; deviceList := []; promise := Pending;
                   calledBack := None |})
             later in
  (promise s, calledBack s).

End Load.

End Index.

(** ** Discovery walks: lib/iOS/index.js and lib/Android/index.js *)

Module Discovery.
Import Js.

(** The module-level variables of one kind of walk.  [R] is the cached
    listing, [W] names a caller: its [{ resolve, reject, done }] triple. *)
Record Walk (R W : Type) := {
  walking : bool;         (* WALKING_SIMS, ADB_RUNNING_WALKING *)
  last : Z;               (* LAST_SIM_WALK, ADB_RUNNING_LAST *)
  cache : R;              (* SIM_DEVICE_CACHE, ADB_RUNNING_CACHE *)
  queue : list W          (* SIM_DEVICE_QUEUE, ADB_RUNNING_QUEUE *)
}.
Arguments walking {R W} _.
Arguments last {R W} _.
Arguments cache {R W} _.
Arguments queue {R W} _.

(** What a request did before it returned. *)
Inductive Request (R : Type) :=
| StartedWalk (command : string)   (* enqueued the caller and ran [exec] *)
| Enqueued                         (* enqueued the caller only *)
| Cached (res : R).                (* resolved the caller with the cache *)
Arguments StartedWalk {R} command.
Arguments Enqueued {R}.
Arguments Cached {R} res.

(** Settle every queued caller with the same outcome and empty the queue. *)
Definition flush {R W : Type} (outcome : Settled Error R) (cache' : R) (st : Walk R W)
  : list (W * Settled Error R) * Walk R W :=
  ((λ o, (o, outcome)) <$> queue st,
   {| walking := false; last := last st; cache := cache'; queue := [] |}).

End Discovery.

Module iOSDevice.
Import Js Discovery.

Definition REFRESH_TIMEOUT : Z := 1000.

Section Simulators.

Context {R W : Type}.

(** The empty object [{}], and the effect of the loop over
    [PARSE_SIMULATOR_DEVICES] on the cache for a given [stdout]. *)
Variable emptyCache : R.
Variable parseSimulatorDevices : string → R → R.

(** [iOSDevice.getSimulatorDeviceStatuses], up to the call of [exec]. *)
Definition getSimulatorDeviceStatuses (now : Z) (caller : W) (st : Walk R W)
  : Request R * Walk R W :=
  if negb (walking st) || (REFRESH_TIMEOUT <? now - last st) then
    (StartedWalk "xcrun simctl list",
     {| walking := true; last := now; cache := emptyCache;
        queue := queue st ++ [caller] |})
  else if negb (walking st) then (Cached (cache st), st)
  else
    (Enqueued,
     {| walking := walking st; last := last st; cache := cache st;
        queue := queue st ++ [caller] |}).

(** The callback of [exec('xcrun simctl list', ...)]. *)
Definition simctlListed (r : ExecResult) (st : Walk R W)
  : list (W * Settled Error R) * Walk R W :=
  if errOrStderr r then flush (Rejected (errOrNewErrorStderr r)) (cache st) st
  else
    let cache' := parseSimulatorDevices (stdout r) (cache st) in
    flush (Resolved cache') cache' st.

End Simulators.

End iOSDevice.

Module AndroidDevice.
Import Js Discovery BaseDevice.

Definition ADB_RUNNING_TIMEOUT : Z := 3000.

Section Running.

Context {R W : Type}.
Variable emptyCache : R.
Variable ANDROID_SDK_ADB : string.

Definition ADB_GET_RUNNING_DEVICES : string := ANDROID_SDK_ADB +:+ " devices;".

(** [onServerKilled] inside [AndroidDevice.listRunningDevices], up to the
    call of [exec].  [listRunningDevices] runs it directly once [FIRST_RUN]
    is false. *)
Definition onServerKilled (now : Z) (caller : W) (st : Walk R W)
  : Request R * Walk R W :=
  if negb (walking st) || (ADB_RUNNING_TIMEOUT <? now - last st) then
    (StartedWalk ADB_GET_RUNNING_DEVICES,
     {| walking := true; last := now; cache := emptyCache;
        queue := queue st ++ [caller] |})
  else if negb (walking st) then (Cached (cache st), st)
  else
    (Enqueued,
     {| walking := walking st; last := last st; cache := cache st;
        queue := queue st ++ [caller] |}).

(** [executeQueue(err, res)]; the walk stores a successful listing in
    [ADB_RUNNING_CACHE] just before it calls [executeQueue(null, cache)]. *)
Definition executeQueue (err : option Error) (res : R) (st : Walk R W)
  : list (W * Settled Error R) * Walk R W :=
  match err with
  | Some e => flush (Rejected e) (cache st) st
  | None => flush (Resolved res) (cache st) st
  end.

Definition walkSucceeded (deviceObjects : R) (st : Walk R W)
  : list (W * Settled Error R) * Walk R W :=
  executeQueue None deviceObjects
    {| walking := walking st; last := last st; cache := deviceObjects;
       queue := queue st |}.

(** The callback of [exec(ADB_GET_RUNNING_DEVICES, ...)]; [serials] are the
    matches of [PARSE_DAEMON_LIST] in [stdout].  With serials to look at,
    six more commands run and [onTotal] ends the walk. *)
Definition adbDevicesListed (r : ExecResult) (serials : list string) (st : Walk R W)
  : option (list (W * Settled Error R) * Walk R W) :=
  if errOrStderr r then Some (executeQueue (Some (errOrNewErrorStderr r)) emptyCache st)
  else
    match serials with
    | [] => Some (executeQueue None emptyCache st)
    | _ :: _ => None
    end.

(** [onTotal]: [error] is set by any of the six commands that failed,
    [deviceObjects] is built from their output. *)
Definition onTotal (error : option Error) (deviceObjects : R) (st : Walk R W)
  : list (W * Settled Error R) * Walk R W :=
  match error with
  | Some e => executeQueue (Some e) emptyCache st
  | None => walkSucceeded deviceObjects st
  end.

End Running.

(** An entry of the listing of running devices. *)
Record RunningDevice := {
  rd_serial : string;
  rd_booted : bool
}.

(** [isBooted]: [listed] is what [listRunningDevices] answered, an error
    or the entry [avds[self.avdId]] when it is an object.  The properties
    it copies other than [serial] are not closure variables and are not
    part of [Dev].  Whether the listing ran [adb] for this call or was
    answered by a walk under way is decided in [onServerKilled]; the
    commands of the walk are not the device's and [execLog] does not get
    them. *)
Definition isBooted (listed : Error + option RunningDevice) (d : Dev)
  : option Error * bool * Dev :=
  let d0 := set_serial None d in
  match listed with
  | inl e => (Some e, false, d0)
  | inr (Some a) =>
      if rd_booted a then (None, true, set_serial (Some (rd_serial a)) d0)
      else (None, false, d0)
  | inr None => (None, false, d0)
  end.

Section Commands.

Variable ANDROID_SDK_ADB : string.
Variable process_pid : N.
Variable getProcessPathByPID : option Z → bool.

(** String concatenation with [self.serial], which may be [null]. *)
Definition str (s : option string) : string := from_option id "null" s.

Definition ADB_SET_ACCELEROMETER_ROTATION_OFF (serial : string) : string :=
  ANDROID_SDK_ADB +:+ " -s " +:+ serial
  +:+ " shell content insert --uri content://settings/system --bind name:s:accelerometer_rotation --bind value:i:0; ".

Definition ADB_SET_ORIENTATION_TO (serial : string) (rotation : Z) : string :=
  ADB_SET_ACCELEROMETER_ROTATION_OFF serial +:+ ANDROID_SDK_ADB +:+ " -s " +:+ serial
  +:+ " shell content insert --uri content://settings/system --bind name:s:user_rotation --bind value:i:"
  +:+ pretty rotation +:+ "; ".

Definition ADB_SHELL_INSTALL_APP (serial apk : string) : string :=
  ANDROID_SDK_ADB +:+ " -s " +:+ serial +:+ " install -r " +:+ apk +:+ "; ".

Definition ADB_SHELL_UNINSTALL_APP (serial apk : string) : string :=
  ANDROID_SDK_ADB +:+ " -s " +:+ serial +:+ " uninstall " +:+ apk +:+ "; ".

Definition ADB_SHELL_SET_DEVICE_PROP (serial property value : string) : string :=
  ANDROID_SDK_ADB +:+ " -s " +:+ serial +:+ " shell setprop " +:+ property
  +:+ " " +:+ value +:+ "; ".

Definition guarded {A : Type} (listed : Error + option RunningDevice) :=
  @ifBootedAndAvailableDoWithSessionOrReject process_pid getProcessPathByPID A
    (isBooted listed).

(** [rotateLeft(session, done)]; [r] is the answer of [exec]. *)
Definition rotateLeft (session : Val) (now : Z)
    (listed : Error + option RunningDevice) (r : ExecResult) (d : Dev)
  : Settled Error unit * Dev :=
  guarded listed session now (λ d,
    let oo := orientation d in
    let o1 := oo - 1 in
    let o2 := if o1 <? 0 then 3 else o1 in
    let d1 := exec (ADB_SET_ORIENTATION_TO (str (serial d)) o2) (set_orientation o2 d) in
    if errOrStderr r then (Rejected (errOrNewErrorStderr r), set_orientation oo d1)
    else (Resolved tt, d1)) d.

(** [rotateRight(session, done)] *)
Definition rotateRight (session : Val) (now : Z)
    (listed : Error + option RunningDevice) (r : ExecResult) (d : Dev)
  : Settled Error unit * Dev :=
  guarded listed session now (λ d,
    let oo := orientation d in
    let o1 := oo + 1 in
    let o2 := if 3 <? o1 then 0 else o1 in
    let d1 := exec (ADB_SET_ORIENTATION_TO (str (serial d)) o2) (set_orientation o2 d) in
    if errOrStderr r then (Rejected (errOrNewErrorStderr r), set_orientation oo d1)
    else (Resolved tt, d1)) d.

(** [install(session, apk, done)].  The command is built by
    [ADB_SHELL_INSTALL_APP(apk, self.serial)], arguments in that order;
    [typeof bundle] of the undeclared [bundle] is ["undefined"]. *)
Definition install (session : Val) (apk : Val) (now : Z)
    (listed : Error + option RunningDevice) (r : ExecResult) (d : Dev)
  : Settled Error string * Dev :=
  guarded listed session now (λ d,
    match apk with
    | VStr a =>
        let d1 := exec (ADB_SHELL_INSTALL_APP a (str (serial d))) d in
        if errOrStdout r then (Rejected (errOrNewErrorStderr r), d1)
        else (Resolved (stdout r), d1)
    | _ =>
        (Rejected (NewError
           "AndroidDevice.install expected argument #0 (bundle) to be a string, but got: undefined"), d)
    end) d.

(** [uninstall(session, apk, done)] *)
Definition uninstall (session : Val) (apk : Val) (now : Z)
    (listed : Error + option RunningDevice) (r : ExecResult) (d : Dev)
  : Settled Error string * Dev :=
  guarded listed session now (λ d,
    match apk with
    | VStr a =>
        let d1 := exec (ADB_SHELL_UNINSTALL_APP a (str (serial d))) d in
        if errOrStdout r then (Rejected (errOrNewErrorStderr r), d1)
        else (Resolved (stdout r), d1)
    | _ =>
        (Rejected (NewError
           "AndroidDevice.uninstall expected argument #0 (bundle) to be a string, but got: undefined"), d)
    end) d.

(** String coercion of the engine, as in ['Invalid orientation: ' +
    orientation]. *)
Variable toString : Val → string.

Definition ORIENTATIONS : list string :=
  ["portrait"; "landscape right"; "portrait upsidedown"; "landscape right"].

(** [array.indexOf(x)] *)
Fixpoint indexOf (x : string) (l : list string) : Z :=
  match l with
  | [] => -1
  | y :: rest =>
      if bool_decide (y = x) then 0
      else let i := indexOf x rest in if i <? 0 then -1 else i + 1
  end.

(** [rotateTo(session, orientation, done)].  The parameter [orientation]
    hides the closure variable of the same name.  No value has both types,
    so the last case of the [match] stands for nothing in the source. *)
Definition rotateTo (session orientation : Val) (now : Z)
    (listed : Error + option RunningDevice) (r : ExecResult) (d : Dev)
  : Settled Error unit * Dev :=
  guarded listed session now (λ d,
    if negb (bool_decide (typeof orientation = "string"))
       || negb (bool_decide (typeof orientation = "number")) then
      (Rejected (NewError ("Invalid orientation: " +:+ toString orientation)), d)
    else
      let run (o : Z) :=
        let o' := if (o <? 0) || (3 <? o) then 0 else o in
        let d1 := exec (ADB_SET_ORIENTATION_TO (str (serial d)) o') d in
        if errOrStderr r then (Rejected (errOrNewErrorStderr r), d1)
        else (Resolved tt, d1) in
      match orientation with
      | VStr s => run (indexOf s ORIENTATIONS)
      | VNum n => run n
      | _ => (Pending, d)
      end) d.

(** [SDK_COMMANDS.ADB_SEND_KEY_EVENTS(serial, keyEvents)]: a value that is
    no array stands for the array of itself; only strings add a command.
    The arrays of [Val] hold strings. *)
Definition ADB_SEND_KEY_EVENTS (serial : string) (keyEvents : Val) : string :=
  let one (k : string) :=
    ANDROID_SDK_ADB +:+ " -s " +:+ serial +:+ " shell input keyevent " +:+ k +:+ "; " in
  match keyEvents with
  | VArray ks => fold_left (λ cmd k, cmd +:+ one k) ks ""
  | VStr k => one k
  | _ => ""
  end.

(** [performKeyEvent(session, keyEvent, done)] *)
Definition performKeyEvent (session keyEvent : Val) (now : Z)
    (listed : Error + option RunningDevice) (r : ExecResult) (d : Dev)
  : Settled Error string * Dev :=
  guarded listed session now (λ d,
    let d1 := exec (ADB_SEND_KEY_EVENTS (str (serial d)) keyEvent) d in
    if errOrStderr r then (Rejected (errOrNewErrorStderr r), d1)
    else (Resolved (stdout r), d1)) d.

(** [getAvailableDevices(done)], the same text in lib/iOS/index.js:
    [all] answers [getAllDevices].  Each device is asked [isAvailable]; the
    callbacks that run are taken in the order of the list, and the one
    that brings [count] up to [total] resolves.  A call of [isAvailable]
    that ends otherwise never runs its callback. *)
Fixpoint eachIsAvailable (total count : nat) (available devices : list Dev)
  : Settled Error (list Dev) :=
  match devices with
  | [] => Pending
  | d :: rest =>
      match isAvailable process_pid getProcessPathByPID d with
      | (Resolved a, d') =>
          let available' := if a then (available ++ [d'])%list else available in
          if bool_decide (S count = total) then Resolved available'
          else eachIsAvailable total (S count) available' rest
      | _ => eachIsAvailable total count available rest
      end
  end.

Definition getAvailableDevices (all : Error + list Dev) : Settled Error (list Dev) :=
  match all with
  | inl e => Rejected e
  | inr devices => eachIsAvailable (length devices) 0 [] devices
  end.

End Commands.

(** [AndroidDevice.getUsedPorts] answers [findFirstAvailablePort] with an
    error or the ports in use. *)
Definition STARTING_PORT : Z := 5554.

(** [while(ports.indexOf(port) > -1) port += 2], at most [fuel] tests. *)
Fixpoint nextFree (fuel : nat) (ports : list Z) (port : Z) : option Z :=
  match fuel with
  | O => None
  | S fuel' =>
      if bool_decide (port ∈ ports) then nextFree fuel' ports (port + 2)
      else Some port
  end.

Definition findFirstAvailablePort (used : Error + list Z) : Settled Error Z :=
  match used with
  | inl e => Rejected e
  | inr ports =>
      match nextFree (S (length ports)) ports STARTING_PORT with
      | None => Pending
      | Some port =>
          if 5680 <? port then
            Rejected (NewError "Too many emulators ports in use — no available ports!")
          else Resolved port
      end
  end.

Definition WAIT_FOR_BOOT_TIMEOUT : Z := 180 * 1000.

(** [waitForDeviceToFinishBooting(serial, timeout, done)] for a string
    [serial], from the first [exec] on, that is once [listRunningDevices]
    has called back.  [start] is [Date.now()] at the call; each poll is
    what [exec] answered and [Date.now()] in its callback.  A trimmed
    output has no ['\r'] to replace unless it differs from ["1"] anyway.
    [timeout] is [None] when the argument is no number. *)
Fixpoint waitForBoot (start timeout : Z) (polls : list (ExecResult * Z))
  : Settled Error unit :=
  match polls with
  | [] => Pending
  | (r, now) :: rest =>
      if bool_decide (trim (stdout r) = "1") then Resolved tt
      else if now - start <? timeout then waitForBoot start timeout rest
      else Rejected (from_option id
                       (NewError "Device boot time has exceeded the boot timeout")
                       (err r))
  end.

Definition waitForDeviceToFinishBooting (timeout : option Z) (start : Z)
    (polls : list (ExecResult * Z)) : Settled Error unit :=
  waitForBoot start (from_option id WAIT_FOR_BOOT_TIMEOUT timeout) polls.

Definition AVD_DEVICES_TIMEOUT : Z := 3000.

Section Avds.

Context {R W : Type}.
Variable emptyCache : R.
Variable ANDROID_EMULATOR_HOME : string.

(** [getAvailableSimulators(done)] up to [fs.readdir]; [StartedWalk] names
    the directory it reads. *)
Definition getAvailableSimulators (now : Z) (caller : W) (st : Walk R W)
  : Request R * Walk R W :=
  if negb (walking st) || (AVD_DEVICES_TIMEOUT <? now - last st) then
    (StartedWalk ANDROID_EMULATOR_HOME,
     {| walking := true; last := now; cache := emptyCache;
        queue := queue st ++ [caller] |})
  else if negb (walking st) then (Cached (cache st), st)
  else
    (Enqueued,
     {| walking := walking st; last := last st; cache := cache st;
        queue := queue st ++ [caller] |}).

(** What a queued caller gets: how its promise is settled, and the
    arguments [(err, emulators)] of its callback. *)
Definition Answer : Type := W * Settled Error R * (option Error * option R).

(** The callback of [fs.readdir] with an error. *)
Definition readdirFailed (e : Error) (st : Walk R W) : list Answer * Walk R W :=
  ((λ o, (o, Rejected e, (Some e, None))) <$> queue st,
   {| walking := false; last := last st; cache := cache st; queue := [] |}).

(** [incrementAndCheckTotal]: [emulators] is the object the walk has built
    so far.  It is handed to [o.reject] and to the callback. *)
Definition incrementAndCheckTotal (total inspected : nat) (emulators : R)
    (st : Walk R W) : nat * list Answer * Walk R W :=
  if bool_decide (S inspected = total) then
    (S inspected,
     (λ o, (o, Rejected (NotAnError VObject), (None, Some emulators))) <$> queue st,
     {| walking := false; last := last st; cache := emulators; queue := [] |})
  else (S inspected, [], st).

(** The callback of [fs.readdir] without an error.  Every file ends in one
    call of [incrementAndCheckTotal]; [files] gives, for each file in the
    order these calls come, the object [emulators] at that moment. *)
Fixpoint inspectFiles (total inspected : nat) (files : list R) (st : Walk R W)
  : list Answer * Walk R W :=
  match files with
  | [] => ([], st)
  | emulators :: rest =>
      let '(inspected', answers, st') :=
        incrementAndCheckTotal total inspected emulators st in
      let '(answers', st'') := inspectFiles total inspected' rest st' in
      ((answers ++ answers')%list, st'')
  end.

Definition readdirListed (files : list R) (st : Walk R W) : list Answer * Walk R W :=
  inspectFiles (length files) 0 files st.

End Avds.

(** The constructor [AndroidDevice]: [BaseDevice] applied to the same
    arguments, then the properties of its own. *)
Definition construct (name sdk : Val) (id : string) (isSimulator type : Val)
    (storage : string) (this : gmap string Member) : Error + gmap string Member :=
  match BaseDevice.construct name sdk id isSimulator type storage this with
  | inl e => inl e
  | inr this' =>
      inr (<["getOrientation" := Method]>
          (<["launch" := Method]>
          (<["uninstall" := Method]>
          (<["install" := Method]>
          (<["performKeyEvent" := Method]>
          (<["restart" := Method]>
          (<["rotateRight" := Method]>
          (<["rotateTo" := Method]>
          (<["rotateLeft" := Method]>
          (<["isBooted" := Method]>
          (<["os" := Field (VStr "Android")]> this')))))))))))
  end.

(** [new PhysicalDevice(d.id.replace(/_/g, ' '), null, d.id.md5, false,
    'Android')] in [getAllDevices].  [PhysicalDevice] is
    [require(__dirname, 'Physical')]; the class [AndroidPhysicalDevice] and
    the module of the directory itself both build the object with the
    constructor [AndroidDevice]. *)
Definition newPhysicalDevice (name md5 storage : string) : Error + Device :=
  match construct (VStr name) VNull md5 (VBool false) (VStr "Android") storage ∅ with
  | inl e => inl e
  | inr this => inr {| isBaseDevice := true; members := this |}
  end.

End AndroidDevice.

(** ** Booting: lib/Android/Emulator.js and the iOS simulator class *)

Module Boot.
Import Js.

(** [boot] suspends while the device comes up.  A call has either settled
    by then, or it has spawned the emulator and waits. *)
Inductive Phase (A : Type) :=
| Done (r : Settled Error A)
| Waiting (a : A).
Arguments Done {A} r.
Arguments Waiting {A} a.

(** [isBooting[id]] as a condition. *)
Definition booting (isBooting : gmap string bool) (id : string) : bool :=
  bool_decide (isBooting !! id = Some true).

Fixpoint join (sep : string) (l : list string) : string :=
  match l with
  | [] => ""
  | [x] => x
  | x :: rest => x +:+ sep +:+ join sep rest
  end.

End Boot.

Module AndroidEmulatorDevice.
Import Js BaseDevice Boot.

Section Emulator.

Variable ANDROID_SDK_ADB : string.
Variable EMULATOR_EXECUTABLE : string.
Variable process_pid : N.
Variable getProcessPathByPID : option Z → bool.

(** In Emulator.js [Device] is bound by [require(__dirname, 'BaseDevice')].
    The values of [Device.DEVICE_NOT_READY_ERROR],
    [Device.DEVICE_ALREADY_BOOTED_ERROR] and [Device.DEVICE_IS_LOCKED_ERROR]
    there are taken as given. *)
Variable Device_DEVICE_NOT_READY_ERROR : Error.
Variable Device_DEVICE_ALREADY_BOOTED_ERROR : Error.
Variable Device_DEVICE_IS_LOCKED_ERROR : Error.

(** [self.id] and [self.avdId] *)
Variable self_id : string.
Variable avdId : string.

(** One round of [options.each]: the [switch] on the key. *)
Definition optionArgs (k : string) (o : Val) : list string :=
  if bool_decide (k = "gpu") then
    ["-gpu"; if bool_decide (o = VStr "off") then "off" else "on"]
  else if bool_decide (k = "wipe") then ["-wipe-data"]
  else if bool_decide (k = "netspeed") then
    match o with
    | VStr v => if truthy o then ["-netspeed"; v] else []
    | _ => []
    end
  else if bool_decide (k = "proxy") then
    match o with
    | VStr v => if truthy o then ["-http-proxy"; v] else []
    | _ => []
    end
  else [].

(** [options], [None] when the argument is not an object. *)
Definition defaulted (options : option (list (string * Val))) : list (string * Val) :=
  from_option id [("gpu", VStr "on"); ("netspeed", VStr "full")] options.

Definition emulatorArgs (options : option (list (string * Val))) (port : Z) : list string :=
  ["-avd"; avdId; "-port"; pretty port]
  ++ concat ((λ ko, optionArgs ko.1 ko.2) <$> defaulted options).

(** [boot(options, done)] up to [waitForDeviceToFinishBooting]: [listed]
    answers [isBooted], [port] answers [findFirstAvailablePort].  A
    waiting call carries the port of the emulator it spawned. *)
Definition bootStart (options : option (list (string * Val)))
    (listed : Error + option AndroidDevice.RunningDevice) (port : Error + Z)
    (isBooting : gmap string bool) (d : Dev)
  : Phase Z * gmap string bool * Dev :=
  match isLocked process_pid getProcessPathByPID (lockState d) with
  | (Resolved false, l') =>
      let '(err, booted, d1) := AndroidDevice.isBooted listed (set_lockState l' d) in
      if bool_decide (is_Some err) || negb booted then
        let isBooting' := <[self_id := true]> isBooting in
        match port with
        | inl e => (Done (Rejected e), isBooting', d1)
        | inr p =>
            (Waiting p, isBooting',
             exec (join " " (EMULATOR_EXECUTABLE :: emulatorArgs options p)) d1)
        end
      else
        (Done (Rejected (if booting isBooting self_id then Device_DEVICE_NOT_READY_ERROR
                         else Device_DEVICE_ALREADY_BOOTED_ERROR)),
         isBooting, d1)
  | (Resolved true, l') =>
      (Done (Rejected Device_DEVICE_IS_LOCKED_ERROR), isBooting, set_lockState l' d)
  | (Rejected e, l') => (Done (Rejected e), isBooting, set_lockState l' d)
  | (Uncaught e, l') => (Done (Uncaught e), isBooting, set_lockState l' d)
  | (Pending, l') => (Done Pending, isBooting, set_lockState l' d)
  end.

(** The rest of [boot]: [waited] answers [waitForDeviceToFinishBooting],
    [setprop] the [exec] that names the emulator, [listed] the second
    [isBooted]. *)
Definition bootFinish (port : Z) (waited : option Error) (setprop : ExecResult)
    (listed : Error + option AndroidDevice.RunningDevice)
    (isBooting : gmap string bool) (d : Dev)
  : Settled Error unit * gmap string bool * Dev :=
  match waited with
  | Some e => (Rejected e, isBooting, d)
  | None =>
      let d1 :=
        exec (AndroidDevice.ADB_SHELL_SET_DEVICE_PROP ANDROID_SDK_ADB
                ("emulator-" +:+ pretty port) "persist.sys.avd_name" avdId) d in
      if errOrStderr setprop then (Rejected (errOrNewErrorStderr setprop), isBooting, d1)
      else
        let '(err, booted, d2) := AndroidDevice.isBooted listed d1 in
        let isBooting' := <[self_id := false]> isBooting in
        if bool_decide (is_Some err) || negb booted then
          (Rejected (from_option id (NewError "Failed to boot device!") err),
           isBooting', d2)
        else (Resolved tt, isBooting', d2)
  end.

(** [lockScreen(session, done)] and [pressHomeKey(session, done)]: the
    action calls [self.performKeyEvent(key, callback)], so the key takes
    the place of the session and the callback that of the key event.
    [now'], [listed'] and [r'] answer that inner call. *)
Definition pressKey (key : string) (session : Val) (now : Z)
    (listed : Error + option AndroidDevice.RunningDevice)
    (now' : Z) (listed' : Error + option AndroidDevice.RunningDevice)
    (r' : ExecResult) (d : Dev) : Settled Error unit * Dev :=
  AndroidDevice.guarded process_pid getProcessPathByPID listed session now (λ d,
    match AndroidDevice.performKeyEvent ANDROID_SDK_ADB process_pid
            getProcessPathByPID (VStr key) VFunction now' listed' r' d with
    | (Resolved _, d') => (Resolved tt, d')
    | (Rejected e, d') => (Rejected e, d')
    | (Pending, d') => (Pending, d')
    | (Uncaught e, d') => (Uncaught e, d')
    end) d.

Definition lockScreen := pressKey "KEYCODE_POWER".

(** [pressHomeKey] returns nothing; this is what its callback sees. *)
Definition pressHomeKey := pressKey "KEYCODE_HOME".

(** The constructor [AndroidEmulatorDevice]. *)
Definition construct (name sdk : Val) (id : string) (isSimulator type : Val)
    (storage : string) (this : gmap string Member) : Error + gmap string Member :=
  match AndroidDevice.construct name sdk id isSimulator type storage this with
  | inl e => inl e
  | inr this' =>
      inr (<["pressHomeKey" := Method]>
          (<["lockScreen" := Method]>
          (<["boot" := Method]>
          (<["shutdown" := Method]>
          (<["erase" := Method]> this')))))
  end.

(** [generateEmulatorObjectFromIni] for a device that is not in
    [Device.DEVICES] yet, followed by the assignment of [emu.sdk] and
    [emu.apiLevel] in [getAvailableSimulators].  [name] and [id] are the
    captures of [avd.ini.displayname] and [AvdId], [None] without a match;
    [sdk] is the capture of [target=.*:.*:(\d+)]. *)
Definition generateEmulatorObjectFromIni (name id : option string) (storage : string)
  : option (Error + Device) :=
  match name, id with
  | Some name, Some avdId =>
      if truthy (and (VStr name) (VStr avdId)) then
        Some (match construct (VStr name) VNull avdId (VBool true) VUndefined storage ∅ with
              | inl e => inl e
              | inr this =>
                  inr {| isBaseDevice := true;
                         members := <["avdId" := Field (VStr avdId)]> this |}
              end)
      else None
  | _, _ => None
  end.

Definition setSdk (sdk : option string) (emu : Device) : Device :=
  match sdk with
  | Some v =>
      {| isBaseDevice := isBaseDevice emu;
         members := <["sdk" := Field (VStr v)]>
                      (<["apiLevel" := Field (VStr v)]> (members emu)) |}
  | None => emu
  end.

End Emulator.

End AndroidEmulatorDevice.

(** ** Orientation *)

Module Orientation.

(** [orientation--; if(orientation < 0) orientation = 3] and
    [orientation++; if(orientation > 3) orientation = 0]. *)
Definition stepDown (o : Z) : Z := if o - 1 <? 0 then 3 else o - 1.
Definition stepUp (o : Z) : Z := if 3 <? o + 1 then 0 else o + 1.

End Orientation.

Module iOSSimulatorDevice.
Import Js BaseDevice Boot.

Definition dquote : string := String (ascii_of_nat 34) EmptyString.

(** [isBooted]: [listed] is what [getSimulatorDeviceStatuses] answered, an
    error or the [status] of the entry [devices[self.udid]].  The
    [xcrun simctl list] of that walk is not part of [execLog]. *)
Definition isBooted (listed : Error + option bool) (d : Dev)
  : option Error * bool * Dev :=
  match listed with
  | inl e => (Some e, false, d)
  | inr None => (None, false, d)
  | inr (Some status) => (None, status, d)
  end.

(** [executeJXACommand(command, done)]: the command it runs, and the first
    argument its callback receives.  On failure it calls
    [done.call(err || new Error(stderr))], which passes no argument; on
    success [done.call(iOSDevice, stdout)], which passes [stdout]. *)
Definition osascript (command : string) : string :=
  "osascript -l JavaScript -e " +:+ dquote +:+ command +:+ dquote.

Definition executeJXACommand (r : ExecResult) : Val :=
  if errOrStderr r then VUndefined else VStr (stdout r).

Definition menuClick (item : string) : string :=
  "Application('System Events').applicationProcesses.whose({ unixId: ' + self.pid + ' }).menuBars.at(0).menuBarItems.byName('Hardware').menus.byName('Hardware').menuItems.byName('"
  +:+ item +:+ "').click();".

Section Simulator.

Variable process_pid : N.
Variable getProcessPathByPID : option Z → bool.

(** The values of [iOSDevice.DEVICE_NOT_READY_ERROR] and
    [iOSDevice.DEVICE_ALREADY_BOOTED_ERROR] in this module, taken as given. *)
Variable iOSDevice_DEVICE_NOT_READY_ERROR : Error.
Variable iOSDevice_DEVICE_ALREADY_BOOTED_ERROR : Error.

(** [self.udid] *)
Variable udid : string.

Definition guarded {A : Type} (listed : Error + option bool) :=
  @ifBootedAndAvailableDoWithSessionOrReject process_pid getProcessPathByPID A
    (isBooted listed).

(** [rotateLeft(session, done)]; [r] is the answer of the [exec] inside
    [executeJXACommand], [err] the argument its callback receives. *)
Definition rotateLeft (session : Val) (now : Z) (listed : Error + option bool)
    (r : ExecResult) (d : Dev) : Settled Error unit * Dev :=
  guarded listed session now (λ d,
    let d1 := exec (osascript (menuClick "Rotate Left")) d in
    let err := executeJXACommand r in
    let o1 := if negb (truthy err) then orientation d1 - 1 else orientation d1 in
    let o2 := if o1 <? 0 then 3 else o1 in
    let d2 := set_orientation o2 d1 in
    if truthy err then (Rejected (NotAnError err), d2) else (Resolved tt, d2)) d.

(** [rotateRight(session, done)] *)
Definition rotateRight (session : Val) (now : Z) (listed : Error + option bool)
    (r : ExecResult) (d : Dev) : Settled Error unit * Dev :=
  guarded listed session now (λ d,
    let d1 := exec (osascript (menuClick "Rotate Right")) d in
    let err := executeJXACommand r in
    let o1 := if negb (truthy err) then orientation d1 + 1 else orientation d1 in
    let o2 := if 3 <? o1 then 0 else o1 in
    let d2 := set_orientation o2 d1 in
    if truthy err then (Rejected (NotAnError err), d2) else (Resolved tt, d2)) d.

Definition focus : string :=
  "osascript -l AppleScript -e 'tell application 'System Events'' -e 'set frontmost of the first process whose unix id is ' + self.pid + ' to true' -e 'end tell'".

(** [boot(done)] up to [waitForBoot]: [listed] answers [isBooted], [xcode]
    answers [getXCodePath], [mapped] answers [mapUDIDSToRunningSimulators]
    with an error or the entry [mapping[self.udid]]. *)
Definition bootStart (listed : Error + option bool) (xcode : Error + string)
    (mapped : Error + option string)
    (isBooting : gmap string bool) (d : Dev)
  : Phase unit * gmap string bool * Dev :=
  let '(_, booted, d1) := isBooted listed d in
  if negb booted && negb (booting isBooting udid) then
    let isBooting' := <[udid := true]> isBooting in
    match xcode with
    | inl e => (Done (Rejected e), isBooting', d1)
    | inr xcodePath =>
        (Waiting tt, isBooting',
         exec (join " " [xcodePath +:+ "/Applications/Simulator.app/Contents/MacOS/Simulator";
                         "-CurrentDeviceUDID"; udid]) d1)
    end
  else
    match mapped with
    | inl e => (Done (Rejected e), isBooting, d1)
    | inr (Some _) => (Done (Resolved tt), <[udid := false]> isBooting, exec focus d1)
    | inr None =>
        (Done (Rejected (if booting isBooting udid then iOSDevice_DEVICE_NOT_READY_ERROR
                         else iOSDevice_DEVICE_ALREADY_BOOTED_ERROR)),
         isBooting, d1)
    end.

(** The rest of [boot]: [waited] is the error [waitForBoot] calls back
    with, if any. *)
Definition bootFinish (waited : option Error)
    (isBooting : gmap string bool) (d : Dev)
  : Settled Error unit * gmap string bool * Dev :=
  match waited with
  | Some e => (Rejected e, isBooting, d)
  | None => (Resolved tt, <[udid := false]> isBooting, exec focus d)
  end.

(** [waitForBoot(attempts, done, attempt)]: [polls] answer the calls of
    [isBooted], one second apart.  The result is what [done] is called
    with, [None] while it has not been called. *)
Fixpoint waitForBoot (attempts attempt : nat) (polls : list (Error + option bool))
    (d : Dev) : option (option Error * bool) :=
  match polls with
  | [] => None
  | listed :: rest =>
      let '(err, booted, _) := isBooted listed d in
      if (attempt <? attempts)%nat then
        if negb (bool_decide (is_Some err)) && booted then Some (None, true)
        else waitForBoot attempts (S attempt) rest d
      else Some (err, false)
  end.

(** [boot] from [waitForBoot(10, ...)] on. *)
Definition bootWait (polls : list (Error + option bool))
    (isBooting : gmap string bool) (d : Dev)
  : Settled Error unit * gmap string bool * Dev :=
  match waitForBoot 10 0 polls d with
  | None => (Pending, isBooting, d)
  | Some (err, _) => bootFinish err isBooting d
  end.

End Simulator.

End iOSSimulatorDevice.

(** ** Sample values *)

Module Examples.
Import Js BaseDevice.

Definition token0 : string := "9e107d9d372bb6826bd81d3542a419d6".

(** A store with one session, created at time 1000 with the default
    timeout. *)
Definition session0 : DeviceSession.Store :=
  DeviceSession.new 0%nat token0 1000 None DeviceSession.empty.

(** Process 4242; processes 77 and 4242 are alive. *)
Definition alive (p : option Z) : bool :=
  bool_decide (p = Some 77) || bool_decide (p = Some 4242).

Definition disk (contents : string) : Lock :=
  {| lockFile := Some contents; readError := None; writeError := None;
     localLock := false |}.

(** A device in a session, holding its lock. *)
Definition device0 : Dev :=
  {| session := Some 0%nat;
     lockState := set_localLock true (disk "1.4242");
     store := session0;
     orientation := 0;
     serial := Some "emulator-5554";
     execLog := [] |}.

(** The same device once the guards have passed at time 2000. *)
Definition device0_cleared : Dev :=
  set_store (DeviceSession.touch 0%nat 2000 session0) device0.

(** A new device: no session, no lock file yet. *)
Definition device1 : Dev :=
  {| session := None;
     lockState := {| lockFile := None; readError := None; writeError := None;
                     localLock := false |};
     store := DeviceSession.empty;
     orientation := 0;
     serial := None;
     execLog := [] |}.

(** The module variable [isBooting] while the emulator Nexus_5 boots, and
    [device1] once its first [boot] has spawned the emulator on port 5554. *)
Definition booting_Nexus_5 : gmap string bool := <["Nexus_5" := true]> ∅.

Definition device1_booting : Dev :=
  exec "emulator -avd Nexus_5 -port 5554 -gpu on -netspeed full"
    (set_lockState (set_lockFile "0.4242" (lockState device1)) device1).

Definition failed : ExecResult :=
  {| err := Some (External "1"); stdout := ""; stderr := "execution error" |}.

Definition chatty : ExecResult :=
  {| err := None; stdout := "Success"; stderr := "" |}.

Definition silent : ExecResult :=
  {| err := None; stdout := ""; stderr := "" |}.

End Examples.

(* ================================================================== *)
(** * Theorems *)
(* ================================================================== *)

(** ** Sessions *)

Section SessionFacts.
Import Js DeviceSession.

Lemma truthy_and a b : truthy (and a b) = truthy a && truthy b.
Proof. unfold and. destruct (truthy a) eqn:E; simpl; auto. Qed.

Lemma truthy_tokenVal tok :
  truthy (tokenVal tok) = true ↔ ∃ s, tok = Some s ∧ s ≠ "".
Proof.
  destruct tok as [s|]; simpl.
  - rewrite negb_true_iff. split.
    + intros H. exists s. split; [done|]. intros ->. discriminate.
    + intros (s' & [= <-] & Hne). apply String.eqb_neq. done.
  - split; [discriminate|]. intros (? & ? & ?). discriminate.
Qed.

Lemma truthy_lookupVal m k :
  truthy (lookupVal m k) = true ↔ ∃ r, m !! k = Some (Some r).
Proof.
  unfold lookupVal. destruct (m !! k) as [[r|]|]; simpl; split;
    try discriminate; eauto; intros [? ?]; discriminate.
Qed.

(** What makes [isValid] truthy, read off the expression. *)
Lemma truthy_isValid s now st :
  truthy (isValid s now st) = true ↔
  now - lastUsed s < timeout s ∧
  ∃ tok, token s = Some tok ∧ tok ≠ "" ∧ ∃ r, sessions st !! tok = Some (Some r).
Proof.
  unfold isValid. rewrite !truthy_and, !andb_true_iff. simpl.
  rewrite bool_decide_eq_true, truthy_tokenVal, truthy_lookupVal. split.
  - intros [[Hlt (tok & Htok & Hne)] [r Hr]]. split; [done|].
    exists tok. rewrite Htok in Hr. simpl in Hr. eauto.
  - intros [Hlt (tok & Htok & Hne & r & Hr)]. repeat split; eauto.
    exists r. rewrite Htok. done.
Qed.

Lemma store_ok_empty : store_ok empty.
Proof. intros r s tok H. simpl in H. rewrite lookup_empty in H. discriminate. Qed.

Lemma store_ok_touch r now st : store_ok st → store_ok (touch r now st).
Proof.
  intros Hok. unfold touch. destruct (objects st !! r) as [s|] eqn:E; [|done].
  intros r' s' tok; simpl. destruct (decide (r = r')) as [<-|Hne].
  - rewrite lookup_insert_eq. intros [= <-]; simpl. eauto.
  - rewrite lookup_insert_ne by done. eauto.
Qed.

Lemma store_ok_destroy r st : store_ok st → store_ok (destroy r st).
Proof.
  intros Hok. unfold destroy. destruct (objects st !! r) as [s|] eqn:E; [|done].
  intros r' s' tok; simpl. destruct (decide (r = r')) as [<-|Hne].
  - rewrite lookup_insert_eq. intros [= <-]; simpl. discriminate.
  - rewrite lookup_insert_ne by done. intros Hs' Htok.
    destruct (Hok _ _ _ Hs' Htok) as [Hne' Huniq]. split; [done|].
    intros r''. destruct (decide (tok = "null")) as [->|Hk].
    + rewrite lookup_delete_eq. discriminate.
    + rewrite lookup_delete_ne, lookup_insert_ne by done. auto.
Qed.

Lemma store_ok_validate r now st : store_ok st → store_ok (validate r now st).2.
Proof.
  intros Hok. unfold validate. destruct (objects st !! r) as [s|]; [|done].
  simpl. destruct (truthy _); simpl; auto using store_ok_touch, store_ok_destroy.
Qed.

(** A new session keeps the store well formed when its token is a fresh
    non-empty string and its object is new. *)
Lemma store_ok_new r tok now cfg st :
  store_ok st → tok ≠ "" → objects st !! r = None →
  (∀ r' s', objects st !! r' = Some s' → token s' ≠ Some tok) →
  store_ok (new r tok now cfg st).
Proof.
  intros Hok Hne Hfresh Huniq r' s' tok'; simpl.
  destruct (decide (r = r')) as [<-|Hr].
  - rewrite lookup_insert_eq. intros [= <-]; simpl. intros [= <-].
    split; [done|]. intros r''. rewrite lookup_insert_eq. congruence.
  - rewrite lookup_insert_ne by done. intros Hs' Htok.
    destruct (Hok _ _ _ Hs' Htok) as [Hne' Hu]. split; [done|].
    intros r''. destruct (decide (tok = tok')) as [<-|Ht].
    + exfalso. eapply Huniq; eauto.
    + rewrite lookup_insert_ne by done. auto.
Qed.

(** Once destroyed, a session never validates again. *)
Lemma validate_after_destroy r st now :
  truthy (validate r now (destroy r st)).1 = false.
Proof.
  unfold validate, destroy. destruct (objects st !! r) as [s|] eqn:E; simpl.
  - rewrite lookup_insert_eq. simpl.
    destruct (truthy (isValid _ _ _)) eqn:Hv; simpl; [|done].
    apply truthy_isValid in Hv as [_ (tok & Htok & _)]. discriminate.
  - rewrite E. done.
Qed.

Lemma destroy_idempotent r st : destroy r (destroy r st) = destroy r st.
Proof.
  unfold destroy. destruct (objects st !! r) as [s|] eqn:E; simpl.
  - rewrite lookup_insert_eq. simpl. f_equal.
    + apply map_eq. intros k. destruct (decide (k = "null")) as [->|Hk].
      * by rewrite !lookup_delete_eq.
      * by rewrite !lookup_delete_ne, !lookup_insert_ne, !lookup_delete_ne,
                   !lookup_insert_ne by done.
    + by rewrite insert_insert_eq.
  - by rewrite E.
Qed.

End SessionFacts.

Section SessionClaims.
Import Js DeviceSession Examples.

(** C2.  [validate] is truthy exactly when the session is registered in the
    store under its token and [now - lastUsed < timeout].  A truthy result
    refreshes [lastUsed] to [now] and leaves the store as it was; a falsy
    result has exactly the effect of [destroy].  Hence a session whose age
    has reached its timeout validates false, is destroyed (its token is
    [null]) and validates false at every later time. *)
Theorem validate_iff_registered_and_fresh (r : Ref) (s : t) (now : Z) (st : Store) :
  store_ok st →
  objects st !! r = Some s →
  let v := (validate r now st).1 in
  let st' := (validate r now st).2 in
  (truthy v = true ↔ registered st r ∧ now - lastUsed s < timeout s) ∧
  (truthy v = true →
     sessions st' = sessions st ∧
     objects st' = <[r := {| token := token s; lastUsed := now;
                             timeout := timeout s |}]> (objects st)) ∧
  (truthy v = false → st' = destroy r st) ∧
  (timeout s ≤ now - lastUsed s →
     truthy v = false ∧ st' = destroy r st ∧ getToken r st' = VNull ∧
     ∀ later, truthy (validate r later st').1 = false).
Proof.
  intros Hok Hs v st'.
  assert (Hiff : truthy v = true ↔ registered st r ∧ now - lastUsed s < timeout s).
  { subst v. unfold validate. rewrite Hs. simpl.
    assert ((if truthy (isValid s now st)
             then (isValid s now st, touch r now st)
             else (isValid s now st, destroy r st)).1
            = isValid s now st) as -> by (destruct (truthy _); done).
    rewrite truthy_isValid. split.
    - intros [Hlt (tok & Htok & Hne & r' & Hr')]. split; [|done].
      destruct (Hok _ _ _ Hs Htok) as [_ Hu]. rewrite (Hu _ Hr') in Hr'.
      exists s, tok. done.
    - intros [(s1 & tok & Hs1 & Htok & Hreg) Hlt]. split; [done|].
      rewrite Hs in Hs1. injection Hs1 as <-.
      destruct (Hok _ _ _ Hs Htok) as [Hne _]. exists tok. eauto. }
  assert (Hfalse : truthy v = false → st' = destroy r st).
  { subst v st'. unfold validate. rewrite Hs. simpl.
    destruct (truthy (isValid s now st)) eqn:E; simpl; [congruence|done]. }
  split; [exact Hiff|]. split; [|split; [exact Hfalse|]].
  - subst v st'. unfold validate. rewrite Hs. simpl.
    destruct (truthy (isValid s now st)) eqn:E; simpl; [|congruence].
    intros _. unfold touch. rewrite Hs. done.
  - intros Hold.
    assert (Hv : truthy v = false).
    { destruct (truthy v) eqn:E; [|done].
      destruct (proj1 Hiff eq_refl) as [_ ?]. lia. }
    split; [done|]. rewrite (Hfalse Hv). split; [done|]. split.
    + unfold getToken, destroy. rewrite Hs. simpl. by rewrite lookup_insert_eq.
    + intros later. apply validate_after_destroy.
Qed.

Lemma store_ok_session0 : store_ok session0.
Proof.
  apply store_ok_new; [apply store_ok_empty|done|done|].
  intros r' s' H. simpl in H. rewrite lookup_empty in H. discriminate.
Qed.

(** The theorem at a one-session store: used within the timeout, and used
    once the timeout (five minutes) has gone by. *)
Lemma validate_iff_registered_and_fresh_witness :
  store_ok session0 ∧
  truthy (validate 0%nat 2000 session0).1 = true ∧
  truthy (validate 0%nat 301000 session0).1 = false ∧
  (validate 0%nat 301000 session0).2 = destroy 0%nat session0.
Proof.
  pose proof (validate_iff_registered_and_fresh 0%nat
    {| token := Some token0; lastUsed := 1000;
       timeout := DEFAULT_TIMEOUT |} 2000 session0 store_ok_session0 eq_refl) as H1.
  pose proof (validate_iff_registered_and_fresh 0%nat
    {| token := Some token0; lastUsed := 1000;
       timeout := DEFAULT_TIMEOUT |} 301000 session0 store_ok_session0 eq_refl) as H2.
  simpl in H1, H2.
  split; [exact store_ok_session0|]. split.
  - apply H1. split; [|unfold DEFAULT_TIMEOUT; lia].
    eexists _, _. split; [reflexivity|]. split; reflexivity.
  - destruct H2 as (_ & _ & _ & H2). unfold DEFAULT_TIMEOUT in H2.
    destruct H2 as (Hv & Hd & _); [lia|]. split; assumption.
Defined.

(** C7 (the code departs from the claim here).  For a session created
    with token [tok] and then destroyed, [getSessionByToken tok] still
    returns the session, not [null]: [destroy] clears [token] before it
    uses it as the key, so the key it deletes is ["null"].  The rest of
    the claim holds: the session has no token any more, never validates
    again, and a second [destroy] changes nothing. *)
Theorem destroy_keeps_registry_entry (r : Ref) (tok : string) (now : Z)
    (cfg : option Z) (st : Store) :
  tok ≠ "null" →
  let st2 := destroy r (new r tok now cfg st) in
  getSessionByToken tok st2 = VSession r ∧
  getToken r st2 = VNull ∧
  (∀ later, truthy (validate r later st2).1 = false) ∧
  destroy r st2 = st2.
Proof.
  intros Hk st2. repeat split.
  - subst st2. unfold getSessionByToken, lookupVal, destroy, new. simpl.
    rewrite lookup_insert_eq. simpl.
    rewrite lookup_delete_ne, lookup_insert_ne, lookup_insert_eq by done. done.
  - subst st2. unfold getToken, destroy, new. simpl.
    rewrite lookup_insert_eq. simpl. by rewrite lookup_insert_eq.
  - intros later. apply validate_after_destroy.
  - apply destroy_idempotent.
Qed.

Lemma destroy_keeps_registry_entry_witness :
  getSessionByToken token0 (destroy 0%nat session0) = VSession 0%nat.
Proof.
  refine (proj1 (destroy_keeps_registry_entry 0%nat
    token0 1000 None empty _)).
  intros H. discriminate H.
Defined.

End SessionClaims.

(** ** The lock file *)

Section LockFacts.
Import Js BaseDevice.

Lemma is_nat_pretty_N_char (d : N) :
  (d < 10)%N → Ascii.is_nat (pretty_N_char d) = Some (N.to_nat d).
Proof.
  intros H.
  assert (d = 0 ∨ d = 1 ∨ d = 2 ∨ d = 3 ∨ d = 4 ∨ d = 5 ∨ d = 6 ∨ d = 7
          ∨ d = 8 ∨ d = 9)%N as Hd by lia.
  repeat destruct Hd as [->|Hd]; try reflexivity. subst. reflexivity.
Qed.

Lemma digits_pretty_N_go (x : N) : ∀ s, digits s = true → digits (pretty_N_go x s) = true.
Proof.
  induction (N.lt_wf_0 x) as [x _ IH]. intros s Hs.
  destruct (decide (x = 0)%N) as [->|Hx]; [by rewrite pretty_N_go_0|].
  rewrite pretty_N_go_step by lia. apply IH.
  - apply N.div_lt; lia.
  - simpl. rewrite is_nat_pretty_N_char by (apply N.mod_lt; lia).
    rewrite Hs. reflexivity.
Qed.

Lemma digits_pretty (n : N) : digits (pretty n) = true.
Proof.
  unfold pretty, pretty_N. case_decide; [reflexivity|].
  by apply digits_pretty_N_go.
Qed.

Lemma digit_not_space c : is_Some (Ascii.is_nat c) → Ascii.is_space c = false.
Proof.
  destruct c as [[] [] [] [] [] [] [] []]; simpl; intros [? H];
    try discriminate H; reflexivity.
Qed.

Lemma digit_not_sep c (sep : ascii) :
  is_Some (Ascii.is_nat c) → Ascii.is_nat sep = None → Ascii.eqb c sep = false.
Proof.
  intros [d Hd] Hsep. apply Ascii.eqb_neq. intros ->. congruence.
Qed.

Lemma rtrim_digits s : digits s = true → rtrim s = s.
Proof.
  induction s as [|c s IH]; [done|]. simpl.
  intros [Hc Hs]%andb_true_iff. apply bool_decide_eq_true in Hc.
  rewrite (IH Hs), (digit_not_space c Hc). by destruct s.
Qed.

Lemma split_digits (sep : ascii) s :
  Ascii.is_nat sep = None → digits s = true → split sep s = [s].
Proof.
  intros Hsep. induction s as [|c s IH]; [done|]. simpl.
  intros [Hc Hs]%andb_true_iff. apply bool_decide_eq_true in Hc.
  by rewrite (digit_not_sep c sep Hc Hsep), (IH Hs).
Qed.

(** Reading back the digits [pretty_N_go] has put in front of [s]. *)
Lemma read_digits_pretty_N_go (x : N) :
  (0 < x)%N →
  ∃ k, ∀ acc s,
    read_digits acc (pretty_N_go x s)
    = read_digits (Some (k * from_option id 0 acc + Z.of_N x)) s.
Proof.
  induction (N.lt_wf_0 x) as [x _ IH]. intros Hx.
  destruct (decide (x < 10)%N) as [Hlt|Hge].
  - exists 10. intros acc s. rewrite pretty_N_go_step by done.
    rewrite (N.div_small x 10), (N.mod_small x 10), pretty_N_go_0 by done.
    simpl. rewrite is_nat_pretty_N_char by done. by rewrite N_nat_Z.
  - destruct (IH (x `div` 10)%N) as [k Hk].
    { apply N.div_lt; lia. }
    { apply N.div_str_pos; lia. }
    exists (10 * k). intros acc s. rewrite pretty_N_go_step by done.
    rewrite Hk. simpl. rewrite is_nat_pretty_N_char by (apply N.mod_lt; lia).
    do 2 f_equal. rewrite N_nat_Z.
    rewrite (N.div_mod x 10) at 3 by lia. rewrite N2Z.inj_add, N2Z.inj_mul. lia.
Qed.

Lemma read_digits_pretty (n : N) : read_digits None (pretty n) = Some (Z.of_N n).
Proof.
  unfold pretty, pretty_N. case_decide as Hn; [by subst|].
  destruct (read_digits_pretty_N_go n) as [k Hk]; [lia|].
  rewrite Hk. simpl. f_equal. lia.
Qed.

Lemma parseInt_pretty (n : N) : parseInt (Some (pretty n)) = Some (Z.of_N n).
Proof.
  pose proof (digits_pretty n) as Hd. pose proof (read_digits_pretty n) as Hr.
  unfold parseInt. destruct (pretty n) as [|c s] eqn:E; [discriminate Hr|].
  simpl in Hd. apply andb_true_iff in Hd as [Hc Hs].
  apply bool_decide_eq_true in Hc.
  simpl ltrim. rewrite (digit_not_space c Hc).
  rewrite !(digit_not_sep c) by done. exact Hr.
Qed.

Lemma rtrim_cons c s :
  Ascii.is_space c = false → rtrim (String c s) = String c (rtrim s).
Proof. intros H. simpl. rewrite H. by destruct (rtrim s). Qed.

Lemma written_eq (c : ascii) (s : string) :
  String c "" +:+ "." +:+ s = String c (String "." s).
Proof. reflexivity. Qed.

(** The file this code writes reads back as it was written. *)
Lemma parseStatus_written (flag : string) (n : N) :
  flag = "0" ∨ flag = "1" →
  parseStatus (flag +:+ "." +:+ pretty n)
  = {| locked := if bool_decide (flag = "0") then false else true;
       pid := Some (Z.of_N n) |}.
Proof.
  intros Hflag. pose proof (digits_pretty n) as Hd.
  unfold parseStatus, trim.
  destruct Hflag as [-> | ->]; rewrite written_eq; simpl ltrim;
    rewrite !rtrim_cons, (rtrim_digits _ Hd) by reflexivity;
    simpl split; rewrite (split_digits "." _ eq_refl Hd);
    simpl lookup; rewrite parseInt_pretty; reflexivity.
Qed.

End LockFacts.

Section LockClaims.
Import Js BaseDevice.

Variable process_pid : N.
Variable getProcessPathByPID : option Z → bool.

Local Abbreviation lock := (lock process_pid getProcessPathByPID).
Local Abbreviation readLock := (readLock process_pid getProcessPathByPID).
Local Abbreviation writeLock := (writeLock process_pid getProcessPathByPID).
Local Abbreviation self_pid := (self_pid process_pid).
Local Abbreviation lockedByOther := (lockedByOther process_pid).

Lemma writeFile_ok contents l :
  writeError l = None → writeFile contents l = (None, set_lockFile contents l).
Proof. intros H. unfold writeFile. by rewrite H. Qed.

Lemma lockedByOther_self b : lockedByOther {| locked := b; pid := self_pid |} = false.
Proof.
  unfold BaseDevice.lockedByOther. simpl.
  rewrite bool_decide_eq_true_2 by done. apply andb_false_r.
Qed.

(** The four ways [readLock] ends without an error. *)
Lemma readLock_local l :
  localLock l = true → readLock l = (LockOk {| locked := true; pid := self_pid |}, l).
Proof. intros H. unfold BaseDevice.readLock. by rewrite H. Qed.

Lemma readLock_free l contents :
  localLock l = false → readError l = None → lockFile l = Some contents →
  lockedByOther (parseStatus contents) = false →
  readLock l = (LockOk (parseStatus contents), l).
Proof. intros H1 H2 H3 H4. unfold BaseDevice.readLock. by rewrite H1, H2, H3, H4. Qed.

Lemma readLock_held l contents :
  localLock l = false → readError l = None → lockFile l = Some contents →
  lockedByOther (parseStatus contents) = true →
  getProcessPathByPID (pid (parseStatus contents)) = true →
  readLock l = (LockOk (parseStatus contents), l).
Proof.
  intros H1 H2 H3 H4 H5. unfold BaseDevice.readLock. by rewrite H1, H2, H3, H4, H5.
Qed.

Lemma readLock_stale l contents :
  localLock l = false → readError l = None → writeError l = None →
  lockFile l = Some contents →
  lockedByOther (parseStatus contents) = true →
  getProcessPathByPID (pid (parseStatus contents)) = false →
  readLock l = (LockOk {| locked := false; pid := self_pid |},
                set_lockFile ("0." +:+ pretty process_pid) l).
Proof.
  intros H1 H2 Hw H3 H4 H5. unfold BaseDevice.readLock.
  by rewrite H1, H2, H3, H4, H5, writeFile_ok.
Qed.

(** [writeLock] after a [readLock] that found the lock free or ours. *)
Lemma writeLock_writes lk l status l1 :
  readLock l = (LockOk status, l1) → lockedByOther status = false →
  writeError l1 = None →
  writeLock lk l
  = (None, set_lockFile ((if lk then "1" else "0") +:+ "." +:+ pretty process_pid)
             (set_localLock lk l1)).
Proof.
  intros Hr Ht Hw. unfold BaseDevice.writeLock. rewrite Hr, Ht.
  by rewrite writeFile_ok.
Qed.

(** [readLock] never touches the flag nor the health of the file system,
    and when it leaves the flag unset it says so. *)
Lemma readLock_frame l :
  localLock (readLock l).2 = localLock l ∧
  writeError (readLock l).2 = writeError l.
Proof.
  unfold BaseDevice.readLock, writeFile.
  repeat case_match; simplify_eq; simpl; auto.
Qed.

(** The flag and the file stay in step through [lock] and [unlock] as long
    as writing the file does not fail; they are in step in a new device,
    whose flag is unset. *)
Lemma lock_consistent_writeLock (lk : bool) (l : Lock) :
  writeError l = None → lock_consistent process_pid l →
  lock_consistent process_pid (writeLock lk l).2.
Proof.
  intros Hw Hc. destruct (readLock_frame l) as [Hfl Hfw].
  unfold BaseDevice.writeLock.
  destruct (BaseDevice.readLock process_pid getProcessPathByPID l)
    as [[status|e v] l1] eqn:Hrl; simpl in *.
  - destruct (lockedByOther status) eqn:Ht; simpl.
    + intros Hl1. rewrite Hfl in Hl1. specialize (Hc Hl1).
      revert Hrl. unfold BaseDevice.readLock. rewrite Hl1.
      intros [= <- <-]. done.
    + rewrite writeFile_ok by (simpl; congruence).
      intros Hl. simpl in Hl. subst lk. done.
  - intros Hl1. rewrite Hfl in Hl1.
    revert Hrl. unfold BaseDevice.readLock. rewrite Hl1. discriminate.
Qed.

(** C3.  With a file system that answers without errors: when the pid
    recorded in the lock file denotes no live process, [lock] succeeds
    and leaves the file reading ["1.<pid of this process>"]; when the file
    already reads so, [lock] succeeds and leaves the file as it is; when
    the file records a lock held by another pid that is alive, [lock] is
    rejected with the error "Device is locked by another process ..." and
    changes nothing. *)
Theorem lock_by_recorded_holder (l : Lock) (contents : string) :
  readError l = None →
  writeError l = None →
  lockFile l = Some contents →
  let status := parseStatus contents in
  let acquired := "1." +:+ pretty process_pid in
  (getProcessPathByPID (pid status) = false →
     ∃ l', lock l = (Resolved tt, l') ∧ lockFile l' = Some acquired) ∧
  (contents = acquired →
     ∃ l', lock l = (Resolved tt, l') ∧ lockFile l' = lockFile l) ∧
  (lock_consistent process_pid l →
   locked status = true → pid status ≠ self_pid →
   getProcessPathByPID (pid status) = true →
     lock l = (Rejected (NewError
       "Device is locked by another process, unable to write to lock file."), l)).
Proof.
  intros Hr Hw Hf status acquired.
  assert (Hp : parseStatus acquired = {| locked := true; pid := self_pid |}).
  { exact (parseStatus_written "1" process_pid (or_intror eq_refl)). }
  assert (Hlocal : localLock l = true →
            ∃ l', lock l = (Resolved tt, l') ∧ lockFile l' = Some acquired).
  { intros Hl. unfold BaseDevice.lock.
    rewrite (writeLock_writes true l _ l (readLock_local l Hl)
               (lockedByOther_self _) Hw).
    simpl. eauto. }
  split; [|split].
  - intros Hdead. destruct (localLock l) eqn:Hl; [by apply Hlocal|].
    unfold BaseDevice.lock. destruct (lockedByOther status) eqn:Ht.
    + rewrite (writeLock_writes true l _ _
                 (readLock_stale l contents Hl Hr Hw Hf Ht Hdead)
                 (lockedByOther_self _) Hw).
      simpl. eauto.
    + rewrite (writeLock_writes true l _ _
                 (readLock_free l contents Hl Hr Hf Ht) Ht Hw).
      simpl. eauto.
  - intros ->. rewrite Hf.
    destruct (localLock l) eqn:Hl; [by apply Hlocal|].
    assert (Ht : lockedByOther (parseStatus acquired) = false).
    { rewrite Hp. apply lockedByOther_self. }
    unfold BaseDevice.lock.
    rewrite (writeLock_writes true l _ _
               (readLock_free l acquired Hl Hr Hf Ht) Ht Hw).
    simpl. eauto.
  - intros Hc Hlocked Hother Halive.
    assert (Hl : localLock l = false).
    { destruct (localLock l) eqn:Hl; [|done]. exfalso.
      specialize (Hc Hl). rewrite Hf in Hc. injection Hc as ->.
      apply Hother. exact (f_equal pid Hp). }
    assert (Ht : lockedByOther status = true).
    { unfold BaseDevice.lockedByOther. rewrite Hlocked. simpl.
      apply negb_true_iff. by apply bool_decide_eq_false. }
    unfold BaseDevice.lock, BaseDevice.writeLock.
    rewrite (readLock_held l contents) by done. fold status. by rewrite Ht.
Qed.

End LockClaims.

(** The theorem for process 4242, with 77 alive and 999 dead. *)
Lemma lock_by_recorded_holder_witness :
  (∃ l', BaseDevice.lock 4242 Examples.alive (Examples.disk "1.999") = (Js.Resolved tt, l')
         ∧ BaseDevice.lockFile l' = Some "1.4242") ∧
  (∃ l', BaseDevice.lock 4242 Examples.alive (Examples.disk "1.4242") = (Js.Resolved tt, l')
         ∧ BaseDevice.lockFile l' = Some "1.4242") ∧
  BaseDevice.lock 4242 Examples.alive (Examples.disk "1.77")
  = (Js.Rejected (Js.NewError
       "Device is locked by another process, unable to write to lock file."),
     Examples.disk "1.77").
Proof.
  split; [|split].
  - apply (lock_by_recorded_holder 4242 Examples.alive (Examples.disk "1.999") "1.999"
             eq_refl eq_refl eq_refl). reflexivity.
  - apply (lock_by_recorded_holder 4242 Examples.alive (Examples.disk "1.4242") "1.4242"
             eq_refl eq_refl eq_refl). reflexivity.
  - apply (lock_by_recorded_holder 4242 Examples.alive (Examples.disk "1.77") "1.77"
             eq_refl eq_refl eq_refl).
    + intros H. discriminate H.
    + reflexivity.
    + intros H. discriminate H.
    + reflexivity.
Defined.

(** ** The session guard and [isAvailable] *)

Section GuardClaims.
Import Js BaseDevice.

Variable process_pid : N.
Variable getProcessPathByPID : option Z → bool.

Context {A : Type}.
Variable isBooted : Dev → option Error * bool * Dev.
Variable action : Dev → Settled Error A * Dev.

Local Abbreviation guard :=
  (ifBootedAndAvailableDoWithSessionOrReject process_pid getProcessPathByPID
     isBooted).

Lemma set_store_same d : set_store (store d) d = d.
Proof. by destruct d. Qed.

(** The part of claim C1 the code keeps: a value that is no session, a
    device without a session, and the device's own session failing
    [validate] are all rejected with [INVALID_SESSION]; nothing is run and
    the device's own variables stay as they were. *)
Lemma invalid_session_is_rejected (userSession : Val) (now : Z) (d : Dev) :
  instanceofDeviceSession userSession = false
  ∨ session d = None
  ∨ (∃ r, session d = Some r ∧ userSession = VSession r ∧
          truthy (DeviceSession.validate r now (store d)).1 = false) →
  ∃ d', guard userSession now action d = (Rejected INVALID_SESSION, d') ∧
        execLog d' = execLog d ∧ session d' = session d ∧
        lockState d' = lockState d ∧ orientation d' = orientation d ∧
        serial d' = serial d.
Proof.
  unfold ifBootedAndAvailableDoWithSessionOrReject.
  intros [H | [H | (r & Hs & -> & Hv)]].
  - rewrite H. eauto 10.
  - rewrite H. destruct (instanceofDeviceSession userSession); eauto 10.
  - rewrite Hs. simpl. unfold DeviceSession.compareAndValidate, DeviceSession.compare.
    rewrite bool_decide_eq_true_2 by done.
    destruct (DeviceSession.validate r now (store d)) as [v st'] eqn:E.
    simpl in Hv. rewrite Hv. simpl. eauto 10.
Qed.

(** C1 (the code departs from the claim here).  When the device has a
    session and the caller passes another session object, the operation
    is not rejected: [compareAndValidate] returns [false] without calling
    its callback, so the promise stays pending for ever.  Nothing is run
    and nothing changes. *)
Theorem other_session_object_never_settles (r r' : Ref) (now : Z) (d : Dev) :
  session d = Some r →
  r' ≠ r →
  guard (VSession r') now action d = (Pending, d).
Proof.
  intros Hs Hne. unfold ifBootedAndAvailableDoWithSessionOrReject.
  rewrite Hs. simpl. unfold DeviceSession.compareAndValidate, DeviceSession.compare.
  rewrite bool_decide_eq_false_2 by congruence.
  by rewrite set_store_same.
Qed.

(** C9 (the code departs from the claim here).  On a device whose session
    slot is [null], [isAvailable] does not resolve to the negation of
    [isLocked]: reading [session.started] throws, the promise is rejected
    with a [TypeError] and the callback is never called. *)
Theorem isAvailable_without_session_rejects (d : Dev) :
  session d = None →
  isAvailable process_pid getProcessPathByPID d
  = (Rejected (TypeError "Cannot read property 'started' of null"), d).
Proof. intros H. unfold isAvailable. by rewrite H. Qed.

(** With a session in the slot the test [session.started === true] is
    false, and [isAvailable] answers the negation of [isLocked]: a device
    with an active session whose lock is free counts as available. *)
Lemma isAvailable_with_session (r : Ref) (d : Dev) (b : bool) (l' : Lock) :
  session d = Some r →
  isLocked process_pid getProcessPathByPID (lockState d) = (Resolved b, l') →
  isAvailable process_pid getProcessPathByPID d = (Resolved (negb b), set_lockState l' d).
Proof. intros Hs Hl. unfold isAvailable. rewrite Hs, Hl. by destruct b. Qed.

End GuardClaims.

(** [install] on Android called with a session object that is not the
    device's: nothing is run and the call never settles. *)
Lemma other_session_object_never_settles_witness :
  AndroidDevice.install "adb" 4242 Examples.alive (Js.VSession 1%nat)
    (Js.VStr "/tmp/app.apk") 2000 (inr None) Examples.silent Examples.device0
  = (Js.Pending, Examples.device0).
Proof.
  apply (other_session_object_never_settles 4242 Examples.alive
           (AndroidDevice.isBooted (inr None)) _ 0%nat 1%nat 2000
           Examples.device0 eq_refl).
  intros H. discriminate H.
Defined.

Lemma isAvailable_without_session_rejects_witness :
  BaseDevice.isAvailable 4242 Examples.alive Examples.device1
  = (Js.Rejected (Js.TypeError "Cannot read property 'started' of null"),
     Examples.device1).
Proof.
  exact (isAvailable_without_session_rejects 4242 Examples.alive Examples.device1 eq_refl).
Defined.

(** ** Loading drivers *)

Section DriverClaims.
Import Js BaseDevice Index.

Variable require : string → Required.
Variable resolve : string → string.

Lemma truthy_deviceTypeIsValid (c : Class) :
  truthy (deviceTypeIsValid c) = isFunction c.
Proof. unfold deviceTypeIsValid. by destruct (isFunction c). Qed.

(** A module that is not a function is turned down. *)
Lemma non_function_is_rejected (drivers : gmap string Class) (driverPath : string)
    (d : Class) :
  require driverPath = Exports d → isFunction d = false →
  loadDriver require resolve drivers driverPath
  = inl (invalidDriver resolve driverPath d).
Proof. intros Hd H. unfold loadDriver. by rewrite Hd, truthy_deviceTypeIsValid, H. Qed.

(** C6 (the code departs from the claim here).  Every driver module that
    is a function is added to the driver map, whatever static methods and
    properties it lacks: [deviceTypeIsValid] returns the array of missing
    names, and an array is truthy even when it is not empty. *)
Theorem any_function_is_registered (drivers : gmap string Class) (driverPath : string)
    (d : Class) :
  require driverPath = Exports d → isFunction d = true →
  loadDriver require resolve drivers driverPath
  = inr (<[driverPath := d]> drivers).
Proof. intros Hd H. unfold loadDriver. by rewrite Hd, truthy_deviceTypeIsValid, H. Qed.

End DriverClaims.

(** A class with no static member at all: all five names are reported
    missing, and the driver is registered all the same. *)
Lemma any_function_is_registered_witness :
  let bare := {| BaseDevice.isFunction := true; BaseDevice.className := Some "Bare";
                 BaseDevice.statics := ∅ |} in
  BaseDevice.deviceTypeIsValid bare
  = Js.VArray ["Method: getAllDevices"; "Method: getAvailableDevices";
               "Method: getDevicesWithName"; "Method: getDeviceWithId";
               "Property: PLATFORM"] ∧
  Index.loadDriver (λ _, Index.Exports bare) (λ p, p) ∅ "./drivers/bare"
  = inr (<["./drivers/bare" := bare]> ∅).
Proof.
  intros bare. split; [reflexivity|].
  exact (any_function_is_registered (λ _, Index.Exports bare) (λ p, p) ∅
           "./drivers/bare" bare eq_refl eq_refl).
Defined.

(** ** Discovery *)

Section DiscoveryClaims.
Import Js Discovery.

Context {R W : Type}.
Variable emptyCache : R.
Variable parseSimulatorDevices : string → R → R.
Variable ANDROID_SDK_ADB : string.

Lemma flush_same (outcome : Settled Error R) (c : R) (st : Walk R W) (o : W) :
  o ∈ queue st → (o, outcome) ∈ (flush outcome c st).1.
Proof. intros H. simpl. apply list_elem_of_fmap. eauto. Qed.

(** The part of the single-flight scheme the code keeps.  The time to live
    is 1000 ms for the listing of iOS simulators and 3000 ms for the adb
    listing of running Android devices.  A request made while a walk is in
    flight and no later than that after the walk started enqueues the
    caller and runs no subprocess; when the walk completes, every queued
    caller, the one who started the walk and this one, is settled with the
    same outcome. *)
Lemma request_during_walk_is_enqueued (st : Walk R W) (now : Z) (caller : W) :
  walking st = true →
  (iOSDevice.REFRESH_TIMEOUT = 1000 ∧ AndroidDevice.ADB_RUNNING_TIMEOUT = 3000) ∧
  (now - last st ≤ 1000 →
     let st' := {| walking := true; last := last st; cache := cache st;
                   queue := queue st ++ [caller] |} in
     iOSDevice.getSimulatorDeviceStatuses emptyCache now caller st = (Enqueued, st') ∧
     ∀ r, ∃ outcome,
       (iOSDevice.simctlListed parseSimulatorDevices r st').1
       = (λ o, (o, outcome)) <$> (queue st ++ [caller])%list) ∧
  (now - last st ≤ 3000 →
     let st' := {| walking := true; last := last st; cache := cache st;
                   queue := queue st ++ [caller] |} in
     AndroidDevice.onServerKilled emptyCache ANDROID_SDK_ADB now caller st
     = (Enqueued, st') ∧
     ∀ err res, ∃ outcome,
       (AndroidDevice.executeQueue err res st').1
       = (λ o, (o, outcome)) <$> (queue st ++ [caller])%list).
Proof.
  intros Hw. split; [done|]. split.
  - intros Hfresh. split.
    + unfold iOSDevice.getSimulatorDeviceStatuses, iOSDevice.REFRESH_TIMEOUT.
      rewrite Hw. simpl. destruct (Z.ltb_spec 1000 (now - last st)); [lia|done].
    + intros r. unfold iOSDevice.simctlListed.
      destruct (errOrStderr r); eexists; reflexivity.
  - intros Hfresh. split.
    + unfold AndroidDevice.onServerKilled, AndroidDevice.ADB_RUNNING_TIMEOUT.
      rewrite Hw. simpl. destruct (Z.ltb_spec 3000 (now - last st)); [lia|done].
    + intros err res. unfold AndroidDevice.executeQueue.
      destruct err; eexists; reflexivity.
Qed.

(** The branch that answers from the cache is never taken: it sits under
    the negation of a test that holds whenever no walk is in flight. *)
Lemma cache_is_never_returned (st : Walk R W) (now : Z) (caller : W) (res : R) :
  (iOSDevice.getSimulatorDeviceStatuses emptyCache now caller st).1 ≠ Cached res ∧
  (AndroidDevice.onServerKilled emptyCache ANDROID_SDK_ADB now caller st).1 ≠ Cached res.
Proof.
  unfold iOSDevice.getSimulatorDeviceStatuses, AndroidDevice.onServerKilled.
  destruct (walking st); simpl; split;
    try discriminate; by destruct (_ <? _).
Qed.

(** With no walk in flight every request starts one, however fresh the
    cache. *)
Lemma idle_request_starts_walk (st : Walk R W) (now : Z) (caller : W) :
  walking st = false →
  (iOSDevice.getSimulatorDeviceStatuses emptyCache now caller st).1
  = StartedWalk "xcrun simctl list" ∧
  (AndroidDevice.onServerKilled emptyCache ANDROID_SDK_ADB now caller st).1
  = StartedWalk (AndroidDevice.ADB_GET_RUNNING_DEVICES ANDROID_SDK_ADB).
Proof.
  intros H. unfold iOSDevice.getSimulatorDeviceStatuses, AndroidDevice.onServerKilled.
  by rewrite H.
Qed.

(** C4 (the code departs from the claim here).  The test that starts a
    walk is [!WALKING || now - last > ttl]: it holds whenever no walk is in
    flight.  So a request made with no walk in flight starts a new
    subprocess walk, empties the cache and enqueues the caller, however
    fresh the cache is; the branch that would answer from the cache is
    never reached.  By the same test a request made during a walk that
    began more than the time to live ago starts a second walk beside
    it. *)
Theorem fresh_cache_starts_a_walk (st : Walk R W) (now : Z) (caller : W) :
  let walk := {| walking := true; last := now; cache := emptyCache;
                 queue := queue st ++ [caller] |} in
  (walking st = false →
     iOSDevice.getSimulatorDeviceStatuses emptyCache now caller st
     = (StartedWalk "xcrun simctl list", walk) ∧
     AndroidDevice.onServerKilled emptyCache ANDROID_SDK_ADB now caller st
     = (StartedWalk (AndroidDevice.ADB_GET_RUNNING_DEVICES ANDROID_SDK_ADB), walk)) ∧
  (walking st = true → iOSDevice.REFRESH_TIMEOUT < now - last st →
     iOSDevice.getSimulatorDeviceStatuses emptyCache now caller st
     = (StartedWalk "xcrun simctl list", walk)) ∧
  (walking st = true → AndroidDevice.ADB_RUNNING_TIMEOUT < now - last st →
     AndroidDevice.onServerKilled emptyCache ANDROID_SDK_ADB now caller st
     = (StartedWalk (AndroidDevice.ADB_GET_RUNNING_DEVICES ANDROID_SDK_ADB), walk)) ∧
  (∀ res,
     (iOSDevice.getSimulatorDeviceStatuses emptyCache now caller st).1 ≠ Cached res ∧
     (AndroidDevice.onServerKilled emptyCache ANDROID_SDK_ADB now caller st).1
     ≠ Cached res).
Proof.
  intros walk. split; [|split; [|split]].
  - intros Hw.
    unfold iOSDevice.getSimulatorDeviceStatuses, AndroidDevice.onServerKilled.
    by rewrite Hw.
  - intros Hw Hold. unfold iOSDevice.getSimulatorDeviceStatuses. rewrite Hw. simpl.
    destruct (Z.ltb_spec iOSDevice.REFRESH_TIMEOUT (now - last st)); [done|lia].
  - intros Hw Hold. unfold AndroidDevice.onServerKilled. rewrite Hw. simpl.
    destruct (Z.ltb_spec AndroidDevice.ADB_RUNNING_TIMEOUT (now - last st)); [done|lia].
  - intros res.
    unfold iOSDevice.getSimulatorDeviceStatuses, AndroidDevice.onServerKilled.
    destruct (walking st); simpl; split; try discriminate.
    + destruct (iOSDevice.REFRESH_TIMEOUT <? now - last st); discriminate.
    + destruct (AndroidDevice.ADB_RUNNING_TIMEOUT <? now - last st); discriminate.
Qed.

End DiscoveryClaims.

(** A walk ended 500 ms ago and left a listing in the cache: the next
    request, on either platform, runs the subprocess again and empties the
    cache.  And 1500 ms into a walk that is still in flight, a request for
    the simulators starts a second [xcrun simctl list]. *)
Lemma fresh_cache_starts_a_walk_witness :
  let idle : Discovery.Walk (list string) nat :=
    {| Discovery.walking := false; Discovery.last := 5000;
       Discovery.cache := ["UDID-A"]; Discovery.queue := [] |} in
  let busy : Discovery.Walk (list string) nat :=
    {| Discovery.walking := true; Discovery.last := 5000;
       Discovery.cache := []; Discovery.queue := [1%nat] |} in
  iOSDevice.getSimulatorDeviceStatuses [] 5500 2%nat idle
  = (Discovery.StartedWalk "xcrun simctl list",
     {| Discovery.walking := true; Discovery.last := 5500;
        Discovery.cache := []; Discovery.queue := [2%nat] |}) ∧
  AndroidDevice.onServerKilled [] "adb" 5500 2%nat idle
  = (Discovery.StartedWalk "adb devices;",
     {| Discovery.walking := true; Discovery.last := 5500;
        Discovery.cache := []; Discovery.queue := [2%nat] |}) ∧
  iOSDevice.getSimulatorDeviceStatuses [] 6500 2%nat busy
  = (Discovery.StartedWalk "xcrun simctl list",
     {| Discovery.walking := true; Discovery.last := 6500;
        Discovery.cache := []; Discovery.queue := [1%nat; 2%nat] |}).
Proof.
  intros idle busy.
  destruct (fresh_cache_starts_a_walk [] "adb" idle 5500 2%nat) as ([Hios Hadb] & _).
  { reflexivity. }
  destruct (fresh_cache_starts_a_walk [] "adb" busy 6500 2%nat) as (_ & Hbusy & _).
  split; [exact Hios|]. split; [exact Hadb|].
  apply Hbusy; [reflexivity|]. unfold iOSDevice.REFRESH_TIMEOUT. simpl. lia.
Defined.

(** ** Guarded operations *)

Section GuardFacts.
Import Js BaseDevice.

Variable process_pid : N.
Variable getProcessPathByPID : option Z → bool.
Variable isBooted : Dev → option Error * bool * Dev.

(** [isBooted] of both subclasses leaves the closure variable
    [orientation] alone. *)
Hypothesis isBooted_orientation : ∀ d, orientation (isBooted d).2 = orientation d.

Local Abbreviation guard :=
  (ifBootedAndAvailableDoWithSessionOrReject process_pid getProcessPathByPID
     isBooted).

(** Either the guards hand the device to the action, or the operation
    ends unresolved; the guards themselves never touch [orientation]. *)
Lemma guard_cases {A : Type} (userSession : Val) (now : Z)
    (action : Dev → Settled Error A * Dev) (d : Dev) :
  (∃ d3, guard userSession now action d = action d3 ∧
         orientation d3 = orientation d) ∨
  (∃ x d', guard userSession now action d = (x, d') ∧
           (∀ a, x ≠ Resolved a) ∧ orientation d' = orientation d).
Proof.
  unfold ifBootedAndAvailableDoWithSessionOrReject.
  destruct (instanceofDeviceSession userSession), (session d) as [r|];
    try (right; eexists _, _; split; [reflexivity|]; split; [discriminate|done]).
  destruct (DeviceSession.compareAndValidate r userSession now (store d))
    as [[v [isValid|]] st'];
    try (right; eexists _, _; split; [reflexivity|]; split; [discriminate|done]).
  destruct (negb (truthy isValid));
    try (right; eexists _, _; split; [reflexivity|]; split; [discriminate|done]).
  destruct (readLock _ _ _) as [[lk|e v'] l'];
    try (right; eexists _, _; split; [reflexivity|]; split; [discriminate|done]).
  destruct (negb (locked lk) || _);
    try (right; eexists _, _; split; [reflexivity|]; split; [discriminate|done]).
  pose proof (isBooted_orientation (set_lockState l' (set_store st' d))) as Ho.
  destruct (isBooted _) as [[[e|] b] d3]; simpl in Ho;
    try (right; eexists _, _; split; [reflexivity|]; split; [discriminate|done]).
  destruct b;
    try (right; eexists _, _; split; [reflexivity|]; split; [discriminate|done]).
  left. exists d3. done.
Qed.

Lemma passes_orientation (userSession : Val) (now : Z) (d d3 : Dev) :
  passes process_pid getProcessPathByPID isBooted userSession now d d3 →
  orientation d3 = orientation d.
Proof.
  intros Hp. specialize (Hp Dev (λ d0, (Resolved d0, d0))).
  destruct (guard_cases userSession now (λ d0, (Resolved d0, d0)) d)
    as [(d3' & Hg & Ho) | (x & d' & Hg & Hx & _)].
  - rewrite Hp in Hg. by injection Hg as ->.
  - rewrite Hp in Hg. injection Hg as <- _. by destruct (Hx d3).
Qed.

(** A resolved operation went through the guards. *)
Lemma guard_resolved {A : Type} (userSession : Val) (now : Z)
    (action : Dev → Settled Error A * Dev) (d d' : Dev) (a : A) :
  guard userSession now action d = (Resolved a, d') →
  ∃ d3, action d3 = (Resolved a, d') ∧ orientation d3 = orientation d.
Proof.
  intros Hg. destruct (guard_cases userSession now action d)
    as [(d3 & Hg' & Ho) | (x & d'' & Hg' & Hx & _)].
  - exists d3. by rewrite <- Hg'.
  - rewrite Hg in Hg'. injection Hg' as <- _. by destruct (Hx a).
Qed.

(** An action that restores the orientation whenever it does not resolve
    makes an operation that does. *)
Lemma guard_unresolved_orientation {A : Type} (userSession : Val) (now : Z)
    (action : Dev → Settled Error A * Dev) (d : Dev) :
  (∀ d0, (∀ a, (action d0).1 ≠ Resolved a) →
         orientation (action d0).2 = orientation d0) →
  (∀ a, (guard userSession now action d).1 ≠ Resolved a) →
  orientation (guard userSession now action d).2 = orientation d.
Proof.
  intros Hact Hn. destruct (guard_cases userSession now action d)
    as [(d3 & Hg & Ho) | (x & d' & Hg & _ & Ho)]; rewrite Hg in *; [|done].
  rewrite <- Ho. by apply Hact.
Qed.

(** When the guards pass: the caller passes the session of the device, it
    validates, the lock is free or held by this process, and the device
    reports booted. *)
Lemma passes_intro (r : Ref) (now : Z) (d d3 : Dev) (lk : LockStatus) (l' : Lock) :
  session d = Some r →
  truthy (DeviceSession.validate r now (store d)).1 = true →
  readLock process_pid getProcessPathByPID (lockState d) = (LockOk lk, l') →
  negb (locked lk) || bool_decide (pid lk = self_pid process_pid) = true →
  isBooted (set_lockState l' (set_store (DeviceSession.validate r now (store d)).2 d))
  = (None, true, d3) →
  passes process_pid getProcessPathByPID isBooted (VSession r) now d d3.
Proof.
  intros Hs Hv Hr Ht Hb A action.
  unfold ifBootedAndAvailableDoWithSessionOrReject. rewrite Hs. simpl.
  unfold DeviceSession.compareAndValidate, DeviceSession.compare.
  rewrite bool_decide_eq_true_2 by done.
  destruct (DeviceSession.validate r now (store d)) as [v st'].
  simpl in *. rewrite Hv. simpl. rewrite Hr, Ht, Hb. done.
Qed.

End GuardFacts.

Lemma android_isBooted_orientation listed d :
  BaseDevice.orientation (AndroidDevice.isBooted listed d).2 = BaseDevice.orientation d.
Proof.
  unfold AndroidDevice.isBooted.
  destruct listed as [e|[a|]]; try done. by destruct (AndroidDevice.rd_booted a).
Qed.

Lemma ios_isBooted_orientation listed d :
  BaseDevice.orientation (iOSSimulatorDevice.isBooted listed d).2 = BaseDevice.orientation d.
Proof. unfold iOSSimulatorDevice.isBooted. by destruct listed as [e|[a|]]. Qed.

(** ** Rotation *)

Section RotateClaims.
Import Js BaseDevice Orientation.

Variable ANDROID_SDK_ADB : string.
Variable process_pid : N.
Variable getProcessPathByPID : option Z → bool.

Local Abbreviation androidLeft :=
  (AndroidDevice.rotateLeft ANDROID_SDK_ADB process_pid getProcessPathByPID).
Local Abbreviation androidRight :=
  (AndroidDevice.rotateRight ANDROID_SDK_ADB process_pid getProcessPathByPID).
Local Abbreviation iosLeft :=
  (iOSSimulatorDevice.rotateLeft process_pid getProcessPathByPID).
Local Abbreviation iosRight :=
  (iOSSimulatorDevice.rotateRight process_pid getProcessPathByPID).

Lemma stepUp_stepDown (o : Z) : 0 ≤ o ≤ 3 → stepUp (stepDown o) = o.
Proof.
  intros H. unfold stepDown, stepUp.
  destruct (Z.ltb_spec (o - 1) 0) as [H1|H1];
    [destruct (Z.ltb_spec 3 (3 + 1))|destruct (Z.ltb_spec 3 (o - 1 + 1))]; lia.
Qed.

(** On Android the claim holds.  A resolved [rotateLeft] has moved the
    orientation one step down, wrapping from 0 to 3, and a resolved
    [rotateRight] one step up, wrapping from 3 to 0. *)
Lemma android_rotateLeft_resolved session now listed r d d1 :
  androidLeft session now listed r d = (Resolved tt, d1) →
  errOrStderr r = false ∧ orientation d1 = stepDown (orientation d).
Proof.
  intros H. apply (guard_resolved _ _ _ (android_isBooted_orientation listed)) in H
    as (d3 & Ha & Ho).
  destruct (errOrStderr r); [discriminate Ha|].
  injection Ha as <-. simpl. by rewrite Ho.
Qed.

Lemma android_rotateRight_resolved session now listed r d d1 :
  androidRight session now listed r d = (Resolved tt, d1) →
  errOrStderr r = false ∧ orientation d1 = stepUp (orientation d).
Proof.
  intros H. apply (guard_resolved _ _ _ (android_isBooted_orientation listed)) in H
    as (d3 & Ha & Ho).
  destruct (errOrStderr r); [discriminate Ha|].
  injection Ha as <-. simpl. by rewrite Ho.
Qed.

Lemma step_in_range (o : Z) :
  0 ≤ o ≤ 3 → 0 ≤ stepDown o ≤ 3 ∧ 0 ≤ stepUp o ≤ 3.
Proof.
  intros H. unfold stepDown, stepUp.
  destruct (Z.ltb_spec (o - 1) 0), (Z.ltb_spec 3 (o + 1)); lia.
Qed.

(** [rotateLeft] followed by [rotateRight], both resolved, restores the
    orientation. *)
Lemma android_rotate_round_trip s1 s2 t1 t2 l1 l2 r1 r2 d d1 d2 :
  0 ≤ orientation d ≤ 3 →
  androidLeft s1 t1 l1 r1 d = (Resolved tt, d1) →
  androidRight s2 t2 l2 r2 d1 = (Resolved tt, d2) →
  orientation d2 = orientation d.
Proof.
  intros Ho [_ H1]%android_rotateLeft_resolved [_ H2]%android_rotateRight_resolved.
  rewrite H2, H1. by apply stepUp_stepDown.
Qed.

(** Whenever a rotation does not resolve, be it stopped by the guards or
    failed by adb, the orientation is what it was. *)
Lemma android_rotate_unresolved_reverts session now listed r d :
  ((∀ a, (androidLeft session now listed r d).1 ≠ Resolved a) →
     orientation (androidLeft session now listed r d).2 = orientation d) ∧
  ((∀ a, (androidRight session now listed r d).1 ≠ Resolved a) →
     orientation (androidRight session now listed r d).2 = orientation d).
Proof.
  split; intros Hn.
  - apply (guard_unresolved_orientation _ _ _ (android_isBooted_orientation listed));
      [|exact Hn].
    intros d0 Hd0. simpl in *. destruct (errOrStderr r); [done|].
    by destruct (Hd0 tt).
  - apply (guard_unresolved_orientation _ _ _ (android_isBooted_orientation listed));
      [|exact Hn].
    intros d0 Hd0. simpl in *. destruct (errOrStderr r); [done|].
    by destruct (Hd0 tt).
Qed.

(** C8 (the code departs from the claim here, on the iOS simulator).
    When the guards pass and the backend command fails, [rotateLeft] and
    [rotateRight] of the simulator resolve and leave the orientation
    moved one step, instead of rejecting with the orientation as it was:
    [executeJXACommand] reports a failure by [done.call(error)], which
    hands the callback no argument at all. *)
Theorem ios_rotate_moves_on_backend_failure session now listed r d d3 :
  passes process_pid getProcessPathByPID (iOSSimulatorDevice.isBooted listed)
    session now d d3 →
  errOrStderr r = true →
  orientation d3 = orientation d ∧
  iosLeft session now listed r d
  = (Resolved tt,
     set_orientation (stepDown (orientation d))
       (exec (iOSSimulatorDevice.osascript (iOSSimulatorDevice.menuClick "Rotate Left")) d3)) ∧
  iosRight session now listed r d
  = (Resolved tt,
     set_orientation (stepUp (orientation d))
       (exec (iOSSimulatorDevice.osascript (iOSSimulatorDevice.menuClick "Rotate Right")) d3)).
Proof.
  intros Hp Hfail.
  pose proof (passes_orientation _ _ _ (ios_isBooted_orientation listed) _ _ _ _ Hp) as Ho.
  split; [done|]. split.
  - unfold iOSSimulatorDevice.rotateLeft, iOSSimulatorDevice.guarded. rewrite Hp.
    unfold iOSSimulatorDevice.executeJXACommand. rewrite Hfail. simpl.
    by rewrite Ho.
  - unfold iOSSimulatorDevice.rotateRight, iOSSimulatorDevice.guarded. rewrite Hp.
    unfold iOSSimulatorDevice.executeJXACommand. rewrite Hfail. simpl.
    by rewrite Ho.
Qed.

(** With a backend that succeeds and prints nothing, the simulator
    rotates as claimed; any output makes the callback take [stdout] for an
    error: the operation is rejected with that string and the orientation
    stays. *)
Lemma ios_rotateLeft_on_backend_success session now listed r d d3 :
  passes process_pid getProcessPathByPID (iOSSimulatorDevice.isBooted listed)
    session now d d3 →
  errOrStderr r = false →
  0 ≤ orientation d →
  iosLeft session now listed r d
  = (if truthy (VStr (stdout r)) then Rejected (NotAnError (VStr (stdout r)))
     else Resolved tt,
     set_orientation (if truthy (VStr (stdout r)) then orientation d
                      else stepDown (orientation d))
       (exec (iOSSimulatorDevice.osascript (iOSSimulatorDevice.menuClick "Rotate Left")) d3)).
Proof.
  intros Hp Hok Hpos.
  pose proof (passes_orientation _ _ _ (ios_isBooted_orientation listed) _ _ _ _ Hp) as Ho.
  unfold iOSSimulatorDevice.rotateLeft, iOSSimulatorDevice.guarded. rewrite Hp.
  unfold iOSSimulatorDevice.executeJXACommand. rewrite Hok.
  cbn [orientation exec]. rewrite Ho.
  destruct (truthy (VStr (stdout r))) eqn:E; cbn [negb]; [|done].
  destruct (Z.ltb_spec (orientation d) 0); [lia|done].
Qed.

End RotateClaims.

(** ** Install and uninstall on Android *)

Section InstallClaims.
Import Js BaseDevice.

Variable ANDROID_SDK_ADB : string.
Variable process_pid : N.
Variable getProcessPathByPID : option Z → bool.

Local Abbreviation install :=
  (AndroidDevice.install ANDROID_SDK_ADB process_pid getProcessPathByPID).
Local Abbreviation uninstall :=
  (AndroidDevice.uninstall ANDROID_SDK_ADB process_pid getProcessPathByPID).

Lemma truthy_VStr (s : string) : truthy (VStr s) = true ↔ s ≠ "".
Proof.
  simpl. rewrite negb_true_iff. split.
  - intros H ->. discriminate H.
  - intros H. by apply String.eqb_neq.
Qed.

Lemma errOrStdout_false (r : ExecResult) :
  errOrStdout r = false ↔ err r = None ∧ stdout r = "".
Proof.
  unfold errOrStdout. rewrite orb_false_iff, bool_decide_eq_false. split.
  - intros [He Hs]. split.
    + destruct (err r); [|done]. destruct He. eauto.
    + destruct (decide (stdout r = "")) as [|Hn]; [done|].
      apply truthy_VStr in Hn. congruence.
  - intros [-> ->]. split; [|done]. by intros [? ?].
Qed.

(** C10.  For an Android [install] or [uninstall] with a string argument
    that passes the guards: any output on stdout makes the operation
    reject, with the error of [exec] if there is one and otherwise with a
    new error whose message is stderr, even when the command succeeded and
    wrote nothing to stderr; the operation resolves only when there was no
    error and stdout is empty, and then it resolves. *)
Theorem android_install_rejects_on_stdout session apk now listed r d d3 :
  passes process_pid getProcessPathByPID (AndroidDevice.isBooted listed)
    session now d d3 →
  let installed := (install session (VStr apk) now listed r d).1 in
  let uninstalled := (uninstall session (VStr apk) now listed r d).1 in
  (stdout r ≠ "" →
     installed = Rejected (from_option id (NewError (stderr r)) (err r)) ∧
     uninstalled = Rejected (from_option id (NewError (stderr r)) (err r))) ∧
  (∀ out, installed = Resolved out ∨ uninstalled = Resolved out →
     err r = None ∧ stdout r = "" ∧ out = "") ∧
  (err r = None → stdout r = "" →
     installed = Resolved "" ∧ uninstalled = Resolved "").
Proof.
  intros Hp installed uninstalled.
  assert (Hi : installed = if errOrStdout r then Rejected (errOrNewErrorStderr r)
                           else Resolved (stdout r)).
  { subst installed. unfold AndroidDevice.install, AndroidDevice.guarded.
    rewrite Hp. by destruct (errOrStdout r). }
  assert (Hu : uninstalled = if errOrStdout r then Rejected (errOrNewErrorStderr r)
                             else Resolved (stdout r)).
  { subst uninstalled. unfold AndroidDevice.uninstall, AndroidDevice.guarded.
    rewrite Hp. by destruct (errOrStdout r). }
  rewrite Hi, Hu. clear Hi Hu. split; [|split].
  - intros Hout. assert (errOrStdout r = true) as ->; [|done].
    unfold errOrStdout. apply orb_true_iff. right. by apply truthy_VStr.
  - intros out H. destruct (errOrStdout r) eqn:E.
    + destruct H as [H|H]; discriminate H.
    + apply errOrStdout_false in E as [He Hs].
      destruct H as [H|H]; injection H as <-; done.
  - intros He Hs. assert (errOrStdout r = false) as ->.
    { by apply errOrStdout_false. }
    by rewrite Hs.
Qed.

End InstallClaims.

(** ** Booting twice *)

Section BootClaims.
Import Js BaseDevice Boot.

Variable ANDROID_SDK_ADB : string.
Variable EMULATOR_EXECUTABLE : string.
Variable process_pid : N.
Variable getProcessPathByPID : option Z → bool.
Variable NOT_READY ALREADY_BOOTED IS_LOCKED : Error.
Variable self_id avdId : string.

Local Abbreviation androidBoot :=
  (AndroidEmulatorDevice.bootStart EMULATOR_EXECUTABLE process_pid
     getProcessPathByPID NOT_READY ALREADY_BOOTED IS_LOCKED self_id avdId).

(** C5 (the code departs from the claim here, on Android).  While a boot
    of the emulator is in progress, a second call to [boot] that finds the
    device unlocked and not yet listed as booted does not fail: it spawns
    a second emulator and waits for it.  [isBooting] is looked at only
    when the device is already listed as booted. *)
Theorem android_second_boot_spawns_again options listed port isBooting d l' d1 :
  booting isBooting self_id = true →
  isLocked process_pid getProcessPathByPID (lockState d) = (Resolved false, l') →
  AndroidDevice.isBooted listed (set_lockState l' d) = (None, false, d1) →
  androidBoot options listed (inr port) isBooting d
  = (Waiting port, <[self_id := true]> isBooting,
     exec (join " " (EMULATOR_EXECUTABLE
                      :: AndroidEmulatorDevice.emulatorArgs avdId options port)) d1).
Proof.
  intros _ Hl Hb. unfold AndroidEmulatorDevice.bootStart. rewrite Hl, Hb. done.
Qed.

(** The second call is told that the device is not ready only when the
    listing already shows the device booted. *)
Lemma android_second_boot_not_ready options listed port isBooting d l' d1 :
  booting isBooting self_id = true →
  isLocked process_pid getProcessPathByPID (lockState d) = (Resolved false, l') →
  AndroidDevice.isBooted listed (set_lockState l' d) = (None, true, d1) →
  androidBoot options listed port isBooting d
  = (Done (Rejected NOT_READY), isBooting, d1).
Proof.
  intros Hib Hl Hb. unfold AndroidEmulatorDevice.bootStart.
  rewrite Hl, Hb. simpl. by rewrite Hib.
Qed.

(** The simulator does check [isBooting] before it spawns: while a boot is
    in progress a second call spawns nothing.  It is told that the device
    is not ready when no running Simulator is mapped to the device; when
    one is, the call resolves. *)
Lemma ios_second_boot_spawns_nothing udid listed xcode mapped isBooting d :
  booting isBooting udid = true →
  iOSSimulatorDevice.bootStart NOT_READY ALREADY_BOOTED udid listed xcode mapped isBooting d
  = match mapped with
    | inl e => (Done (Rejected e), isBooting, (iOSSimulatorDevice.isBooted listed d).2)
    | inr (Some _) =>
        (Done (Resolved tt), <[udid := false]> isBooting,
         exec iOSSimulatorDevice.focus (iOSSimulatorDevice.isBooted listed d).2)
    | inr None =>
        (Done (Rejected NOT_READY), isBooting, (iOSSimulatorDevice.isBooted listed d).2)
    end.
Proof.
  intros Hib. unfold iOSSimulatorDevice.bootStart.
  destruct (iOSSimulatorDevice.isBooted listed d) as [[e b] d1].
  rewrite Hib, andb_false_r. cbn [snd]. by destruct mapped as [e'|[m|]].
Qed.

End BootClaims.

(** ** The theorems at sample values *)

Section Samples.
Import Js BaseDevice Examples.

(** The guards pass for [device0] and its own session at time 2000, on
    either platform. *)
Lemma device0_passes_android :
  passes 4242 alive
    (AndroidDevice.isBooted
       (inr (Some {| AndroidDevice.rd_serial := "emulator-5554";
                     AndroidDevice.rd_booted := true |})))
    (VSession 0%nat) 2000 device0 device0_cleared.
Proof. intros A action. reflexivity. Qed.

Lemma device0_passes_ios :
  passes 4242 alive (iOSSimulatorDevice.isBooted (inr (Some true)))
    (VSession 0%nat) 2000 device0 device0_cleared.
Proof. intros A action. reflexivity. Qed.

(** The simulator, asked to rotate left at orientation 0 while osascript
    fails: the call resolves and the orientation is 3. *)
Lemma ios_rotate_moves_on_backend_failure_witness :
  (iOSSimulatorDevice.rotateLeft 4242 alive (VSession 0%nat) 2000
     (inr (Some true)) failed device0).1 = Resolved tt ∧
  orientation (iOSSimulatorDevice.rotateLeft 4242 alive (VSession 0%nat) 2000
                 (inr (Some true)) failed device0).2 = 3.
Proof.
  destruct (ios_rotate_moves_on_backend_failure 4242 alive (VSession 0%nat) 2000
              (inr (Some true)) failed device0 device0_cleared
              device0_passes_ios eq_refl) as (_ & Hleft & _).
  rewrite Hleft. split; reflexivity.
Defined.

(** [adb install] printing "Success" with exit code 0 is a rejection;
    with nothing printed it is a resolution. *)
Lemma android_install_rejects_on_stdout_witness :
  (AndroidDevice.install "adb" 4242 alive (VSession 0%nat) (VStr "/tmp/app.apk") 2000
     (inr (Some {| AndroidDevice.rd_serial := "emulator-5554";
                   AndroidDevice.rd_booted := true |}))
     chatty device0).1 = Rejected (NewError "") ∧
  (AndroidDevice.install "adb" 4242 alive (VSession 0%nat) (VStr "/tmp/app.apk") 2000
     (inr (Some {| AndroidDevice.rd_serial := "emulator-5554";
                   AndroidDevice.rd_booted := true |}))
     silent device0).1 = Resolved "".
Proof.
  split.
  - destruct (android_install_rejects_on_stdout "adb" 4242 alive (VSession 0%nat)
                "/tmp/app.apk" 2000 _ chatty device0 device0_cleared
                device0_passes_android) as (H & _ & _).
    destruct H as [H _]; [intros E; discriminate E|]. exact H.
  - destruct (android_install_rejects_on_stdout "adb" 4242 alive (VSession 0%nat)
                "/tmp/app.apk" 2000 _ silent device0 device0_cleared
                device0_passes_android) as (_ & _ & H).
    destruct H as [H _]; [reflexivity|reflexivity|]. exact H.
Defined.

(** Two calls of [boot] on the emulator Nexus_5, the second while the
    first waits for the device: the first marks the device as booting, and
    the second spawns a second emulator. *)
Lemma android_second_boot_spawns_again_witness :
  let boot :=
    AndroidEmulatorDevice.bootStart "emulator" 4242 alive
      DEVICE_NOT_READY_ERROR DEVICE_ALREADY_BOOTED_ERROR DEVICE_IS_LOCKED_ERROR
      "Nexus_5" "Nexus_5" None (inr None) in
  boot (inr 5554) ∅ device1 = (Boot.Waiting 5554, booting_Nexus_5, device1_booting) ∧
  Boot.booting booting_Nexus_5 "Nexus_5" = true ∧
  (boot (inr 5556) booting_Nexus_5 device1_booting).1.1 = Boot.Waiting 5556 ∧
  execLog (boot (inr 5556) booting_Nexus_5 device1_booting).2
  = ["emulator -avd Nexus_5 -port 5554 -gpu on -netspeed full";
     "emulator -avd Nexus_5 -port 5556 -gpu on -netspeed full"].
Proof.
  intros boot. subst boot.
  assert (Hb : Boot.booting booting_Nexus_5 "Nexus_5" = true)
    by (vm_compute; reflexivity).
  split; [vm_compute; reflexivity|]. split; [exact Hb|].
  rewrite (android_second_boot_spawns_again "emulator" 4242 alive
             DEVICE_NOT_READY_ERROR DEVICE_ALREADY_BOOTED_ERROR DEVICE_IS_LOCKED_ERROR
             "Nexus_5" "Nexus_5" None (inr None) 5556 booting_Nexus_5 device1_booting
             (lockState device1_booting) device1_booting
             Hb eq_refl eq_refl).
  split; reflexivity.
Defined.

End Samples.

(** ** Further properties of the lock *)

Section LockRoundTrips.
Import Js BaseDevice.

Variable process_pid : N.
Variable getProcessPathByPID : option Z → bool.

Local Abbreviation lock := (lock process_pid getProcessPathByPID).
Local Abbreviation unlock := (unlock process_pid getProcessPathByPID).
Local Abbreviation isLocked := (isLocked process_pid getProcessPathByPID).
Local Abbreviation readLock := (readLock process_pid getProcessPathByPID).
Local Abbreviation writeLock := (writeLock process_pid getProcessPathByPID).
Local Abbreviation self_pid := (self_pid process_pid).
Local Abbreviation lockedByOther := (lockedByOther process_pid).
Local Abbreviation released := ("0." +:+ pretty process_pid).
Local Abbreviation acquired := ("1." +:+ pretty process_pid).

Lemma parseStatus_released :
  parseStatus released = {| locked := false; pid := self_pid |}.
Proof. exact (parseStatus_written "0" process_pid (or_introl eq_refl)). Qed.

Lemma parseStatus_acquired :
  parseStatus acquired = {| locked := true; pid := self_pid |}.
Proof. exact (parseStatus_written "1" process_pid (or_intror eq_refl)). Qed.

(** Without errors [readLock] answers with a status, and reading again
    changes nothing more. *)
Lemma readLock_ok l :
  readError l = None → writeError l = None →
  ∃ status l1, readLock l = (LockOk status, l1) ∧
               readLock l1 = (LockOk status, l1) ∧
               readError l1 = None ∧ writeError l1 = None ∧
               localLock l1 = localLock l ∧
               (locked status = false → lockedByOther status = false).
Proof.
  intros Hr Hw.
  assert (Hfree : ∀ st, locked st = false → lockedByOther st = false).
  { intros st Hst. unfold BaseDevice.lockedByOther. by rewrite Hst. }
  assert (Hrel : ∀ l0, localLock l0 = false → readError l0 = None →
            readLock (set_lockFile released l0)
            = (LockOk {| locked := false; pid := self_pid |}, set_lockFile released l0)).
  { intros l0 Hl0 Hr0.
    rewrite (readLock_free process_pid getProcessPathByPID _ released); try done.
    - by rewrite parseStatus_released.
    - rewrite parseStatus_released. apply lockedByOther_self. }
  destruct (localLock l) eqn:Hl.
  { eexists _, l. rewrite (readLock_local _ _ l Hl). repeat split; auto. }
  destruct (lockFile l) as [contents|] eqn:Hf.
  - destruct (lockedByOther (parseStatus contents)) eqn:Ht.
    + destruct (getProcessPathByPID (pid (parseStatus contents))) eqn:Ha.
      * eexists _, l. rewrite (readLock_held _ _ l contents) by done.
        repeat split; auto.
      * eexists _, _. rewrite (readLock_stale _ _ l contents) by done.
        rewrite Hrel by done. repeat split; auto.
    + eexists _, l. rewrite (readLock_free _ _ l contents) by done.
      repeat split; auto.
  - exists {| locked := false; pid := self_pid |}, (set_lockFile released l).
    assert (readLock l = (LockOk {| locked := false; pid := self_pid |},
                          set_lockFile released l)) as ->.
    { unfold BaseDevice.readLock. rewrite Hl, Hr, Hf, writeFile_ok by done. done. }
    rewrite Hrel by done. repeat split; auto.
Qed.

Lemma isLocked_readLock l status l1 :
  readLock l = (LockOk status, l1) → isLocked l = (Resolved (locked status), l1).
Proof. intros H. unfold BaseDevice.isLocked. by rewrite H. Qed.

Lemma unlock_local l :
  localLock l = true → writeError l = None →
  unlock l = (Resolved tt, set_lockFile released (set_localLock false l)).
Proof.
  intros Hl Hw. unfold BaseDevice.unlock.
  rewrite (writeLock_writes _ _ false l _ l (readLock_local _ _ l Hl)
             (lockedByOther_self _ _) Hw).
  done.
Qed.

Lemma lock_unlocked l status l1 :
  readLock l = (LockOk status, l1) → lockedByOther status = false →
  writeError l1 = None →
  lock l = (Resolved tt, set_lockFile acquired (set_localLock true l1)).
Proof.
  intros Hr Ht Hw. unfold BaseDevice.lock.
  by rewrite (writeLock_writes _ _ true l _ _ Hr Ht Hw).
Qed.

Lemma isLocked_local l :
  localLock l = true → isLocked l = (Resolved true, l).
Proof. intros Hl. by rewrite (isLocked_readLock l _ l (readLock_local _ _ l Hl)). Qed.

Lemma isLocked_released l :
  localLock l = false → readError l = None → lockFile l = Some released →
  isLocked l = (Resolved false, l).
Proof.
  intros Hl Hr Hf.
  rewrite (isLocked_readLock l (parseStatus released) l).
  - by rewrite parseStatus_released.
  - apply readLock_free; try done.
    rewrite parseStatus_released. apply lockedByOther_self.
Qed.

(** X1.  When [lock] succeeds on a file system that answers without
    errors, the device reads as locked and the file reads
    ["1.<pid of this process>"]; [unlock] then succeeds, leaves the file
    reading ["0.<pid>"] and the device reading as unlocked, and a second
    [lock] brings back exactly the state the first one left. *)
Theorem lock_unlock_round_trip (l : Lock) :
  readError l = None → writeError l = None →
  (lock l).1 = Resolved tt →
  let l1 := (lock l).2 in
  let l2 := (unlock l1).2 in
  isLocked l1 = (Resolved true, l1) ∧
  lockFile l1 = Some acquired ∧
  unlock l1 = (Resolved tt, l2) ∧
  lockFile l2 = Some released ∧
  isLocked l2 = (Resolved false, l2) ∧
  lock l2 = (Resolved tt, l1).
Proof.
  intros Hr Hw Hres l1 l2.
  destruct (readLock_ok l Hr Hw) as (status & l0 & Hrl & _ & Hr0 & Hw0 & Hl0 & _).
  assert (Hl1 : l1 = set_lockFile acquired (set_localLock true l0)).
  { subst l1. revert Hres. unfold BaseDevice.lock, BaseDevice.writeLock.
    rewrite Hrl. destruct (lockedByOther status); [discriminate|].
    by rewrite writeFile_ok. }
  clearbody l1. subst l1. set (l1 := set_lockFile acquired (set_localLock true l0)) in *.
  assert (Hu : unlock l1 = (Resolved tt, set_lockFile released (set_localLock false l1))).
  { by apply unlock_local. }
  subst l2. rewrite Hu. cbn [snd].
  set (l2 := set_lockFile released (set_localLock false l1)).
  split; [by apply isLocked_local|].
  split; [done|]. split; [done|]. split; [done|].
  split; [by apply isLocked_released|].
  rewrite (lock_unlocked l2 (parseStatus released) l2); try done.
  - apply readLock_free; try done.
    rewrite parseStatus_released. apply lockedByOther_self.
  - rewrite parseStatus_released. apply lockedByOther_self.
Qed.


Lemma parseStatus_held (q : N) :
  parseStatus ("1." +:+ pretty q) = {| locked := true; pid := Some (Z.of_N q) |}.
Proof. exact (parseStatus_written "1" q (or_intror eq_refl)). Qed.

Lemma parseStatus_other (q : N) :
  q ≠ process_pid →
  lockedByOther (parseStatus ("1." +:+ pretty q)) = true ∧
  pid (parseStatus ("1." +:+ pretty q)) = Some (Z.of_N q).
Proof.
  intros Hq.
  assert (Hp : parseStatus ("1." +:+ pretty q)
               = {| locked := true; pid := Some (Z.of_N q) |}).
  { exact (parseStatus_written "1" q (or_intror eq_refl)). }
  rewrite Hp. split; [|done]. unfold BaseDevice.lockedByOther. simpl.
  apply negb_true_iff, bool_decide_eq_false. unfold BaseDevice.self_pid.
  intros [= H]. apply Hq. lia.
Qed.

(** X2.  On a file system that answers without errors [isLocked]
    always resolves, and it resolves [true] exactly when this process
    holds the lock in memory, or the lock file records a lock whose pid is
    the pid of this process or of a live process. *)
Theorem isLocked_iff_held (l : Lock) :
  readError l = None → writeError l = None →
  ∃ b l', isLocked l = (Resolved b, l') ∧
    (b = true ↔
       localLock l = true ∨
       ∃ contents, lockFile l = Some contents ∧
         locked (parseStatus contents) = true ∧
         (pid (parseStatus contents) = self_pid ∨
          getProcessPathByPID (pid (parseStatus contents)) = true)).
Proof.
  intros Hr Hw. destruct (localLock l) eqn:Hl.
  { exists true, l. split; [by apply isLocked_local|].
    split; [intros _; by left|reflexivity]. }
  destruct (lockFile l) as [contents|] eqn:Hf.
  - destruct (lockedByOther (parseStatus contents)) eqn:Ht.
    + apply andb_true_iff in Ht as Ht'. destruct Ht' as [Hlk Hp].
      apply negb_true_iff, bool_decide_eq_false in Hp.
      destruct (getProcessPathByPID (pid (parseStatus contents))) eqn:Ha.
      * exists true, l. split.
        { rewrite (isLocked_readLock l (parseStatus contents) l), Hlk; [done|].
          by apply readLock_held. }
        split; [|reflexivity]. intros _. right. exists contents. auto.
      * exists false, (set_lockFile released l). split.
        { rewrite (isLocked_readLock l _ _
                     (readLock_stale _ _ l contents Hl Hr Hw Hf Ht Ha)). done. }
        split; [discriminate|].
        intros [?|(c & [= <-] & _ & [?|?])]; congruence.
    + exists (locked (parseStatus contents)), l. split.
      { apply isLocked_readLock. by apply readLock_free. }
      split.
      * intros Hlk. right. exists contents. split; [done|]. split; [done|].
        left. unfold BaseDevice.lockedByOther in Ht. rewrite Hlk in Ht.
        simpl in Ht. apply negb_false_iff, bool_decide_eq_true in Ht. done.
      * intros [?|(c & [= <-] & ? & _)]; congruence.
  - exists false, (set_lockFile released l). split.
    { unfold BaseDevice.isLocked, BaseDevice.readLock.
      by rewrite Hl, Hr, Hf, writeFile_ok. }
    split; [discriminate|]. intros [?|(c & ? & _)]; congruence.
Qed.

(** X3.  While the lock file records a lock held by another pid that
    is alive, [unlock] is rejected with the error "Device is locked by
    another process ...", nothing is written, and [isLocked] stays
    [true]. *)
Theorem unlock_refused_for_other_holder (l : Lock) (q : N) :
  localLock l = false → readError l = None →
  lockFile l = Some ("1." +:+ pretty q) →
  q ≠ process_pid → getProcessPathByPID (Some (Z.of_N q)) = true →
  unlock l
  = (Rejected (NewError
       "Device is locked by another process, unable to write to lock file."), l) ∧
  isLocked l = (Resolved true, l).
Proof.
  intros Hl Hr Hf Hq Ha. destruct (parseStatus_other q Hq) as [Ht Hp].
  assert (Hrl : readLock l = (LockOk (parseStatus ("1." +:+ pretty q)), l)).
  { apply readLock_held; try done. by rewrite Hp. }
  split.
  - unfold BaseDevice.unlock, BaseDevice.writeLock. by rewrite Hrl, Ht.
  - rewrite (isLocked_readLock l _ l Hrl). by rewrite parseStatus_held.
Qed.

(** X4.  [isLocked] writes: when the lock file is missing, or records
    a lock of a pid that is not alive, it resolves [false] and leaves the
    file reading ["0.<pid of this process>"]; a [lock] after that
    succeeds. *)
Theorem isLocked_repairs_lock_file (l : Lock) :
  localLock l = false → readError l = None → writeError l = None →
  (lockFile l = None ∨
   ∃ q, lockFile l = Some ("1." +:+ pretty q) ∧ q ≠ process_pid ∧
        getProcessPathByPID (Some (Z.of_N q)) = false) →
  isLocked l = (Resolved false, set_lockFile released l) ∧
  lock (set_lockFile released l)
  = (Resolved tt, set_lockFile acquired (set_localLock true l)).
Proof.
  intros Hl Hr Hw Hcase.
  assert (Hrl : readLock l = (LockOk {| locked := false; pid := self_pid |},
                              set_lockFile released l)).
  { destruct Hcase as [Hf|(q & Hf & Hq & Ha)].
    - unfold BaseDevice.readLock. by rewrite Hl, Hr, Hf, writeFile_ok.
    - destruct (parseStatus_other q Hq) as [Ht Hp].
      apply (readLock_stale _ _ l ("1." +:+ pretty q)); try done. by rewrite Hp. }
  split; [by rewrite (isLocked_readLock l _ _ Hrl)|].
  set (l1 := set_lockFile released l).
  rewrite (lock_unlocked l1 (parseStatus released) l1); try done.
  - apply readLock_free; try done.
    rewrite parseStatus_released. apply lockedByOther_self.
  - rewrite parseStatus_released. apply lockedByOther_self.
Qed.


End LockRoundTrips.

(** ** Further properties of sessions *)

Section SessionWindows.
Import Js DeviceSession.

Lemma validate_falsy r now st :
  truthy (validate r now st).1 = false → (validate r now st).2 = destroy r st.
Proof.
  unfold validate. destruct (objects st !! r) as [s|] eqn:Hs.
  - destruct (truthy (isValid s now st)) eqn:Hv; simpl; [congruence|done].
  - intros _. unfold destroy. by rewrite Hs.
Qed.

(** X6.  The timeout of a session slides.  After a [validate] at time
    [t1] that returned a truthy value, a [validate] at time [t2] is truthy
    exactly when [t2 - t1] is below the timeout; after a [validate] that
    returned a falsy value, every later one is falsy, whatever the time. *)
Theorem session_sliding_window (r : Ref) (s : t) (t1 t2 : Z) (st : Store) :
  objects st !! r = Some s →
  let st1 := (validate r t1 st).2 in
  (truthy (validate r t1 st).1 = true →
     (truthy (validate r t2 st1).1 = true ↔ t2 - t1 < timeout s)) ∧
  (truthy (validate r t1 st).1 = false →
     truthy (validate r t2 st1).1 = false).
Proof.
  intros Hs st1. subst st1. split.
  - intros Hv. unfold validate in Hv |- * at 2. rewrite Hs in Hv |- *.
    destruct (truthy (isValid s t1 st)) eqn:Hv1; simpl in Hv; [|congruence].
    simpl. apply truthy_isValid in Hv1 as (Hlt & tok & Htok & Hne & r' & Hr').
    unfold validate, touch. rewrite Hs. simpl. rewrite lookup_insert_eq.
    set (s' := {| token := token s; lastUsed := t1; timeout := timeout s |}).
    set (st' := {| sessions := sessions st; objects := <[r:=s']> (objects st) |}).
    assert (Hiff : truthy (isValid s' t2 st') = true ↔ t2 - t1 < timeout s).
    { rewrite truthy_isValid. simpl. split; [tauto|]. intros ?. split; [done|].
      exists tok. eauto. }
    destruct (truthy (isValid s' t2 st')) eqn:E; simpl; rewrite E; exact Hiff.
  - intros Hv. rewrite (validate_falsy _ _ _ Hv). apply validate_after_destroy.
Qed.

(** X7.  Validating, expiring or destroying one session does not
    change what [validate] returns for another session object, as long as
    the token of that other one is not the string ["null"]. *)
Theorem sessions_do_not_interfere (r r' : Ref) (s' : t) (t now : Z) (st : Store) :
  r ≠ r' → objects st !! r' = Some s' → token s' ≠ Some "null" →
  (validate r' now (validate r t st).2).1 = (validate r' now st).1 ∧
  (validate r' now (destroy r st)).1 = (validate r' now st).1.
Proof.
  intros Hne Hs' Htok.
  assert (Hd : (validate r' now (destroy r st)).1 = (validate r' now st).1).
  { unfold validate at 1 2, destroy.
    destruct (objects st !! r) as [s|] eqn:Hs; simpl.
    - rewrite lookup_insert_ne, Hs' by done.
      assert (Hv : ∀ st2, sessions st2 = delete "null" (<["null":=None]> (sessions st)) →
                isValid s' now st2 = isValid s' now st).
      { intros st2 Hst2. unfold isValid. rewrite Hst2. unfold lookupVal.
        destruct (token s') as [tok|] eqn:Ht; simpl.
        - rewrite lookup_delete_ne, lookup_insert_ne by congruence. done.
        - unfold and. simpl. by destruct (bool_decide _). }
      rewrite Hv by done. by destruct (truthy _).
    - rewrite Hs'. done. }
  split; [|done].
  unfold validate at 2. destruct (objects st !! r) as [s|] eqn:Hs; [|done].
  destruct (truthy (isValid s t st)); simpl; [|done].
  unfold validate at 1 2, touch. rewrite Hs. simpl.
  rewrite lookup_insert_ne, Hs' by done.
  assert (Hv : ∀ st2, sessions st2 = sessions st → isValid s' now st2 = isValid s' now st).
  { intros st2 Hst2. unfold isValid. by rewrite Hst2. }
  rewrite Hv by done. by destruct (truthy _).
Qed.

End SessionWindows.

(** ** Starting and ending a session *)

Section DeviceSessions.
Import Js BaseDevice.

Variable process_pid : N.
Variable getProcessPathByPID : option Z → bool.

Local Abbreviation lock := (lock process_pid getProcessPathByPID).
Local Abbreviation unlock := (unlock process_pid getProcessPathByPID).
Local Abbreviation isLocked := (isLocked process_pid getProcessPathByPID).
Local Abbreviation readLock := (readLock process_pid getProcessPathByPID).
Local Abbreviation startSession := (startSession process_pid getProcessPathByPID).
Local Abbreviation endSession := (endSession process_pid getProcessPathByPID).
Local Abbreviation released := ("0." +:+ pretty process_pid).
Local Abbreviation acquired := ("1." +:+ pretty process_pid).

(** A device that holds its lock refuses to start a session. *)
Lemma startSession_locked rotateTo r tok now cfg d :
  localLock (lockState d) = true →
  startSession rotateTo r tok now cfg d = (Rejected DEVICE_IS_LOCKED_ERROR, d).
Proof.
  intros Hl. unfold BaseDevice.startSession.
  rewrite (isLocked_local _ _ _ Hl). f_equal. by destruct d.
Qed.

(** An idle device: no session, and a lock that reads as free. *)
Lemma startSession_idle r tok now cfg d :
  session d = None →
  readError (lockState d) = None → writeError (lockState d) = None →
  (isLocked (lockState d)).1 = Resolved false →
  ∃ l0, readError l0 = None ∧ writeError l0 = None ∧
    startSession None r tok now cfg d
    = (Resolved r,
       {| session := Some r;
          lockState := set_lockFile acquired (set_localLock true l0);
          store := DeviceSession.new r tok now cfg (store d);
          orientation := orientation d; serial := serial d;
          execLog := execLog d |}).
Proof.
  intros Hs Hr Hw Hfree.
  destruct (readLock_ok process_pid getProcessPathByPID _ Hr Hw)
    as (status & l0 & Hrl & Hrl0 & Hr0 & Hw0 & Hl0 & Hother).
  exists l0. split; [done|]. split; [done|].
  rewrite (isLocked_readLock _ _ _ _ _ Hrl) in Hfree. simpl in Hfree.
  injection Hfree as Hlk.
  unfold BaseDevice.startSession.
  rewrite (isLocked_readLock _ _ _ _ _ Hrl), Hlk. simpl. rewrite Hs.
  rewrite (lock_unlocked _ _ l0 status l0 Hrl0 (Hother Hlk) Hw0). done.
Qed.

(** X8.  On a device without a session whose lock reads as free, and
    with a file system that answers without errors, [startSession] (with
    no [rotateTo] defined) resolves with the new session, registers it in
    the store, and takes the lock: the file reads ["1.<pid>"], [isLocked]
    is [true], and every further [startSession] is rejected with
    [DEVICE_IS_LOCKED_ERROR] and changes nothing. *)
Theorem startSession_locks_the_device (r : Ref) (tok : string) (now : Z)
    (cfg : option Z) (d : Dev) :
  session d = None →
  readError (lockState d) = None → writeError (lockState d) = None →
  (isLocked (lockState d)).1 = Resolved false →
  ∃ d', startSession None r tok now cfg d = (Resolved r, d') ∧
    session d' = Some r ∧
    store d' = DeviceSession.new r tok now cfg (store d) ∧
    lockFile (lockState d') = Some acquired ∧
    isLocked (lockState d') = (Resolved true, lockState d') ∧
    ∀ rotateTo r2 tok2 now2 cfg2,
      startSession rotateTo r2 tok2 now2 cfg2 d'
      = (Rejected DEVICE_IS_LOCKED_ERROR, d').
Proof.
  intros Hs Hr Hw Hfree.
  destruct (startSession_idle r tok now cfg d Hs Hr Hw Hfree) as (l0 & _ & _ & ->).
  eexists. split; [reflexivity|]. simpl.
  split; [reflexivity|]. split; [reflexivity|]. split; [reflexivity|].
  split; [by apply isLocked_local|].
  intros. by apply startSession_locked.
Qed.

(** What [endSession] does with a session that still validates. *)
Lemma endSession_valid r now now' d :
  session d = Some r →
  truthy (DeviceSession.validate r now (store d)).1 = true →
  localLock (lockState d) = true → writeError (lockState d) = None →
  endSession now now' d
  = (Resolved tt, None,
     {| session := None;
        lockState := set_lockFile released (set_localLock false (lockState d));
        store := DeviceSession.destroy r (DeviceSession.validate r now (store d)).2;
        orientation := orientation d; serial := serial d;
        execLog := execLog d |}).
Proof.
  intros Hs Hv Hl Hw. unfold BaseDevice.endSession. rewrite Hs.
  destruct (DeviceSession.validate r now (store d)) as [v1 st1].
  simpl in Hv. rewrite Hv. simpl. rewrite (unlock_local _ _ _ Hl Hw). done.
Qed.

(** X9.  [startSession] followed by [endSession] within the timeout
    gives the device back: [endSession] resolves, the session slot is
    empty, the device reads as unlocked, the old session object never
    validates again, and a new [startSession] resolves with a new
    session. *)
Theorem session_round_trip (r r2 : Ref) (tok tok2 : string) (now t t' now2 : Z)
    (cfg cfg2 : option Z) (d : Dev) :
  session d = None →
  readError (lockState d) = None → writeError (lockState d) = None →
  (isLocked (lockState d)).1 = Resolved false →
  tok ≠ "" → t - now < DeviceSession.configuredTimeout cfg →
  let d1 := (startSession None r tok now cfg d).2 in
  let d2 := (endSession t t' d1).2 in
  endSession t t' d1 = (Resolved tt, None, d2) ∧
  session d2 = None ∧
  isLocked (lockState d2) = (Resolved false, lockState d2) ∧
  (∀ t2, truthy (DeviceSession.validate r t2 (store d2)).1 = false) ∧
  (startSession None r2 tok2 now2 cfg2 d2).1 = Resolved r2.
Proof.
  intros Hs Hr Hw Hfree Htok Hlt d1 d2.
  destruct (startSession_idle r tok now cfg d Hs Hr Hw Hfree) as (l0 & Hr0 & Hw0 & Hd1).
  subst d2 d1. rewrite Hd1. cbn [snd].
  set (d1 := {| session := Some r |}).
  assert (Hv : truthy (DeviceSession.validate r t (store d1)).1 = true).
  { unfold DeviceSession.validate. simpl. rewrite lookup_insert_eq.
    match goal with |- context [DeviceSession.isValid ?s ?n ?st] =>
      assert (Hi : truthy (DeviceSession.isValid s n st) = true) end.
    { apply truthy_isValid. simpl. split; [done|]. exists tok.
      split; [done|]. split; [done|]. exists r. by rewrite lookup_insert_eq. }
    by rewrite Hi. }
  assert (Hw1 : writeError (lockState d1) = None) by done.
  rewrite (endSession_valid r t t' d1 eq_refl Hv eq_refl Hw1). cbn [snd].
  split; [done|]. split; [done|]. simpl.
  split; [by apply isLocked_released|].
  split; [intros t2; apply validate_after_destroy|].
  match goal with |- (startSession _ _ _ _ _ ?d2).1 = _ =>
    destruct (startSession_idle r2 tok2 now2 cfg2 d2) as (l3 & _ & _ & ->) end;
    try done.
  simpl. by rewrite isLocked_released.
Qed.


Lemma validate_twice_falsy r now now' st :
  truthy (DeviceSession.validate r now st).1 = false →
  truthy (DeviceSession.validate r now' (DeviceSession.validate r now st).2).1 = false ∧
  (DeviceSession.validate r now' (DeviceSession.validate r now st).2).2
  = DeviceSession.destroy r st.
Proof.
  intros Hv. rewrite (validate_falsy _ _ _ Hv).
  pose proof (validate_after_destroy r st now') as Hv'. split; [done|].
  rewrite (validate_falsy _ _ _ Hv'). apply destroy_idempotent.
Qed.

(** X10.  A session that has timed out does not free its device.
    A guarded operation with that session is rejected with
    [INVALID_SESSION], now and at any later time, and as the process
    still holds the lock every [startSession] is rejected with
    [DEVICE_IS_LOCKED_ERROR]. *)
Theorem expired_session_keeps_device_locked {A : Type}
    (isBooted : Dev → option Error * bool * Dev)
    (action : Dev → Settled Error A * Dev) (r : Ref) (now : Z) (d : Dev) :
  session d = Some r → localLock (lockState d) = true →
  truthy (DeviceSession.validate r now (store d)).1 = false →
  let d' := set_store (DeviceSession.destroy r (store d)) d in
  ifBootedAndAvailableDoWithSessionOrReject process_pid getProcessPathByPID
    isBooted (VSession r) now action d = (Rejected INVALID_SESSION, d') ∧
  (∀ now2, ifBootedAndAvailableDoWithSessionOrReject process_pid getProcessPathByPID
     isBooted (VSession r) now2 action d' = (Rejected INVALID_SESSION, d')) ∧
  (∀ rotateTo r2 tok2 now2 cfg2,
     startSession rotateTo r2 tok2 now2 cfg2 d'
     = (Rejected DEVICE_IS_LOCKED_ERROR, d')).
Proof.
  intros Hs Hl Hv d'.
  assert (Hg : ∀ n (d0 : Dev), session d0 = Some r →
            truthy (DeviceSession.validate r n (store d0)).1 = false →
            ifBootedAndAvailableDoWithSessionOrReject process_pid getProcessPathByPID
              isBooted (VSession r) n action d0
            = (Rejected INVALID_SESSION,
               set_store (DeviceSession.destroy r (store d0)) d0)).
  { intros n d0 Hs0 Hv0. unfold ifBootedAndAvailableDoWithSessionOrReject.
    rewrite Hs0. simpl.
    unfold DeviceSession.compareAndValidate, DeviceSession.compare.
    rewrite bool_decide_eq_true_2 by done.
    pose proof (validate_falsy _ _ _ Hv0) as Hst.
    destruct (DeviceSession.validate r n (store d0)) as [v st'].
    simpl in *. rewrite Hv0. simpl. by subst st'. }
  split; [by apply Hg|]. split.
  - intros now2. rewrite Hg; [|done|apply validate_after_destroy].
    subst d'. simpl. rewrite destroy_idempotent. done.
  - intros. by apply startSession_locked.
Qed.

(** X11.  [endSession] on a device whose session no longer validates
    resolves, empties the session slot and calls back without an error;
    when the process held the lock and the file system answers without
    errors, the lock file reads ["0.<pid>"] afterwards and the device reads
    as unlocked. *)
Theorem endSession_releases_expired_session (r : Ref) (now now' : Z) (d : Dev) :
  session d = Some r →
  truthy (DeviceSession.validate r now (store d)).1 = false →
  ∃ d', endSession now now' d = (Resolved tt, None, d') ∧
    session d' = None ∧
    store d' = DeviceSession.destroy r (store d) ∧
    (localLock (lockState d) = true →
     readError (lockState d) = None → writeError (lockState d) = None →
     lockFile (lockState d') = Some released ∧
     isLocked (lockState d') = (Resolved false, lockState d')).
Proof.
  intros Hs Hv. unfold BaseDevice.endSession. rewrite Hs.
  destruct (validate_twice_falsy r now now' (store d) Hv) as [Hv2 Hst2].
  destruct (DeviceSession.validate r now (store d)) as [v1 st1].
  simpl in Hv, Hv2, Hst2. rewrite Hv.
  destruct (DeviceSession.validate r now' st1) as [v2 st2].
  simpl in Hv2, Hst2. rewrite Hv2. simpl. subst st2.
  eexists. split; [reflexivity|]. simpl. split; [done|].
  split; [by rewrite destroy_idempotent|].
  intros Hl Hr Hw. rewrite (unlock_local _ _ _ Hl Hw). simpl.
  split; [done|]. by apply isLocked_released.
Qed.


(** X12.  [endSession] always settles.  It resolves only with the
    session slot emptied.  It is rejected in two cases only: without a
    session, where the promise is rejected with [null] while the callback
    receives [INVALID_SESSION] and nothing changes; and with a session
    that validates when [unlock] fails, where the session stays in
    place. *)
Theorem endSession_outcomes (now now' : Z) (d : Dev) :
  match endSession now now' d with
  | (Resolved _, cb, d') => cb = None ∧ session d' = None ∧ session d ≠ None
  | (Rejected e, cb, d') =>
      (session d = None ∧ e = NotAnError VNull ∧ cb = Some INVALID_SESSION ∧ d' = d)
      ∨ (∃ r, session d = Some r ∧
              truthy (DeviceSession.validate r now (store d)).1 = true ∧
              (unlock (lockState d)).1 = Rejected e ∧ cb = Some e ∧
              session d' = Some r)
  | (Pending, _, _) | (Uncaught _, _, _) => False
  end.
Proof.
  unfold BaseDevice.endSession. destruct (session d) as [r|] eqn:Hs.
  2: { left. done. }
  destruct (truthy (DeviceSession.validate r now (store d)).1) eqn:Hv.
  - destruct (DeviceSession.validate r now (store d)) as [v1 st1] eqn:E.
    simpl in Hv. rewrite Hv. simpl.
    unfold BaseDevice.unlock, settle.
    destruct (writeLock _ _ false (lockState d)) as [[e|] l'] eqn:Ew; simpl.
    + right. exists r. repeat split; try done. by rewrite E.
    + done.
  - destruct (validate_twice_falsy r now now' (store d) Hv) as [Hv2 _].
    destruct (DeviceSession.validate r now (store d)) as [v1 st1].
    simpl in Hv, Hv2. rewrite Hv.
    destruct (DeviceSession.validate r now' st1) as [v2 st2].
    simpl in Hv2. rewrite Hv2. simpl. done.
Qed.


End DeviceSessions.

(** ** Storage, device objects and discovery *)

Section Purging.
Import Js BaseDevice.

Variable process_pid : N.
Variable getProcessPathByPID : option Z → bool.
Variable localStorage tempStorage : string.

Local Abbreviation isLocked := (isLocked process_pid getProcessPathByPID).
Local Abbreviation purgeLocalStorage :=
  (purgeLocalStorage process_pid getProcessPathByPID localStorage tempStorage).
Local Abbreviation purgeTempStorage :=
  (purgeTempStorage process_pid getProcessPathByPID tempStorage).

(** X14.  [purgeLocalStorage] and [purgeTempStorage] touch the file
    system only on a device that [isBooted] reports as not booted, without
    an error, and that [isLocked] reports as unlocked.  When [isBooted]
    fails or reports a booted device, the promise is rejected with
    [undefined].  When they resolve, both file system calls went through:
    the removal of the directory and [mkdirs] of the temporary directory;
    after [purgeLocalStorage] the lock file is gone. *)
Theorem purge_only_when_shut_down_and_unlocked
    (isBooted : Dev → option Error * bool * Dev)
    (removed made : option Error) (d : Dev) (temp : bool) :
  let '(res, ops, d') :=
    if temp then purgeTempStorage isBooted removed made d
    else purgeLocalStorage isBooted removed made d in
  (ops ≠ [] →
     ∃ d1 l', isBooted d = (None, false, d1) ∧
              isLocked (lockState d1) = (Resolved false, l')) ∧
  (is_Some (isBooted d).1.1 ∨ (isBooted d).1.2 = true →
     res = Rejected (NotAnError VUndefined) ∧ d' = (isBooted d).2) ∧
  (res = Resolved tt →
     removed = None ∧ made = None ∧
     ops = [Remove (if temp then tempStorage else localStorage); Mkdirs tempStorage] ∧
     (temp = false → lockFile (lockState d') = None)).
Proof.
  destruct temp; unfold BaseDevice.purgeTempStorage, BaseDevice.purgeLocalStorage, purge;
    destruct (isBooted d) as [[[e|] [|]] d1]; simpl;
    try (split; [done|]; split; [done|]; discriminate);
    try (split; [done|]; split; [intros [[? [=]]|[=]]|discriminate]).
  all: destruct (BaseDevice.isLocked _ _ (lockState d1)) as [[[|]| | |] l'] eqn:Hl;
    try (split; [done|]; split; [intros [[? [=]]|[=]]|discriminate]).
  all: destruct removed, made; simpl;
    (split; [intros _; eauto|]; split; [intros [[? [=]]|[=]]|]);
    try discriminate; intros _; repeat split; done.
Qed.

End Purging.

Section DeviceObjects.
Import Js BaseDevice.

Lemma missing_simulator (o : Device) :
  (∀ b, members o !! "simulator" ≠ Some (Field (VBool b))) →
  missingDeviceProperty o {| type := "boolean"; name := "simulator" |} = true.
Proof.
  intros Hb. unfold missingDeviceProperty. simpl.
  destruct (members o !! "simulator") as [[| |v]|]; simpl; try done.
  destruct v; simpl; try done. by destruct (Hb b).
Qed.

Lemma not_valid_without_simulator (o : Device) :
  (∀ b, members o !! "simulator" ≠ Some (Field (VBool b))) →
  Index.isValidDevice o = false.
Proof.
  intros Hb. apply bool_decide_eq_false. unfold deviceIsValid.
  destruct (isBaseDevice o); cbn [negb]; [|done]. intros [= H].
  apply app_nil in H as [_ H]. apply fmap_nil_inv in H.
  eapply (filter_nil_not_elem_of _ _ {| type := "boolean"; name := "simulator" |}) in H.
  - apply H. unfold REQUIRED_PROPERTIES. rewrite !elem_of_cons. tauto.
  - by apply missing_simulator.
Qed.

(** The object an [inr] holds. *)
Ltac built H o :=
  apply (f_equal (λ x, match x with inr o' => o' | inl _ => o end)) in H;
  cbv beta iota in H; subst o.

(** X15.  The object [getAllDevices] builds for a physical Android
    device fails [deviceIsValid]: it lacks the methods [boot] and
    [shutdown] and the properties [sdk] and [simulator], since the
    constructor stores [false || null] and [null || null].  Whatever is
    assigned to its other properties later, an object with this [simulator]
    property is not valid. *)
Theorem android_physical_device_is_never_valid (name md5 storage : string) (o : Device) :
  AndroidDevice.newPhysicalDevice name md5 storage = inr o →
  name ≠ "" →
  deviceIsValid o
  = VArray ["Method: boot"; "Method: shutdown"; "Property: sdk"; "Property: simulator"] ∧
  ∀ o', members o' !! "simulator" = members o !! "simulator" →
        Index.isValidDevice o' = false.
Proof.
  unfold AndroidDevice.newPhysicalDevice, AndroidDevice.construct, construct.
  destruct md5 as [|c md5]; [discriminate|]. cbn [truthy negb String.eqb].
  intros Ho Hname. built Ho o. destruct name as [|c' name]; [done|]. split.
  - vm_compute. reflexivity.
  - intros o' Ho'. apply not_valid_without_simulator. intros b. rewrite Ho'.
    vm_compute. discriminate.
Qed.

(** X16.  A new emulator object built from a [config.ini] by
    [generateEmulatorObjectFromIni] passes [deviceIsValid] exactly when
    [getAvailableSimulators] found the API level in the emulator's [.ini]
    file and assigned [sdk]; without it the object misses the property
    [sdk]. *)
Theorem android_emulator_is_valid_iff_sdk_is_known
    (name id : option string) (storage : string) (emu : Device) (sdk : option string) :
  AndroidEmulatorDevice.generateEmulatorObjectFromIni name id storage = Some (inr emu) →
  deviceIsValid (AndroidEmulatorDevice.setSdk sdk emu)
  = VArray (match sdk with Some _ => [] | None => ["Property: sdk"] end).
Proof.
  unfold AndroidEmulatorDevice.generateEmulatorObjectFromIni,
    AndroidEmulatorDevice.construct, AndroidDevice.construct, construct.
  destruct name as [[|c name]|], id as [[|c' id]|];
    cbn [truthy negb String.eqb and]; try discriminate.
  intros Ho. apply (inj Some) in Ho. built Ho emu.
  destruct sdk as [v|]; vm_compute; reflexivity.
Qed.

End DeviceObjects.

Section Discovering.
Import Js BaseDevice Index.

Variable require : string → Required.
Variable resolve : string → string.
Variable notAFunction : string.
Variable toString : Device → string.

Local Abbreviation loadDrivers := (loadDrivers require resolve).
Local Abbreviation listed getListOnly total answers :=
  ((λ d : Device, if getListOnly : bool then inr (toString d) else inl d)
     <$> filter (λ d, isValidDevice d = true)
           (foldl collect [] (take total answers))).
Local Abbreviation answering method calls :=
  (∀ d call, (d, call) ∈ calls →
     instanceofFunction (get d method) = true ∧ thrown call = None).
Local Abbreviation answersDuring calls :=
  (concat ((λ c : Class * Call, during c.2) <$> calls)).

Lemma onAnswers_run getListOnly (total : nat) answers : ∀ s : Progress,
  let s' := foldl (onAnswer getListOnly toString total) s answers in
  count s' = (count s + length answers)%nat ∧
  deviceList s' = foldl collect (deviceList s) answers ∧
  if decide (count s < total ≤ count s + length answers)%nat then
    let valid := (λ d : Device, if getListOnly then inr (toString d) else inl d)
                   <$> filter (λ d, isValidDevice d = true)
                         (foldl collect (deviceList s)
                            (take (total - count s) answers)) in
    calledBack s' = Some valid ∧
    promise s' = match promise s with Pending => Resolved valid | p => p end
  else calledBack s' = calledBack s ∧ promise s' = promise s.
Proof.
  induction answers as [|answer rest IH]; intros s; simpl.
  - split; [lia|]. split; [done|].
    destruct (decide (count s < total ≤ count s + 0)%nat); [lia|done].
  - specialize (IH (onAnswer getListOnly toString total s answer)).
    set (s1 := onAnswer getListOnly toString total s answer) in *.
    assert (count s1 = S (count s)) as Hc1.
    { unfold s1, onAnswer. by destruct (bool_decide _). }
    assert (deviceList s1 = collect (deviceList s) answer) as Hl1.
    { unfold s1, onAnswer. by destruct (bool_decide _). }
    destruct IH as (Hc & Hl & Hp). rewrite Hc1 in Hc, Hp. rewrite Hl1 in Hl, Hp.
    split; [lia|]. split; [done|].
    destruct (decide (S (count s) = total)) as [Heq|Hne].
    + destruct (decide (S (count s) < total ≤ S (count s) + length rest)%nat); [lia|].
      destruct (decide (count s < total ≤ count s + S (length rest))%nat); [|lia].
      replace (total - count s)%nat with 1%nat by lia. simpl.
      destruct Hp as [-> ->]. unfold s1, onAnswer.
      rewrite bool_decide_eq_true_2 by done. simpl. split; [done|].
      by destruct (promise s).
    + assert (calledBack s1 = calledBack s ∧ promise s1 = promise s) as [Hcb1 Hp1].
      { unfold s1, onAnswer. by rewrite bool_decide_eq_false_2 by done. }
      rewrite Hcb1, Hp1 in Hp.
      destruct (decide (S (count s) < total ≤ S (count s) + length rest)%nat),
               (decide (count s < total ≤ count s + S (length rest))%nat);
        try lia; [|done].
      by replace (total - count s)%nat with (S (total - S (count s))) by lia.
Qed.

Lemma each_answering method getListOnly (total : nat) calls : ∀ s,
  answering method calls →
  each notAFunction method getListOnly toString total calls s
  = foldl (onAnswer getListOnly toString total) s (answersDuring calls).
Proof.
  induction calls as [|[d call] rest IH]; intros s Hok; simpl; [done|].
  destruct (Hok d call) as [-> ->]; [apply elem_of_cons; auto|].
  rewrite foldl_app. apply IH. intros d' call' Hin. apply Hok, elem_of_cons; auto.
Qed.

Lemma each_stops method getListOnly (total : nat) before d call after : ∀ s,
  answering method before →
  each notAFunction method getListOnly toString total (before ++ (d, call) :: after) s
  = if instanceofFunction (get d method) then
      match thrown call with
      | Some e =>
          settleWith (Rejected e)
            (foldl (onAnswer getListOnly toString total) s
               (answersDuring before ++ during call))
      | None =>
          each notAFunction method getListOnly toString total after
            (foldl (onAnswer getListOnly toString total) s
               (answersDuring before ++ during call))
      end
    else settleWith (Rejected (TypeError notAFunction))
           (foldl (onAnswer getListOnly toString total) s (answersDuring before)).
Proof.
  induction before as [|[d' call'] rest IH]; intros s Hok; simpl.
  - destruct (instanceofFunction _); [|done]. by destruct (thrown call).
  - destruct (Hok d' call') as [-> ->]; [apply elem_of_cons; auto|].
    rewrite IH by (intros ? ? ?; apply Hok, elem_of_cons; auto).
    by rewrite <- !app_assoc, !foldl_app.
Qed.

Lemma discover_stopped getListOnly (total : nat) answers later e :
  (0 < total)%nat →
  let s := foldl (onAnswer getListOnly toString total)
             (settleWith (Rejected e)
                (foldl (onAnswer getListOnly toString total)
                   {| count := 0; deviceList := []; promise := Pending;
                      calledBack := None |} answers)) later in
  (promise s, calledBack s)
  = (if decide (total ≤ length answers)%nat
     then Resolved (listed getListOnly total answers) else Rejected e,
     if decide (total ≤ length (answers ++ later))%nat
     then Some (listed getListOnly total (answers ++ later)) else None).
Proof.
  intros Hpos.
  set (s0 := {| count := 0; deviceList := []; promise := Pending; calledBack := None |}).
  destruct (onAnswers_run getListOnly total answers s0) as (Hc & Hl & Hp).
  set (s1 := foldl _ s0 answers) in *.
  destruct (onAnswers_run getListOnly total later (settleWith (Rejected e) s1))
    as (_ & _ & Hq).
  set (s2 := foldl _ (settleWith (Rejected e) s1) later) in *.
  simpl in Hc, Hl, Hp, Hq. rewrite Hc, Hl in Hq. rewrite length_app.
  rewrite Nat.sub_0_r in Hp. simpl. f_equal.
  - destruct (decide (0 < total ≤ length answers)%nat) as [Hin|Hout].
    + destruct Hp as [Hcb Hpr]. rewrite decide_True by lia.
      destruct (decide (length answers < total ≤ _)%nat); [lia|].
      destruct Hq as [_ ->]. by rewrite Hpr.
    + destruct Hp as [Hcb Hpr]. rewrite decide_False by lia.
      destruct (decide (length answers < total ≤ _)%nat) as [Hin'|Hout'].
      * destruct Hq as [_ ->]. by rewrite Hpr.
      * destruct Hq as [_ ->]. by rewrite Hpr.
  - destruct (decide (0 < total ≤ length answers)%nat) as [Hin|Hout].
    + destruct Hp as [Hcb Hpr]. rewrite decide_True by lia.
      destruct (decide (length answers < total ≤ _)%nat); [lia|].
      destruct Hq as [-> _]. rewrite Hcb. do 3 f_equal.
      rewrite take_app_le by lia. done.
    + destruct Hp as [Hcb Hpr].
      destruct (decide (length answers < total ≤ _)%nat) as [Hin'|Hout'].
      * destruct Hq as [-> _]. rewrite decide_True by lia. do 3 f_equal.
        rewrite take_app_ge by lia. by rewrite foldl_app.
      * destruct Hq as [-> _]. rewrite decide_False by lia. by rewrite Hcb.
Qed.

(** X17.  [discover] asks every registered driver for its devices, in
    turn, inside the executor of the promise it returns.  When every
    driver has the method asked for and none throws, the promise resolves
    once as many answers have come in as there are drivers, with the
    devices of the answers that came without an error up to then, in the
    order they came, filtered by [deviceIsValid] (their [toString()] with
    [getListOnly]); [done] gets the same array; with no driver, or fewer
    answers than drivers, the promise stays pending and [done] is not
    called.  A registered driver that lacks the method, or whose method
    throws, ends the round: the promise is rejected with that exception
    (a TypeError for the missing method) unless enough answers had come
    in before, the drivers after it are not asked, and [done] is still
    called with a list, and no error, if the answers that come later make
    up the number. *)
Theorem discover_lists_the_valid_devices (onlyReturnAvailable getListOnly : Val)
    (calls : list (Class * Call))
    (later : list (option Error * option (list Device))) :
  let method := if booleanOr true onlyReturnAvailable then "getAvailableDevices"
                else "getAllDevices" in
  let names := booleanOr false getListOnly in
  let total := length calls in
  let outcome := discover notAFunction onlyReturnAvailable getListOnly toString
                   calls later in
  (answering method calls →
     let answers := (answersDuring calls ++ later)%list in
     outcome = if decide (0 < total ≤ length answers)%nat
               then (Resolved (listed names total answers),
                     Some (listed names total answers))
               else (Pending, None)) ∧
  (∀ before d call after, calls = (before ++ (d, call) :: after)%list →
     answering method before →
     instanceofFunction (get d method) = false →
     let answers := answersDuring before in
     outcome
     = (if decide (total ≤ length answers)%nat
        then Resolved (listed names total answers)
        else Rejected (TypeError notAFunction),
        if decide (total ≤ length (answers ++ later))%nat
        then Some (listed names total (answers ++ later)%list) else None)) ∧
  (∀ before d call after e, calls = (before ++ (d, call) :: after)%list →
     answering method before →
     instanceofFunction (get d method) = true → thrown call = Some e →
     let answers := (answersDuring before ++ during call)%list in
     outcome
     = (if decide (total ≤ length answers)%nat
        then Resolved (listed names total answers)
        else Rejected e,
        if decide (total ≤ length (answers ++ later))%nat
        then Some (listed names total (answers ++ later)%list) else None)).
Proof.
  intros method names total outcome. split; [|split].
  - intros Hok answers. unfold outcome, discover. fold method names total.
    rewrite each_answering by done. rewrite <- foldl_app. fold answers.
    destruct (onAnswers_run names total answers
                {| count := 0; deviceList := []; promise := Pending;
                   calledBack := None |}) as (_ & _ & Hp).
    simpl in Hp. rewrite Nat.sub_0_r in Hp.
    destruct (decide (0 < total ≤ length answers)%nat); by destruct Hp as [-> ->].
  - intros before d call after Hcalls Hok Hno answers.
    unfold outcome, discover. fold method names total. rewrite Hcalls.
    rewrite each_stops by done. rewrite Hno.
    apply discover_stopped. unfold total. rewrite Hcalls, length_app. simpl. lia.
  - intros before d call after e Hcalls Hok Hyes Hthrown answers.
    unfold outcome, discover. fold method names total. rewrite Hcalls.
    rewrite each_stops by done. rewrite Hyes, Hthrown.
    apply discover_stopped. unfold total. rewrite Hcalls, length_app. simpl. lia.
Qed.

(** X18.  Loading the drivers of the configuration either registers every
    path under what its module exports, which happens exactly when every
    module loads and exports a function, or throws at the first path
    whose module does not: the exception of [require] itself when the
    module cannot be loaded, the error that names the resolved path when
    the module exports a value that is no function, and the TypeError of
    the engine, which names no path, when it exports [null] or
    [undefined]. *)
Theorem loadDrivers_stops_at_first_non_function (drivers : gmap string Class)
    (paths : list string) :
  match loadDrivers drivers paths with
  | inr registered =>
      (∀ p, p ∈ paths → ∃ c, require p = Exports c ∧ isFunction c = true) ∧
      ∀ p, registered !! p
           = if decide (p ∈ paths) then
               match require p with Exports c => Some c | _ => None end
             else drivers !! p
  | inl e =>
      ∃ before p after, paths = (before ++ p :: after)%list ∧
        (∀ q, q ∈ before → ∃ c, require q = Exports c ∧ isFunction c = true) ∧
        match require p with
        | Throws e' => e = e'
        | ExportsNull => e = TypeError "Cannot read property 'name' of null"
        | ExportsUndefined => e = TypeError "Cannot read property 'name' of undefined"
        | Exports c => isFunction c = false ∧ e = invalidDriver resolve p c
        end
  end.
Proof.
  revert drivers. induction paths as [|p rest IH]; intros drivers; simpl.
  - split; [intros p Hp; by apply elem_of_nil in Hp|].
    intros p. destruct (decide (p ∈ [])) as [Hp|]; [by apply elem_of_nil in Hp|done].
  - unfold loadDriver.
    destruct (require p) as [e'| | |c] eqn:Hreq;
      try (exists [], p, rest; split; [done|]; split;
             [intros q Hq; by apply elem_of_nil in Hq|by rewrite Hreq]).
    rewrite truthy_deviceTypeIsValid.
    destruct (isFunction c) eqn:Hf.
    + specialize (IH (<[p:=c]> drivers)).
      destruct (Index.loadDrivers _ _ _ rest) as [e|registered].
      * destruct IH as (before & q & after & -> & Hb & Hq).
        exists (p :: before), q, after. split; [done|]. split; [|done].
        intros q' [->|Hq']%elem_of_cons; eauto.
      * destruct IH as [Hall Hreg]. split.
        { intros q [->|Hq]%elem_of_cons; eauto. }
        intros q. rewrite Hreg.
        destruct (decide (q ∈ rest)) as [Hin|Hout].
        { rewrite decide_True by (apply elem_of_cons; auto).
          destruct (Hall q Hin) as (c' & -> & _). done. }
        destruct (decide (q = p)) as [->|Hne].
        { rewrite decide_True by (apply elem_of_cons; auto).
          by rewrite lookup_insert_eq, Hreq. }
        rewrite lookup_insert_ne by done.
        rewrite decide_False; [done|]. intros [->|?]%elem_of_cons; done.
    + exists [], p, rest. split; [done|]. split.
      * intros q Hq. by apply elem_of_nil in Hq.
      * by rewrite Hreq.
Qed.

End Discovering.

Section Availability.
Import Js BaseDevice.

Variable process_pid : N.
Variable getProcessPathByPID : option Z → bool.

Local Abbreviation getAvailableDevices :=
  (AndroidDevice.getAvailableDevices process_pid getProcessPathByPID).
Local Abbreviation eachIsAvailable :=
  (AndroidDevice.eachIsAvailable process_pid getProcessPathByPID).

Lemma isAvailable_answers d a d' :
  isAvailable process_pid getProcessPathByPID d = (Resolved a, d') →
  session d ≠ None.
Proof. unfold isAvailable. destruct (session d); [done|discriminate]. Qed.

Lemma eachIsAvailable_resolved (total : nat) devices :
  ∀ (count : nat) available l,
  eachIsAvailable total count available devices = Resolved l →
  (total ≤ count + length devices)%nat ∧
  (total = (count + length devices)%nat → ∀ d, d ∈ devices → session d ≠ None).
Proof.
  induction devices as [|d rest IH]; intros count available l; simpl; [done|].
  destruct (isAvailable _ _ d) as [[a| | |] d'] eqn:Ha.
  - destruct (decide (S count = total)) as [<-|Hne].
    + rewrite bool_decide_eq_true_2 by done. intros _. split; [lia|].
      intros Hlen d0 [->|Hd0]%elem_of_cons; [by eapply isAvailable_answers|].
      destruct rest; [by apply elem_of_nil in Hd0|simpl in Hlen; lia].
    + rewrite bool_decide_eq_false_2 by done. intros H.
      apply IH in H as [Hle Hall]. split; [lia|].
      intros Hlen d0 [->|Hd0]%elem_of_cons; [by eapply isAvailable_answers|].
      apply Hall; [lia|done].
  - intros H. apply IH in H as [Hle _]. split; [lia|]. lia.
  - intros H. apply IH in H as [Hle _]. split; [lia|]. lia.
  - intros H. apply IH in H as [Hle _]. split; [lia|]. lia.
Qed.

(** X19.  [getAvailableDevices] resolves only when the list of all
    devices is not empty and every device in it has a session: for a
    device without one [isAvailable] never runs its callback, so the count
    never reaches the total. *)
Theorem getAvailableDevices_needs_sessions (devices l : list Dev) :
  getAvailableDevices (inr devices) = Resolved l →
  devices ≠ [] ∧ ∀ d, d ∈ devices → session d ≠ None.
Proof.
  unfold AndroidDevice.getAvailableDevices. intros H. split.
  - intros ->. discriminate.
  - apply eachIsAvailable_resolved in H as [_ Hall]. by apply Hall.
Qed.

End Availability.

(** ** Android operations *)

Section AndroidOperations.
Import Js BaseDevice.

Variable ANDROID_SDK_ADB : string.
Variable process_pid : N.
Variable getProcessPathByPID : option Z → bool.
Variable toString : Val → string.

Local Abbreviation guarded := (AndroidDevice.guarded process_pid getProcessPathByPID).
Local Abbreviation rotateTo :=
  (AndroidDevice.rotateTo ANDROID_SDK_ADB process_pid getProcessPathByPID toString).
Local Abbreviation performKeyEvent :=
  (AndroidDevice.performKeyEvent ANDROID_SDK_ADB process_pid getProcessPathByPID).
Local Abbreviation passes listed :=
  (passes process_pid getProcessPathByPID (AndroidDevice.isBooted listed)).

(** The guards of an Android device hand no command of the device's own
    to [child_process] (the one thing they may run is the listing of the
    running devices that [isBooted] asks for) and leave the orientation
    and the session slot alone.  When they stop the operation
    it is rejected, or, for another session object than the device's,
    left pending. *)
Lemma android_guard_frame {A : Type} listed (session : Val) (now : Z)
    (action : Dev → Settled Error A * Dev) (d : Dev) :
  (∃ d3, guarded listed session now action d = action d3 ∧
         execLog d3 = execLog d ∧ orientation d3 = orientation d ∧
         BaseDevice.session d3 = BaseDevice.session d) ∨
  (∃ x d', guarded listed session now action d = (x, d') ∧
           ((∃ e, x = Rejected e) ∨
            (x = Pending ∧ ∃ r, BaseDevice.session d = Some r ∧ session ≠ VSession r)) ∧
           execLog d' = execLog d ∧ orientation d' = orientation d ∧
           BaseDevice.session d' = BaseDevice.session d).
Proof.
  unfold AndroidDevice.guarded, ifBootedAndAvailableDoWithSessionOrReject.
  destruct (instanceofDeviceSession session), (BaseDevice.session d) as [r|] eqn:Hs;
    try (right; eexists _, _; split; [reflexivity|]; split; [left; eexists; reflexivity|]; repeat split; simpl; congruence).
  unfold DeviceSession.compareAndValidate, DeviceSession.compare.
  destruct (decide (session = VSession r)) as [->|Hne].
  2: { rewrite bool_decide_eq_false_2 by done.
       right; eexists _, _; split; [reflexivity|]; split; [right; eauto|]; repeat split; simpl; congruence. }
  rewrite bool_decide_eq_true_2 by done.
  destruct (DeviceSession.validate r now (store d)) as [isValid st'].
  destruct (negb (truthy isValid));
    try (right; eexists _, _; split; [reflexivity|]; split; [left; eexists; reflexivity|]; repeat split; simpl; congruence).
  destruct (readLock _ _ _) as [[lk|e v'] l'];
    try (right; eexists _, _; split; [reflexivity|]; split; [left; eexists; reflexivity|]; repeat split; simpl; congruence).
  destruct (negb (locked lk) || _);
    try (right; eexists _, _; split; [reflexivity|]; split; [left; eexists; reflexivity|]; repeat split; simpl; congruence).
  unfold AndroidDevice.isBooted.
  destruct listed as [e|[[s [|]]|]]; simpl;
    try (right; eexists _, _; split; [reflexivity|]; split; [left; eexists; reflexivity|]; repeat split; simpl; congruence).
  left. eexists. split; [reflexivity|]. repeat split; simpl; congruence.
Qed.






Local Abbreviation pressKey :=
  (AndroidEmulatorDevice.pressKey ANDROID_SDK_ADB process_pid getProcessPathByPID).
Local Abbreviation lockScreen :=
  (AndroidEmulatorDevice.lockScreen ANDROID_SDK_ADB process_pid getProcessPathByPID).
Local Abbreviation pressHomeKey :=
  (AndroidEmulatorDevice.pressHomeKey ANDROID_SDK_ADB process_pid getProcessPathByPID).

(** The inner call of [performKeyEvent] is turned down at once: the key
    is no session. *)
Lemma pressKey_unfold key session now listed now' listed' r' d :
  pressKey key session now listed now' listed' r' d
  = guarded listed session now (λ d, (Rejected INVALID_SESSION, d)) d.
Proof. reflexivity. Qed.

Lemma pressKey_never_succeeds key session now listed now' listed' r' d :
  (∀ x, (pressKey key session now listed now' listed' r' d).1 ≠ Resolved x) ∧
  execLog (pressKey key session now listed now' listed' r' d).2 = execLog d ∧
  ∀ d3, passes listed session now d d3 →
    pressKey key session now listed now' listed' r' d = (Rejected INVALID_SESSION, d3).
Proof.
  rewrite pressKey_unfold.
  destruct (android_guard_frame listed session now
      (λ d, (Rejected INVALID_SESSION : Settled Error unit, d)) d)
    as [(d3 & Hg & He & _)|(x & d' & Hg & [[e ->]|[-> _]] & He & _)];
    rewrite Hg; simpl; (split; [discriminate|]); (split; [done|]);
    intros d4 Hp; rewrite <- Hg; apply Hp.
Qed.

(** X22.  [lockScreen] and [pressHomeKey] of an Android emulator
    never resolve and never send a key event.  When the guards pass they
    are rejected with [INVALID_SESSION], because they hand the key code to
    [performKeyEvent] in the place of the session. *)
Theorem emulator_key_presses_never_succeed (session : Val) (now : Z)
    (listed : Error + option AndroidDevice.RunningDevice) (now' : Z)
    (listed' : Error + option AndroidDevice.RunningDevice) (r' : ExecResult) (d : Dev) :
  ((∀ x, (lockScreen session now listed now' listed' r' d).1 ≠ Resolved x) ∧
   execLog (lockScreen session now listed now' listed' r' d).2 = execLog d ∧
   ∀ d3, passes listed session now d d3 →
     lockScreen session now listed now' listed' r' d = (Rejected INVALID_SESSION, d3)) ∧
  ((∀ x, (pressHomeKey session now listed now' listed' r' d).1 ≠ Resolved x) ∧
   execLog (pressHomeKey session now listed now' listed' r' d).2 = execLog d ∧
   ∀ d3, passes listed session now d d3 →
     pressHomeKey session now listed now' listed' r' d = (Rejected INVALID_SESSION, d3)).
Proof. split; apply pressKey_never_succeeds. Qed.

End AndroidOperations.

Section PortsAndBootWait.
Import Js AndroidDevice.

Lemma filter_from_shrinks (ports : list Z) (p : Z) :
  (length (filter (λ x : Z, (p + 2 ≤ x)%Z) ports) ≤ length (filter (λ x : Z, (p ≤ x)%Z) ports))%nat ∧
  (p ∈ ports →
   (length (filter (λ x : Z, (p + 2 ≤ x)%Z) ports) < length (filter (λ x : Z, (p ≤ x)%Z) ports))%nat).
Proof.
  induction ports as [|x rest [IH1 IH2]]; [split; [done|by intros ?%elem_of_nil]|].
  rewrite !filter_cons. split.
  - destruct (decide (p + 2 ≤ x)), (decide (p ≤ x)); simpl; lia.
  - intros [->|Hin]%elem_of_cons.
    + destruct (decide (x + 2 ≤ x)), (decide (x ≤ x)); simpl; lia.
    + specialize (IH2 Hin).
      destruct (decide (p + 2 ≤ x)), (decide (p ≤ x)); simpl; lia.
Qed.

Lemma nextFree_spec (fuel : nat) :
  ∀ ports p, (length (filter (λ x : Z, (p ≤ x)%Z) ports) < fuel)%nat →
  ∃ k : nat, nextFree fuel ports p = Some (p + 2 * Z.of_nat k) ∧
    (p + 2 * Z.of_nat k ∉ ports) ∧
    ∀ j : nat, (j < k)%nat → p + 2 * Z.of_nat j ∈ ports.
Proof.
  induction fuel as [|fuel IH]; intros ports p Hlen; [lia|]. simpl.
  destruct (decide (p ∈ ports)) as [Hin|Hout].
  - rewrite bool_decide_eq_true_2 by done.
    destruct (IH ports (p + 2)) as (k & Hk & Hfree & Hused).
    { destruct (filter_from_shrinks ports p) as [_ Hlt]. specialize (Hlt Hin). lia. }
    exists (S k). replace (p + 2 * Z.of_nat (S k)) with (p + 2 + 2 * Z.of_nat k) by lia.
    split; [done|]. split; [done|]. intros [|j] Hj.
    + by replace (p + 2 * Z.of_nat 0) with p by lia.
    + replace (p + 2 * Z.of_nat (S j)) with (p + 2 + 2 * Z.of_nat j) by lia.
      apply Hused. lia.
  - rewrite bool_decide_eq_false_2 by done. exists 0%nat.
    replace (p + 2 * Z.of_nat 0) with p by lia. split; [done|]. split; [done|].
    intros j Hj. lia.
Qed.

(** X23.  Given the ports in use, [findFirstAvailablePort]
    always settles.  The port it finds is the first of 5554, 5556, 5558,
    ... that is not in use; it resolves with that port when it is at most
    5680 and is rejected with "Too many emulators ports in use ..."
    otherwise. *)
Theorem findFirstAvailablePort_is_least_free (ports : list Z) :
  ∃ k : nat,
    let port := STARTING_PORT + 2 * Z.of_nat k in
    (port ∉ ports) ∧
    (∀ j : nat, (j < k)%nat → STARTING_PORT + 2 * Z.of_nat j ∈ ports) ∧
    findFirstAvailablePort (inr ports)
    = if 5680 <? port then
        Rejected (NewError "Too many emulators ports in use — no available ports!")
      else Resolved port.
Proof.
  destruct (nextFree_spec (S (length ports)) ports STARTING_PORT) as (k & Hk & Hfree & Hused).
  { pose proof (length_filter (λ x, STARTING_PORT ≤ x) ports). lia. }
  exists k. cbv zeta. split; [done|]. split; [done|].
  unfold findFirstAvailablePort. by rewrite Hk.
Qed.

Local Abbreviation timedOut := (NewError "Device boot time has exceeded the boot timeout").

(** X24.  [waitForDeviceToFinishBooting] resolves at the first poll
    whose trimmed output is ["1"], and only there.  It is rejected at the
    first poll with another output that comes back when the timeout
    (180000 ms unless given) has gone by, with the error of that poll or
    the error "Device boot time has exceeded the boot timeout".  Until
    then a poll that fails is followed by the next one. *)
Theorem waitForDeviceToFinishBooting_outcomes (timeout : option Z) (start : Z)
    (polls : list (ExecResult * Z)) :
  let limit := from_option id 180000 timeout in
  let waiting (p : ExecResult * Z) :=
    BaseDevice.trim (stdout p.1) ≠ "1" ∧ p.2 - start < limit in
  match waitForDeviceToFinishBooting timeout start polls with
  | Resolved _ =>
      ∃ before r now after, polls = (before ++ (r, now) :: after)%list ∧
        Forall waiting before ∧ BaseDevice.trim (stdout r) = "1"
  | Rejected e =>
      ∃ before r now after, polls = (before ++ (r, now) :: after)%list ∧
        Forall waiting before ∧ BaseDevice.trim (stdout r) ≠ "1" ∧
        limit ≤ now - start ∧ e = from_option id timedOut (err r)
  | Pending => Forall waiting polls
  | Uncaught _ => False
  end.
Proof.
  intros limit waiting. unfold waitForDeviceToFinishBooting.
  change (from_option id WAIT_FOR_BOOT_TIMEOUT timeout) with limit.
  induction polls as [|[r now] rest IH]; simpl; [done|].
  destruct (decide (BaseDevice.trim (stdout r) = "1")) as [Hb|Hb].
  { rewrite bool_decide_eq_true_2 by done. by exists [], r, now, rest. }
  rewrite bool_decide_eq_false_2 by done.
  destruct (now - start <? limit) eqn:Hlt.
  - apply Z.ltb_lt in Hlt.
    assert (Hw : waiting (r, now)) by done.
    destruct (waitForBoot start limit rest) as [[]|e| |e].
    + destruct IH as (before & r' & now' & after & -> & Hbefore & Hr').
      exists ((r, now) :: before), r', now', after. auto.
    + destruct IH as (before & r' & now' & after & -> & Hbefore & Hr').
      exists ((r, now) :: before), r', now', after. auto.
    + by constructor.
    + done.
  - apply Z.ltb_ge in Hlt. exists [], r, now, rest. auto.
Qed.

End PortsAndBootWait.

(** ** Walks and the iOS boot *)

Section Walks.
Import Js Discovery AndroidDevice.

Context {R W : Type}.
Variable emptyCache : R.
Variable ANDROID_EMULATOR_HOME : string.
Variable ANDROID_SDK_ADB : string.

Local Abbreviation getAvailableSimulators :=
  (getAvailableSimulators (W:=W) emptyCache ANDROID_EMULATOR_HOME).
Local Abbreviation onServerKilled :=
  (onServerKilled (W:=W) emptyCache ANDROID_SDK_ADB).

(** What the walk hands to a queued caller when it has looked at every
    file: a rejected promise, and a callback without an error. *)
Local Abbreviation listedAnswer emulators :=
  (λ o : W, ((o, Rejected (NotAnError VObject), (None, Some emulators)) : @Answer R W)).

Lemma inspectFiles_spec (total : nat) (files : list R) :
  ∀ (inspected : nat) (st : Walk R W),
  (inspected + length files ≤ total)%nat →
  inspectFiles total inspected files st
  = match list.last files with
    | Some emulators =>
        if decide (inspected + length files = total)%nat then
          (listedAnswer emulators <$> queue st,
           {| walking := false; last := Discovery.last st; cache := emulators;
              queue := [] |})
        else ([], st)
    | None => ([], st)
    end.
Proof.
  induction files as [|emulators rest IH]; intros inspected st Hle; [done|].
  simpl in Hle. cbn [inspectFiles]. unfold incrementAndCheckTotal.
  destruct (decide (S inspected = total)) as [Heq|Hne].
  - rewrite bool_decide_eq_true_2 by done.
    destruct rest as [|e' rest']; [|simpl in Hle; lia]. simpl.
    rewrite decide_True by lia. by rewrite app_nil_r.
  - rewrite bool_decide_eq_false_2 by done. rewrite IH by lia.
    rewrite last_cons. destruct (list.last rest) as [e'|] eqn:Hlast; simpl.
    + destruct (decide _), (decide _); try lia; done.
    + apply last_None in Hlast as ->. simpl in *.
      destruct (decide _); [lia|done].
Qed.

(** X25.  The promise [getAvailableSimulators] returns is never
    resolved.  A request never takes the branch that resolves with the
    cache; a walk whose [readdir] fails rejects the promises of the queued
    callers with the error; and a walk that went through rejects them too,
    with the listing, while their callbacks receive [(null, listing)]. *)
Theorem getAvailableSimulators_never_resolves_its_promise :
  (∀ now caller st res, (getAvailableSimulators now caller st).1 ≠ Cached res) ∧
  (∀ e (st : Walk R W) a, a ∈ (readdirFailed e st).1 →
     a.1.2 = Rejected e ∧ a.2 = (Some e, None)) ∧
  (∀ files (st : Walk R W) a, a ∈ (readdirListed files st).1 →
     a.1.2 = Rejected (NotAnError VObject) ∧ a.2 = (None, list.last files)).
Proof.
  split; [|split].
  - intros now caller st res. unfold AndroidDevice.getAvailableSimulators.
    destruct (walking st); simpl; [|discriminate].
    destruct (AVD_DEVICES_TIMEOUT <? now - Discovery.last st); discriminate.
  - intros e st a. unfold readdirFailed. simpl.
    intros (o & -> & _)%list_elem_of_fmap. done.
  - intros files st a. unfold readdirListed.
    rewrite inspectFiles_spec by done.
    destruct (list.last files) as [emulators|]; [|by intros ?%elem_of_nil].
    destruct (decide _); [|by intros ?%elem_of_nil]. simpl.
    intros (o & -> & _)%list_elem_of_fmap. done.
Qed.

(** X26.  With an empty AVD directory a walk of
    [getAvailableSimulators] answers nobody and leaves the walk flag set:
    a request made up to 3000 ms after the walk began is only put in the
    queue, behind the caller that began the walk. *)
Theorem empty_avd_directory_leaves_callers_waiting (now now2 : Z) (caller caller2 : W)
    (st : Walk R W) :
  walking st = false → now2 - now ≤ AVD_DEVICES_TIMEOUT →
  let st1 := (getAvailableSimulators now caller st).2 in
  readdirListed [] st1 = ([], st1) ∧
  getAvailableSimulators now2 caller2 st1
  = (Enqueued,
     {| walking := true; last := now; cache := emptyCache;
        queue := ((queue st ++ [caller]) ++ [caller2])%list |}).
Proof.
  intros Hw Hlt st1. split; [done|]. subst st1.
  unfold AndroidDevice.getAvailableSimulators at 2. rewrite Hw. simpl.
  unfold AndroidDevice.getAvailableSimulators. simpl.
  destruct (Z.ltb_spec AVD_DEVICES_TIMEOUT (now2 - now)); [lia|done].
Qed.

(** X27.  When a request for the running devices comes more than
    3000 ms after a walk began that has not ended, a second [adb devices]
    is run.  The first of the two walks to end settles both callers with
    its own outcome; the other one then finds the queue empty and
    settles nobody. *)
Theorem overlapping_adb_walks_answer_once (t0 t1 : Z) (A B : W)
    (err err' : option Error) (res res' : R) (st : Walk R W) :
  walking st = false → queue st = [] → ADB_RUNNING_TIMEOUT < t1 - t0 →
  let q1 := onServerKilled t0 A st in
  let q2 := onServerKilled t1 B q1.2 in
  let first := executeQueue err res q2.2 in
  let second := executeQueue err' res' first.2 in
  q1.1 = StartedWalk (ADB_GET_RUNNING_DEVICES ANDROID_SDK_ADB) ∧
  q2.1 = StartedWalk (ADB_GET_RUNNING_DEVICES ANDROID_SDK_ADB) ∧
  (∃ outcome, first.1 = [(A, outcome); (B, outcome)] ∧
     outcome = match err with Some e => Rejected e | None => Resolved res end) ∧
  second.1 = [] ∧ walking second.2 = false.
Proof.
  intros Hw Hq Hlt q1 q2 first second. subst second first q2 q1.
  unfold AndroidDevice.onServerKilled. rewrite Hw, Hq. simpl.
  destruct (Z.ltb_spec ADB_RUNNING_TIMEOUT (t1 - t0)); [|lia]. simpl.
  split; [done|]. split; [done|].
  split; [|by destruct err, err'].
  eexists. split; [|reflexivity]. by destruct err.
Qed.

End Walks.

Section iOSBoot.
Import Js BaseDevice iOSSimulatorDevice.

Variable udid : string.

(** A poll that lets [waitForBoot] stop early: no error, and booted. *)
Local Abbreviation reportsBooted :=
  (λ listed : Error + option bool, listed = inr (Some true)).

Lemma isBooted_reports listed d :
  negb (bool_decide (is_Some (isBooted listed d).1.1)) && (isBooted listed d).1.2
  = bool_decide (reportsBooted listed).
Proof. by destruct listed as [e|[[|]|]]. Qed.

Lemma waitForBoot_spec (attempts : nat) polls d :
  ∀ attempt : nat, (attempt ≤ attempts)%nat →
  (attempts - attempt < length polls)%nat →
  waitForBoot attempts attempt polls d
  = if decide (Exists reportsBooted (take (attempts - attempt) polls))
    then Some (None, true)
    else (λ listed, ((isBooted listed d).1.1, false)) <$> polls !! (attempts - attempt)%nat.
Proof.
  induction polls as [|listed rest IH]; intros attempt Hle Hlen; simpl in *; [lia|].
  pose proof (isBooted_reports listed d) as Hrep.
  destruct (isBooted listed d) as [[err booted] d'] eqn:Hb. simpl in Hrep.
  destruct (decide (attempt < attempts)%nat) as [Hlt|Hge].
  - assert ((attempt <? attempts)%nat = true) as -> by by apply Nat.ltb_lt.
    replace (attempts - attempt)%nat with (S (attempts - S attempt)) by lia.
    rewrite Hrep. simpl.
    destruct (decide (reportsBooted listed)) as [Hr|Hr].
    + rewrite bool_decide_eq_true_2 by done.
      rewrite decide_True; [done|]. by constructor.
    + rewrite bool_decide_eq_false_2 by done. rewrite IH by lia.
      destruct (decide (Exists reportsBooted (take (attempts - S attempt) rest)))
        as [He|He].
      * rewrite decide_True; [done|]. by constructor.
      * rewrite decide_False; [done|]. by intros [?|?]%Exists_cons.
  - assert ((attempt <? attempts)%nat = false) as -> by (apply Nat.ltb_ge; lia).
    replace (attempts - attempt)%nat with 0%nat by lia.
    destruct (decide (Exists reportsBooted (take 0 (listed :: rest)))) as [He|_];
      [by apply Exists_nil in He|].
    simpl. by rewrite Hb.
Qed.

(** X28.  [waitForBoot(attempts, done)] of the iOS simulator calls
    back with [(null, true)] exactly when one of the first [attempts] polls
    reports the device booted.  Otherwise it makes one more poll and calls
    back with that poll's error, if any, and [false], whatever that poll
    reports. *)
Theorem ios_waitForBoot_ignores_the_last_poll (attempts : nat)
    (polls : list (Error + option bool)) (d : Dev) :
  (attempts < length polls)%nat →
  waitForBoot attempts 0 polls d
  = if decide (Exists reportsBooted (take attempts polls))
    then Some (None, true)
    else (λ listed, (match listed with inl e => Some e | inr _ => None end, false))
           <$> polls !! attempts.
Proof.
  intros Hlen. rewrite waitForBoot_spec by lia. rewrite Nat.sub_0_r.
  destruct (decide _); [done|].
  destruct (polls !! attempts) as [[e|[b|]]|]; done.
Qed.

(** X29.  [boot] of the iOS simulator waits with
    [waitForBoot(10, ...)] and looks at the error only.  When none of the
    first ten polls reports the device booted and the eleventh comes back
    without an error, [boot] resolves and clears the booting flag. *)
Theorem ios_boot_resolves_though_never_booted (polls : list (Error + option bool))
    (status : option bool) (isBooting : gmap string bool) (d : Dev) :
  Forall (λ listed, ¬ reportsBooted listed) (take 10 polls) →
  polls !! 10%nat = Some (inr status) →
  bootWait udid polls isBooting d
  = (Resolved tt, <[udid := false]> isBooting, exec focus d).
Proof.
  intros Hnone Hlast. unfold bootWait.
  rewrite waitForBoot_spec; [|lia|by apply lookup_lt_Some in Hlast].
  rewrite Nat.sub_0_r. rewrite decide_False.
  - rewrite Hlast. by destruct status as [[|]|].
  - intros He. apply Exists_exists in He as (x & Hx & Hr).
    rewrite Forall_forall in Hnone. by apply (Hnone x).
Qed.

End iOSBoot.

(** ** The further properties at sample values *)

Section MoreSamples.
Import Js BaseDevice Examples.

Local Abbreviation lock0 := (lock 4242 alive).
Local Abbreviation unlock0 := (unlock 4242 alive).
Local Abbreviation isLocked0 := (isLocked 4242 alive).
Local Abbreviation startSession0 := (startSession 4242 alive).
Local Abbreviation endSession0 := (endSession 4242 alive).

(** A lock file on a disk that cannot be written. *)
Local Abbreviation readOnly contents :=
  {| lockFile := Some contents; readError := None; writeError := Some "EROFS";
     localLock := false |}.

Lemma lock_unlock_round_trip_witness :
  let l1 := (lock0 (disk "0.4242")).2 in
  let l2 := (unlock0 l1).2 in
  isLocked0 l1 = (Resolved true, l1) ∧
  lockFile l1 = Some "1.4242" ∧
  unlock0 l1 = (Resolved tt, l2) ∧
  lockFile l2 = Some "0.4242" ∧
  isLocked0 l2 = (Resolved false, l2) ∧
  lock0 l2 = (Resolved tt, l1).
Proof.
  exact (lock_unlock_round_trip 4242 alive (disk "0.4242") eq_refl eq_refl eq_refl).
Defined.

Lemma isLocked_iff_held_witness :
  ∃ b l', isLocked0 (disk "1.77") = (Resolved b, l') ∧
    (b = true ↔
       localLock (disk "1.77") = true ∨
       ∃ contents, lockFile (disk "1.77") = Some contents ∧
         locked (parseStatus contents) = true ∧
         (pid (parseStatus contents) = self_pid 4242 ∨
          alive (pid (parseStatus contents)) = true)).
Proof. exact (isLocked_iff_held 4242 alive (disk "1.77") eq_refl eq_refl). Defined.

Lemma unlock_refused_for_other_holder_witness :
  unlock0 (disk "1.77")
  = (Rejected (NewError
       "Device is locked by another process, unable to write to lock file."),
     disk "1.77") ∧
  isLocked0 (disk "1.77") = (Resolved true, disk "1.77").
Proof.
  apply (unlock_refused_for_other_holder 4242 alive (disk "1.77") 77
           eq_refl eq_refl eq_refl); [intros H; discriminate H|reflexivity].
Defined.

Lemma isLocked_repairs_lock_file_witness :
  isLocked0 (lockState device1) = (Resolved false, disk "0.4242") ∧
  lock0 (disk "0.4242") = (Resolved tt, set_localLock true (disk "1.4242")) ∧
  isLocked0 (disk "1.999") = (Resolved false, disk "0.4242").
Proof.
  destruct (isLocked_repairs_lock_file 4242 alive (lockState device1)
              eq_refl eq_refl eq_refl (or_introl eq_refl)) as [H1 H2].
  assert (H3 : (999 : N) ≠ 4242%N) by (intros H; discriminate H).
  destruct (isLocked_repairs_lock_file 4242 alive (disk "1.999")
              eq_refl eq_refl eq_refl
              (or_intror (ex_intro _ 999%N (conj eq_refl (conj H3 eq_refl)))))
    as [H4 _].
  split; [exact H1|]. split; [exact H2|exact H4].
Defined.



Local Abbreviation token1 := "c4ca4238a0b923820dcc509a6f75849b".

(** [session0] with a second session, created at time 1500. *)
Local Abbreviation session01 :=
  (DeviceSession.new 1%nat token1 1500 None session0).

Lemma session_sliding_window_witness :
  let st1 := (DeviceSession.validate 0%nat 2000 session0).2 in
  (truthy (DeviceSession.validate 0%nat 2000 session0).1 = true →
     (truthy (DeviceSession.validate 0%nat 301500 st1).1 = true
      ↔ 301500 - 2000 < DeviceSession.DEFAULT_TIMEOUT)) ∧
  (truthy (DeviceSession.validate 0%nat 2000 session0).1 = false →
     truthy (DeviceSession.validate 0%nat 301500 st1).1 = false).
Proof.
  exact (session_sliding_window 0%nat
           {| DeviceSession.token := Some token0; DeviceSession.lastUsed := 1000;
              DeviceSession.timeout := DeviceSession.DEFAULT_TIMEOUT |}
           2000 301500 session0 eq_refl).
Defined.

Lemma sessions_do_not_interfere_witness :
  (DeviceSession.validate 1%nat 2000
     (DeviceSession.validate 0%nat 400000 session01).2).1
  = (DeviceSession.validate 1%nat 2000 session01).1 ∧
  (DeviceSession.validate 1%nat 2000 (DeviceSession.destroy 0%nat session01)).1
  = (DeviceSession.validate 1%nat 2000 session01).1.
Proof.
  apply (sessions_do_not_interfere 0%nat 1%nat
           {| DeviceSession.token := Some token1; DeviceSession.lastUsed := 1500;
              DeviceSession.timeout := DeviceSession.DEFAULT_TIMEOUT |}
           400000 2000 session01);
    [intros H; discriminate H|reflexivity|intros H; discriminate H].
Defined.

Lemma startSession_locks_the_device_witness :
  ∃ d', startSession0 None 0%nat token0 1000 None device1 = (Resolved 0%nat, d') ∧
    session d' = Some 0%nat ∧
    store d' = DeviceSession.new 0%nat token0 1000 None (store device1) ∧
    lockFile (lockState d') = Some "1.4242" ∧
    isLocked0 (lockState d') = (Resolved true, lockState d') ∧
    ∀ rotateTo r2 tok2 now2 cfg2,
      startSession0 rotateTo r2 tok2 now2 cfg2 d'
      = (Rejected DEVICE_IS_LOCKED_ERROR, d').
Proof.
  exact (startSession_locks_the_device 4242 alive 0%nat token0 1000 None device1
           eq_refl eq_refl eq_refl eq_refl).
Defined.

Lemma session_round_trip_witness :
  let d1 := (startSession0 None 0%nat token0 1000 None device1).2 in
  let d2 := (endSession0 2000 2000 d1).2 in
  endSession0 2000 2000 d1 = (Resolved tt, None, d2) ∧
  session d2 = None ∧
  isLocked0 (lockState d2) = (Resolved false, lockState d2) ∧
  (∀ t2, truthy (DeviceSession.validate 0%nat t2 (store d2)).1 = false) ∧
  (startSession0 None 1%nat token1 3000 None d2).1 = Resolved 1%nat.
Proof.
  apply (session_round_trip 4242 alive 0%nat 1%nat token0 token1 1000 2000 2000 3000
           None None device1 eq_refl eq_refl eq_refl eq_refl);
    [intros H; discriminate H|reflexivity].
Defined.

Lemma expired_session_keeps_device_locked_witness :
  let d' := set_store (DeviceSession.destroy 0%nat (store device0)) device0 in
  ifBootedAndAvailableDoWithSessionOrReject 4242 alive
    (AndroidDevice.isBooted (inr None)) (VSession 0%nat) 400000
    (λ d, (Resolved tt, d)) device0 = (Rejected INVALID_SESSION, d') ∧
  (∀ now2, ifBootedAndAvailableDoWithSessionOrReject 4242 alive
     (AndroidDevice.isBooted (inr None)) (VSession 0%nat) now2
     (λ d, (Resolved tt, d)) d' = (Rejected INVALID_SESSION, d')) ∧
  (∀ rotateTo r2 tok2 now2 cfg2,
     startSession0 rotateTo r2 tok2 now2 cfg2 d'
     = (Rejected DEVICE_IS_LOCKED_ERROR, d')).
Proof.
  exact (expired_session_keeps_device_locked 4242 alive
           (AndroidDevice.isBooted (inr None)) (λ d, (Resolved tt, d))
           0%nat 400000 device0 eq_refl eq_refl eq_refl).
Defined.

Lemma endSession_releases_expired_session_witness :
  ∃ d', endSession0 400000 400000 device0 = (Resolved tt, None, d') ∧
    session d' = None ∧
    store d' = DeviceSession.destroy 0%nat (store device0) ∧
    (localLock (lockState device0) = true →
     readError (lockState device0) = None → writeError (lockState device0) = None →
     lockFile (lockState d') = Some "0.4242" ∧
     isLocked0 (lockState d') = (Resolved false, lockState d')).
Proof.
  exact (endSession_releases_expired_session 4242 alive 0%nat 400000 400000 device0
           eq_refl eq_refl).
Defined.


Lemma android_physical_device_is_never_valid_witness :
  ∃ o, AndroidDevice.newPhysicalDevice "emulator-5556" token0 "/home/u/.DeviceStorage/x"
       = inr o ∧
    deviceIsValid o
    = VArray ["Method: boot"; "Method: shutdown"; "Property: sdk"; "Property: simulator"].
Proof.
  eexists. split; [reflexivity|].
  refine (proj1 (android_physical_device_is_never_valid
                   "emulator-5556" token0 "/home/u/.DeviceStorage/x" _ eq_refl _)).
  intros H. discriminate H.
Defined.

Lemma android_emulator_is_valid_iff_sdk_is_known_witness :
  ∃ emu, AndroidEmulatorDevice.generateEmulatorObjectFromIni
           (Some "Nexus 5") (Some "Nexus_5") "/home/u/.DeviceStorage/x"
         = Some (inr emu) ∧
    deviceIsValid (AndroidEmulatorDevice.setSdk (Some "23") emu) = VArray [] ∧
    deviceIsValid (AndroidEmulatorDevice.setSdk None emu) = VArray ["Property: sdk"].
Proof.
  eexists. split; [reflexivity|]. split.
  - exact (android_emulator_is_valid_iff_sdk_is_known (Some "Nexus 5") (Some "Nexus_5")
             "/home/u/.DeviceStorage/x" _ (Some "23") eq_refl).
  - exact (android_emulator_is_valid_iff_sdk_is_known (Some "Nexus 5") (Some "Nexus_5")
             "/home/u/.DeviceStorage/x" _ None eq_refl).
Defined.

(** A registered driver that is a function with no static method at all:
    [discover] is rejected with the TypeError of the engine and [done] is
    never called, whatever the other drivers would have answered. *)
Lemma discover_lists_the_valid_devices_witness :
  let bare := {| BaseDevice.isFunction := true; BaseDevice.className := Some "Bare";
                 BaseDevice.statics := ∅ |} in
  let quiet := {| Index.during := []; Index.thrown := None |} in
  Index.discover "d[(intermediate value)] is not a function" Js.VUndefined Js.VUndefined
    (λ _, "") [(bare, quiet)] []
  = (Js.Rejected (Js.TypeError "d[(intermediate value)] is not a function"), None).
Proof.
  intros bare quiet.
  destruct (discover_lists_the_valid_devices
              "d[(intermediate value)] is not a function" (λ _, "")
              Js.VUndefined Js.VUndefined [(bare, quiet)] []) as (_ & Hmissing & _).
  refine (Hmissing [] bare quiet [] eq_refl _ eq_refl).
  intros d call Hin. by apply elem_of_nil in Hin.
Defined.

Lemma getAvailableDevices_needs_sessions_witness :
  [device0] ≠ [] ∧ ∀ d, d ∈ [device0] → session d ≠ None.
Proof.
  exact (getAvailableDevices_needs_sessions 4242 alive [device0] [] eq_refl).
Defined.


(** No walk under way, nothing queued. *)
Local Abbreviation idle :=
  ({| Discovery.walking := false; Discovery.last := 0;
      Discovery.cache := @nil string; Discovery.queue := @nil nat |}).

Lemma empty_avd_directory_leaves_callers_waiting_witness :
  let st1 := (AndroidDevice.getAvailableSimulators [] "/home/u/.android/avd"
                1000 1%nat idle).2 in
  AndroidDevice.readdirListed [] st1 = ([], st1) ∧
  AndroidDevice.getAvailableSimulators [] "/home/u/.android/avd" 2000 2%nat st1
  = (Discovery.Enqueued,
     {| Discovery.walking := true; Discovery.last := 1000; Discovery.cache := [];
        Discovery.queue := [1%nat; 2%nat] |}).
Proof.
  apply (empty_avd_directory_leaves_callers_waiting [] "/home/u/.android/avd"
           1000 2000 1%nat 2%nat idle eq_refl).
  unfold AndroidDevice.AVD_DEVICES_TIMEOUT. lia.
Defined.

Lemma overlapping_adb_walks_answer_once_witness :
  let q1 := AndroidDevice.onServerKilled [] "adb" 1000 1%nat idle in
  let q2 := AndroidDevice.onServerKilled [] "adb" 5000 2%nat q1.2 in
  let first := AndroidDevice.executeQueue None ["emulator-5554"] q2.2 in
  let second := AndroidDevice.executeQueue None ["emulator-5554"] first.2 in
  q1.1 = Discovery.StartedWalk "adb devices;" ∧
  q2.1 = Discovery.StartedWalk "adb devices;" ∧
  (∃ outcome, first.1 = [(1%nat, outcome); (2%nat, outcome)] ∧
     outcome = Resolved ["emulator-5554"]) ∧
  second.1 = [] ∧ Discovery.walking second.2 = false.
Proof.
  apply (overlapping_adb_walks_answer_once [] "adb" 1000 5000 1%nat 2%nat
           None None ["emulator-5554"] ["emulator-5554"] idle eq_refl eq_refl).
  unfold AndroidDevice.ADB_RUNNING_TIMEOUT. lia.
Defined.

Lemma ios_waitForBoot_ignores_the_last_poll_witness :
  iOSSimulatorDevice.waitForBoot 2 0
    [inr (Some false); inr (Some false); inr (Some true)] device0
  = Some (None, false).
Proof.
  exact (ios_waitForBoot_ignores_the_last_poll 2
           [inr (Some false); inr (Some false); inr (Some true)] device0
           ltac:(simpl; lia)).
Defined.

Lemma ios_boot_resolves_though_never_booted_witness :
  iOSSimulatorDevice.bootWait "3C0D6F1A" (replicate 11 (inr (Some false)))
    booting_Nexus_5 device1
  = (Resolved tt, <["3C0D6F1A" := false]> booting_Nexus_5,
     exec iOSSimulatorDevice.focus device1).
Proof.
  apply (ios_boot_resolves_though_never_booted "3C0D6F1A"
           (replicate 11 (inr (Some false))) (Some false) booting_Nexus_5 device1).
  - simpl. repeat constructor; intros H; discriminate H.
  - reflexivity.
Defined.

End MoreSamples.
